(** * multiline_abbr: a shallow embedding of the MkDocs plugin

    The plugin (mkdocs/plugins/multiline_abbr/plugin.py) reads a file of
    abbreviation definitions, renders every definition as tooltip markup and
    replaces the keys found in the body of every page by a marker that carries
    that markup.  This file embeds the Python functions of the plugin as Rocq
    functions and proves the properties the specification states about them.

    Python [str] values are sequences of Unicode code points: a character is
    a code point in [N], a string a list of them.  The regular expressions of
    the plugin are values of a small syntax tree, run by a backtracking
    matcher that tries alternatives in the order Python's [re] tries them. *)

From Stdlib Require Import List NArith Bool Arith Lia Sorted.
From Stdlib Require String Ascii.
Import ListNotations.
Import String.StringSyntax.
Delimit Scope string_scope with string.

Definition char := N.
Definition str := list char.

(** An ASCII string literal as a [str]. *)
Definition lit (s : String.string) : str :=
  List.map Ascii.N_of_ascii (String.list_ascii_of_string s).

Arguments lit s%_string.

(** The double quote, which the literals above cannot hold. *)
Definition dq : str := [34%N].

Fixpoint str_eqb (a b : str) : bool :=
  match a, b with
  | [], [] => true
  | x :: a', y :: b' => N.eqb x y && str_eqb a' b'
  | _, _ => false
  end.

Definition in_range (lo hi c : N) : bool := (N.leb lo c) && (N.leb c hi).

Definition in_chars (l : list N) (c : N) : bool := existsb (N.eqb c) l.

(** ** The parts of Python's [str] the plugin uses *)
Module Py.

(** [str.isspace] on one character, which is also the class [\s] of [re] on
    [str] patterns and the set [strip] removes. *)
Definition isspace (c : char) : bool :=
  in_range 9 13 c || in_range 28 32 c || N.eqb c 133 || N.eqb c 160
  || N.eqb c 5760 || in_range 8192 8202 c || in_range 8232 8233 c
  || N.eqb c 8239 || N.eqb c 8287 || N.eqb c 12288.

(** The first code point of every run of ten decimal digits of the Unicode
    category Nd (Unicode 14, the table of CPython 3.11), and the one run of
    fifty (the mathematical digits). *)
Definition Nd_decades : list N :=
  [48; 1632; 1776; 1984; 2406; 2534; 2662; 2790; 2918; 3046; 3174; 3302;
   3430; 3558; 3664; 3792; 3872; 4160; 4240; 6112; 6160; 6470; 6608; 6784;
   6800; 6992; 7088; 7232; 7248; 42528; 43216; 43264; 43472; 43504; 43600;
   44016; 65296; 66720; 68912; 69734; 69872; 69942; 70096; 70384; 70736;
   70864; 71248; 71360; 71472; 71904; 72016; 72784; 73040; 73120; 92768;
   92864; 93008; 123200; 123632; 125264; 130032]%N.

(** [str.isdecimal] on one character: the class [\d] of [re] on [str]
    patterns. *)
Definition isdecimal (c : char) : bool :=
  existsb (fun lo => in_range lo (lo + 9) c) Nd_decades
  || in_range 120782 120831 c.

(** The class [[A-Za-z0-9]]. *)
Definition ascii_alnum (c : char) : bool :=
  in_range 65 90 c || in_range 97 122 c || in_range 48 57 c.

(** [s] without its longest prefix of characters of the class [p]. *)
Fixpoint lstrip_by (p : char -> bool) (s : str) : str :=
  match s with
  | c :: s' => if p c then lstrip_by p s' else s
  | [] => []
  end.

(** [s.lstrip()], [s.rstrip()] and [s.strip()]. *)
Definition lstrip (s : str) : str := lstrip_by isspace s.

Fixpoint rstrip (s : str) : str :=
  match s with
  | [] => []
  | c :: s' =>
      match rstrip s' with
      | [] => if isspace c then [] else [c]
      | t => c :: t
      end
  end.

Definition strip (s : str) : str := rstrip (lstrip s).

(** The line boundaries of [str.splitlines]: LF, VT, FF, CR, FS, GS, RS, NEL,
    LS and PS; CR LF counts as one. *)
Definition is_linebreak (c : char) : bool :=
  in_range 10 13 c || in_range 28 30 c || N.eqb c 133 || in_range 8232 8233 c.

(** [cur] is the line read so far and [after_cr] tells that the character
    before was a CR, whose LF is then part of the same boundary. *)
Fixpoint splitlines_go (after_cr : bool) (cur : str) (s : str) : list str :=
  match s with
  | [] => match cur with [] => [] | _ => [cur] end
  | c :: s' =>
      if after_cr && N.eqb c 10 then splitlines_go false cur s'
      else if is_linebreak c then cur :: splitlines_go (N.eqb c 13) [] s'
      else splitlines_go false (cur ++ [c]) s'
  end.

Definition splitlines (s : str) : list str := splitlines_go false [] s.

(** [old] is a prefix of [s]: what is left of [s] after it. *)
Fixpoint strip_prefix (old s : str) : option str :=
  match old, s with
  | [], _ => Some s
  | x :: old', y :: s' => if N.eqb x y then strip_prefix old' s' else None
  | _ :: _, [] => None
  end.

Definition startswith (s old : str) : bool :=
  match strip_prefix old s with Some _ => true | None => false end.

(** [s.replace(old, new)] for a non-empty [old]: the occurrences of [old] are
    found from left to right and do not overlap; [skip] counts the characters
    of an occurrence still to be passed. *)
Fixpoint replace_go (old new : str) (skip : nat) (s : str) : str :=
  match s with
  | [] => []
  | c :: s' =>
      match skip with
      | S n => replace_go old new n s'
      | O =>
          if startswith s old
          then new ++ replace_go old new (length old - 1) s'
          else c :: replace_go old new 0 s'
      end
  end.

(** [s.replace(old, new)]; an empty [old] matches before every character and
    at the end. *)
Definition replace (s old new : str) : str :=
  match old with
  | [] => new ++ flat_map (fun c => c :: new) s
  | _ :: _ => replace_go old new 0 s
  end.

(** [sep.join(parts)]. *)
Fixpoint join (sep : str) (parts : list str) : str :=
  match parts with
  | [] => []
  | [p] => p
  | p :: rest => p ++ sep ++ join sep rest
  end.

(** [str(n)] for a non-negative integer. *)
Fixpoint digits_of_uint (d : Decimal.uint) : str :=
  match d with
  | Decimal.Nil => []
  | Decimal.D0 d' => 48%N :: digits_of_uint d'
  | Decimal.D1 d' => 49%N :: digits_of_uint d'
  | Decimal.D2 d' => 50%N :: digits_of_uint d'
  | Decimal.D3 d' => 51%N :: digits_of_uint d'
  | Decimal.D4 d' => 52%N :: digits_of_uint d'
  | Decimal.D5 d' => 53%N :: digits_of_uint d'
  | Decimal.D6 d' => 54%N :: digits_of_uint d'
  | Decimal.D7 d' => 55%N :: digits_of_uint d'
  | Decimal.D8 d' => 56%N :: digits_of_uint d'
  | Decimal.D9 d' => 57%N :: digits_of_uint d'
  end.

Definition str_of_nat (n : nat) : str := digits_of_uint (Nat.to_uint n).

(** [html.escape(s)] with its default [quote=True], as the library writes
    it: five replacements one after the other, the ampersand first. *)
Definition html_escape (s : str) : str :=
  let s := replace s (lit "&") (lit "&amp;") in
  let s := replace s (lit "<") (lit "&lt;") in
  let s := replace s (lit ">") (lit "&gt;") in
  let s := replace s dq (lit "&quot;") in
  let s := replace s (lit "'") (lit "&#x27;") in
  s.

End Py.

(** ** The regular expressions of the plugin

    The syntax tree holds the constructs the patterns of the plugin use.
    Repetition is over one character of a class, as in every pattern of the
    plugin ([\s*], [\d+], [[^\]]+], [.*?]).  The matcher is the backtracking
    matcher of [re]: it tries the alternatives in order, a greedy repetition
    from the longest run down, a lazy one from the shortest up, and moves to
    the next choice when what follows (the continuation [k]) fails. *)
Module Re.

Inductive regex : Type :=
| Eps                              (* the empty pattern *)
| Lit (w : str)                    (* literal text *)
| Cls (p : char -> bool)           (* one character of a class *)
| Bol                              (* ^ (without MULTILINE) *)
| Eol                              (* $ (without MULTILINE) *)
| NotBehind (p : char -> bool)     (* (?<![...]) *)
| NotAhead (p : char -> bool)      (* (?![...]) *)
| Seq (r1 r2 : regex)
| Alt (r1 r2 : regex)              (* r1|r2 *)
| Opt (r : regex)                  (* r? *)
| Star (p : char -> bool)          (* [...]* *)
| Plus (p : char -> bool)          (* [...]+ *)
| LazyStar (p : char -> bool)      (* [...]*? *)
| Group (r : regex).               (* (r), the capturing group 1 *)

(** The pattern [r1 r2 ... rn]. *)
Definition seq (rs : list regex) : regex := fold_right Seq Eps rs.

(** The pattern [r1|r2|...|rn]. *)
Fixpoint alts (rs : list regex) : regex :=
  match rs with
  | [] => Eps
  | [r] => r
  | r :: rs' => Alt r (alts rs')
  end.

(** The class [.] under DOTALL. *)
Definition any (c : char) : bool := true.

(** The character before the position reached after reading [w]. *)
Definition last_char (pv : option char) (w : str) : option char :=
  fold_left (fun _ c => Some c) w pv.

Section Matcher.
Context {A : Type}.

(** A position is the character before it ([None] at the start of the
    string) and the text from it on. *)
Fixpoint star (p : char -> bool) (pv : option char) (s : str)
    (k : option char -> str -> option A) : option A :=
  match s with
  | c :: s' =>
      if p c then
        match star p (Some c) s' k with
        | Some a => Some a
        | None => k pv s
        end
      else k pv s
  | [] => k pv []
  end.

Fixpoint lazy_star (p : char -> bool) (pv : option char) (s : str)
    (k : option char -> str -> option A) : option A :=
  match k pv s with
  | Some a => Some a
  | None =>
      match s with
      | c :: s' => if p c then lazy_star p (Some c) s' k else None
      | [] => None
      end
  end.

(** [run r pv s g k]: match [r] at the position [(pv, s)], with [g] the text
    of group 1 so far, and go on with [k]. *)
Fixpoint run (r : regex) (pv : option char) (s : str) (g : option str)
    (k : option char -> str -> option str -> option A) : option A :=
  match r with
  | Eps => k pv s g
  | Lit w =>
      match Py.strip_prefix w s with
      | Some s' => k (last_char pv w) s' g
      | None => None
      end
  | Cls p =>
      match s with
      | c :: s' => if p c then k (Some c) s' g else None
      | [] => None
      end
  | Bol => match pv with None => k pv s g | Some _ => None end
  | Eol =>
      match s with
      | [] => k pv s g
      | [c] => if N.eqb c 10 then k pv s g else None
      | _ => None
      end
  | NotBehind p =>
      match pv with
      | Some c => if p c then None else k pv s g
      | None => k pv s g
      end
  | NotAhead p =>
      match s with
      | c :: _ => if p c then None else k pv s g
      | [] => k pv s g
      end
  | Seq r1 r2 => run r1 pv s g (fun pv' s' g' => run r2 pv' s' g' k)
  | Alt r1 r2 =>
      match run r1 pv s g k with
      | Some a => Some a
      | None => run r2 pv s g k
      end
  | Opt r1 =>
      match run r1 pv s g k with
      | Some a => Some a
      | None => k pv s g
      end
  | Star p => star p pv s (fun pv' s' => k pv' s' g)
  | Plus p =>
      match s with
      | c :: s' => if p c then star p (Some c) s' (fun pv' s' => k pv' s' g) else None
      | [] => None
      end
  | LazyStar p => lazy_star p pv s (fun pv' s' => k pv' s' g)
  | Group r1 =>
      run r1 pv s g
        (fun pv' s' _ => k pv' s' (Some (firstn (length s - length s') s)))
  end.

End Matcher.

(** One attempt at one position: the length of the match and the text of
    group 1.  With [adv] the match must not be empty (the rule for the
    attempt that follows an empty match). *)
Definition attempt (r : regex) (adv : bool) (pv : option char) (s : str)
    : option (nat * option str) :=
  run r pv s None
    (fun _ s' g =>
       let n := length s - length s' in
       if adv && Nat.eqb n 0 then None else Some (n, g)).

(** [pattern.match(s)]: an attempt at the start of [s]. *)
Definition match_ (r : regex) (s : str) : option (nat * option str) :=
  attempt r false None s.

(** [pattern.search(s)]: the first position with a match. *)
Fixpoint search_go (r : regex) (pv : option char) (s : str)
    : option (nat * option str) :=
  match attempt r false pv s with
  | Some m => Some m
  | None =>
      match s with
      | c :: s' => search_go r (Some c) s'
      | [] => None
      end
  end.

Definition search (r : regex) (s : str) : option (nat * option str) :=
  search_go r None s.

(** What a scan of the text leaves: the characters outside the matches and
    the matches (their text and the text of group 1), from left to right. *)
Inductive piece : Type :=
| Plain (c : char)
| Hit (whole : str) (g1 : option str).

(** The loop of [sub] and [split]: search from the end of the last match;
    [skip] counts the characters of that match still to be passed.  After an
    empty match the next attempt at the same position must not be empty. *)
Fixpoint scan (r : regex) (skip : nat) (pv : option char) (s : str)
    : list piece :=
  match s with
  | [] =>
      match attempt r false pv [] with
      | Some (_, g) => [Hit [] g]
      | None => []
      end
  | c :: s' =>
      match skip with
      | S n => scan r n (Some c) s'
      | O =>
          match attempt r false pv s with
          | Some (S n, g) => Hit (firstn (S n) s) g :: scan r n (Some c) s'
          | Some (O, g) =>
              Hit [] g ::
              match attempt r true pv s with
              | Some (S n, g') =>
                  Hit (firstn (S n) s) g' :: scan r n (Some c) s'
              | _ => Plain c :: scan r 0 (Some c) s'
              end
          | None => Plain c :: scan r 0 (Some c) s'
          end
      end
  end.

(** [pattern.sub(repl, s)] with a function [repl] of the match. *)
Definition sub_piece (repl : str -> option str -> str) (x : piece) : str :=
  match x with
  | Plain c => [c]
  | Hit whole g => repl whole g
  end.

Definition sub (r : regex) (repl : str -> option str -> str) (s : str) : str :=
  concat (List.map (sub_piece repl) (scan r 0 None s)).

(** [pattern.split(s)] for a pattern with one group: the text between the
    matches, with the text of group 1 of every match in between.  [cur] is
    the text since the last match. *)
Fixpoint split_pieces (cur : str) (ps : list piece) : list str :=
  match ps with
  | [] => [cur]
  | Plain c :: ps' => split_pieces (cur ++ [c]) ps'
  | Hit _ g :: ps' =>
      cur :: match g with Some t => t | None => [] end :: split_pieces [] ps'
  end.

Definition split (r : regex) (s : str) : list str :=
  split_pieces [] (scan r 0 None s).

End Re.

(** ** The plugin: line classifier and tooltip markup *)

Definition ws : Re.regex := Re.Star Py.isspace.            (* \s* *)
Definition digits : Re.regex := Re.Plus Py.isdecimal.      (* \d+ *)
Definition colon : Re.regex := Re.Cls (in_chars [65306; 58]%N).  (* [：:] *)

(** The class [[一二三四五六七八九十]]. *)
Definition cjk_numeral : char -> bool :=
  in_chars [19968; 20108; 19977; 22235; 20116; 20845; 19971; 20843; 20061; 21313]%N.

Definition c_di : char := 31532%N.         (* 第 *)
Definition c_tiao : char := 26781%N.       (* 條 *)
Definition c_xiang : char := 38917%N.      (* 項 *)
Definition c_kuan : char := 27454%N.       (* 款 *)
Definition c_mu : char := 30446%N.         (* 目 *)
Definition c_ci : char := 27425%N.         (* 次 *)
Definition c_comma : char := 12289%N.      (* 、 *)
Definition c_lparen : char := 65288%N.     (* （ *)
Definition c_rparen : char := 65289%N.     (* ） *)

(** [LEVEL_RULES], in the order of the source. *)
Definition LEVEL_RULES : list (Re.regex * nat) :=
  [ (* ^\s*第\s*\d+[-－]?\d*\s*條 *)
    (Re.seq [Re.Bol; ws; Re.Lit [c_di]; ws; digits;
             Re.Opt (Re.Cls (in_chars [45; 65293]%N)); Re.Star Py.isdecimal;
             ws; Re.Lit [c_tiao]], 0);
    (* ^\s*第\s*\d+\s*項[：:] *)
    (Re.seq [Re.Bol; ws; Re.Lit [c_di]; ws; digits; ws; Re.Lit [c_xiang]; colon], 1);
    (* ^\s*第\s*\d+\s*款[：:] *)
    (Re.seq [Re.Bol; ws; Re.Lit [c_di]; ws; digits; ws; Re.Lit [c_kuan]; colon], 2);
    (* ^\s*第\s*\d+\s*目[：:] *)
    (Re.seq [Re.Bol; ws; Re.Lit [c_di]; ws; digits; ws; Re.Lit [c_mu]; colon], 3);
    (* ^\s*第\s*\d+\s*次[：:] *)
    (Re.seq [Re.Bol; ws; Re.Lit [c_di]; ws; digits; ws; Re.Lit [c_ci]; colon], 4);
    (* ^\s*[一二三四五六七八九十]+、 *)
    (Re.seq [Re.Bol; ws; Re.Plus cjk_numeral; Re.Lit [c_comma]], 2);
    (* ^\s*（\d+） *)
    (Re.seq [Re.Bol; ws; Re.Lit [c_lparen]; digits; Re.Lit [c_rparen]], 3);
    (* ^\s*\(\d+\) *)
    (Re.seq [Re.Bol; ws; Re.Lit (lit "("); digits; Re.Lit (lit ")")], 3);
    (* ^\s*（[一二三四五六七八九十]+） *)
    (Re.seq [Re.Bol; ws; Re.Lit [c_lparen]; Re.Plus cjk_numeral; Re.Lit [c_rparen]], 3);
    (* ^\s*\([a-zA-Z]\) *)
    (Re.seq [Re.Bol; ws; Re.Lit (lit "(");
             Re.Cls (fun c => in_range 97 122 c || in_range 65 90 c);
             Re.Lit (lit ")")], 4);
    (* ^\s*\d+、 *)
    (Re.seq [Re.Bol; ws; digits; Re.Lit [c_comma]], 2) ].

Definition is_some {A : Type} (o : option A) : bool :=
  match o with Some _ => true | None => false end.

(** The loop of [detect_level] over a rule table. *)
Fixpoint detect_level_in (rules : list (Re.regex * nat)) (line : str) : nat :=
  match rules with
  | [] => 0
  | (pat, lvl) :: rules' =>
      if is_some (Re.search pat line) then lvl else detect_level_in rules' line
  end.

Definition detect_level (line : str) : nat := detect_level_in LEVEL_RULES line.

(** One turn of the loop of [lines_to_html]: the container of one line. *)
Definition line_to_html (raw : str) : str :=
  let s := Py.rstrip raw in
  let lvl := detect_level s in
  let esc := Py.html_escape s in
  lit "<div class=" ++ dq ++ lit "mlabbr-line mlabbr-l" ++ Py.str_of_nat lvl
    ++ dq ++ lit ">" ++ esc ++ lit "</div>".

Definition lines_to_html (lines : list str) : str :=
  concat (List.map line_to_html lines).

(** ** The plugin: the parser of the definitions file *)

(** [ABBR_DEF_RE], [^\*\[([^\]]+)\]\s*:\s*$]. *)
Definition ABBR_DEF_RE : Re.regex :=
  Re.seq [Re.Bol; Re.Lit (lit "*["); Re.Group (Re.Plus (fun c => negb (N.eqb c 93)));
          Re.Lit (lit "]"); ws; Re.Lit (lit ":"); ws; Re.Eol].

(** [<!--.*?-->] under DOTALL, and [^\s*<!--]. *)
Definition COMMENT_RE : Re.regex :=
  Re.seq [Re.Lit (lit "<!--"); Re.LazyStar Re.any; Re.Lit (lit "-->")].

Definition COMMENT_OPEN_RE : Re.regex :=
  Re.seq [Re.Bol; ws; Re.Lit (lit "<!--")].

(** A Python [dict] from [str] to [str]: the items in the order of their
    first insertion; an assignment to a key already there keeps its place. *)
Definition dict := list (str * str).

Fixpoint dict_get (d : dict) (k : str) : option str :=
  match d with
  | [] => None
  | (k', v) :: d' => if str_eqb k' k then Some v else dict_get d' k
  end.

Fixpoint dict_set (d : dict) (k v : str) : dict :=
  match d with
  | [] => [(k, v)]
  | (k', v') :: d' =>
      if str_eqb k' k then (k', v) :: d' else (k', v') :: dict_set d' k v
  end.

Definition dict_keys (d : dict) : list str := List.map fst d.

(** The locals of [_load_abbrs] that its loop updates. *)
Record loader : Type := Loader {
  l_map : dict;            (* abbr_map *)
  l_key : option str;      (* key, None before the first header *)
  l_buf : list str         (* buf *)
}.

(** [line.strip()] is the empty string. *)
Definition is_blank (line : str) : bool :=
  match Py.strip line with [] => true | _ :: _ => false end.

(** [if key and buf: abbr_map[key] = lines_to_html(buf)]. *)
Definition flush (st : loader) : dict :=
  match l_key st, l_buf st with
  | Some ((_ :: _) as k), _ :: _ => dict_set (l_map st) k (lines_to_html (l_buf st))
  | _, _ => l_map st
  end.

(** The body of the loop of [_load_abbrs] for one line. *)
Definition load_line (st : loader) (line : str) : loader :=
  if is_some (Re.match_ COMMENT_OPEN_RE line) then st
  else
    match Re.match_ ABBR_DEF_RE line with
    | Some (_, g) =>
        let k := match g with Some t => t | None => [] end in
        Loader (flush st) (Some (Py.strip k)) []
    | None =>
        match l_key st with
        | Some _ =>
            if is_blank line
               && match l_buf st with [] => true | _ => is_blank (last (l_buf st) []) end
            then st
            else Loader (l_map st) (l_key st) (l_buf st ++ [line])
        | None => st
        end
    end.

(** The lines [_load_abbrs] loops over: those of the text without its
    comments. *)
Definition definition_lines (text : str) : list str :=
  Py.splitlines (Re.sub COMMENT_RE (fun _ _ => []) text).

(** The loop of [_load_abbrs] from a state of its locals, and the statement
    after the loop. *)
Definition load_from (st : loader) (lines : list str) : dict :=
  flush (fold_left load_line lines st).

Definition load_lines (lines : list str) : dict :=
  load_from (Loader [] None []) lines.

(** [_load_abbrs] on the text of the file. *)
Definition _load_abbrs (text : str) : dict := load_lines (definition_lines text).

(** ** The plugin: configuration and the page transforms *)

(** What [on_config] stores in the plugin object. *)
Record plugin : Type := Plugin {
  abbr_map : dict;
  key_re : option Re.regex
}.

(** [sorted(keys, key=len, reverse=True)]: stable, the longest first. *)
Fixpoint insert_by_len (x : str) (l : list str) : list str :=
  match l with
  | [] => [x]
  | y :: l' => if length x <? length y then y :: insert_by_len x l' else x :: l
  end.

Definition sorted_by_len (keys : list str) : list str :=
  fold_right insert_by_len [] keys.

(** [(?<![A-Za-z0-9])(k1|k2|...)(?![A-Za-z0-9])], every key escaped. *)
Definition key_pattern (keys : list str) : Re.regex :=
  Re.seq [Re.NotBehind Py.ascii_alnum;
          Re.Group (Re.alts (List.map Re.Lit keys));
          Re.NotAhead Py.ascii_alnum].

(** The plugin object for an index [m]: the part of [on_config] after the
    index is loaded. *)
Definition plugin_of (m : dict) : plugin :=
  Plugin m
    match m with
    | [] => None
    | _ :: _ => Some (key_pattern (sorted_by_len (dict_keys m)))
    end.

(** [on_config]; [file] is the text of includes/abbreviations.md, [None]
    when the file does not exist. *)
Definition on_config (file : option str) : plugin :=
  plugin_of match file with Some text => _load_abbrs text | None => [] end.

(** The marker that replaces a key. *)
Definition marker (html_title k : str) : str :=
  lit "<span class=" ++ dq ++ lit "mlabbr" ++ dq ++ lit " data-mlabbr=" ++ dq
    ++ Py.html_escape html_title ++ dq ++ lit ">" ++ k ++ lit "</span>".

(** The local function [repl] of [_replace_in_plain]; group 1 takes part in
    every match of [key_re]. *)
Definition repl (self : plugin) (whole : str) (g1 : option str) : str :=
  let k := match g1 with Some t => t | None => [] end in
  match dict_get (abbr_map self) k with
  | Some ((_ :: _) as html_title) => marker html_title k
  | _ => k
  end.

Definition _replace_in_plain (self : plugin) (text : str) : str :=
  match key_re self with
  | None => text
  | Some r => Re.sub r (repl self) text
  end.

(** [(```.*?```|~~~.*?~~~)] under DOTALL. *)
Definition FENCE_RE : Re.regex :=
  Re.Group
    (Re.Alt (Re.seq [Re.Lit (lit "```"); Re.LazyStar Re.any; Re.Lit (lit "```")])
            (Re.seq [Re.Lit (lit "~~~"); Re.LazyStar Re.any; Re.Lit (lit "~~~")])).

(** [for i in range(0, len(parts), 2): parts[i] = f(parts[i])]. *)
Fixpoint map_even (f : str -> str) (parts : list str) : list str :=
  match parts with
  | [] => []
  | p :: rest =>
      f p :: match rest with
             | [] => []
             | q :: rest' => q :: map_even f rest'
             end
  end.

Definition on_page_markdown (self : plugin) (markdown : str) : str :=
  let parts := Re.split FENCE_RE markdown in
  concat (map_even (_replace_in_plain self) parts).

(** The style block and the script that [on_post_page] injects (the text of
    its local [style], line by line). *)
Definition style_lines : list str :=
  [lit "<style id=" ++ dq ++ lit "mlabbr-style" ++ dq ++ lit ">";
   lit ".mlabbr {";
   lit "  text-decoration: underline dotted;";
   lit "  cursor: help;";
   lit "}";
   [];
   lit ".mlabbr-tooltip {";
   lit "  display: none;";
   lit "  position: fixed;";
   lit "  z-index: 999;";
   lit "  background: var(--md-default-bg-color, #fff);";
   lit "  color: var(--md-typeset-color, #222);";
   lit "  border: 1px solid var(--md-default-fg-color--lighter, #ddd);";
   lit "  box-shadow: 0 4px 12px rgba(0, 0, 0, .15);";
   lit "  padding: 0.75rem 1rem;";
   lit "  border-radius: 6px;";
   lit "  font-size: 1.3em;";
   lit "  line-height: 1.65;";
   lit "  pointer-events: auto;";
   lit "  width: max-content;       /* " ++ [26681; 25818; 20839; 23481; 33258; 21205; 23532; 24230]%N ++ lit " */";
   lit "  max-width: 70ch;          /* " ++ [26368; 38263; 19981; 36229; 36942; 32004]%N ++ lit "70" ++ [20491; 23383]%N ++ lit " */";
   lit "  max-height: 70vh;";
   lit "  overflow: auto;";
   lit "  white-space: normal;";
   lit "  overflow-wrap: break-word;";
   lit "}";
   [];
   lit "/* " ++ [26781; 38917; 27454; 30446; 32302; 36914]%N ++ lit " */";
   lit ".mlabbr-line { display: block; }";
   lit "/* " ++ [35731; 27599; 26781; 20043; 38291; 22810; 19968; 40670; 38291; 36317; 65292; 20294; 31532; 19968; 26781; 19981; 21152]%N ++ lit " */";
   lit ".mlabbr-line + .mlabbr-line {";
   lit "  margin-top: 0.5em;   /* " ++ [21487; 33258; 34892; 35519; 25972; 65292; 20363; 22914]%N ++ lit " 0.4em" ++ [12289]%N ++ lit "0.6em */";
   lit "}";
   lit ".mlabbr-l0 { margin-left: 0; }";
   lit ".mlabbr-l1 { margin-left: 1.2em; }";
   lit ".mlabbr-l2 { margin-left: 2.4em; }";
   lit ".mlabbr-l3 { margin-left: 3.6em; }";
   lit ".mlabbr-l4 { margin-left: 4.8em; }";
   lit "</style>";
   [];
   lit "<script id=" ++ dq ++ lit "mlabbr-script" ++ dq ++ lit ">";
   lit "document.addEventListener(" ++ dq ++ lit "DOMContentLoaded" ++ dq ++ lit ", () => {";
   lit "  const tip = document.createElement(" ++ dq ++ lit "div" ++ dq ++ lit ");";
   lit "  tip.className = " ++ dq ++ lit "mlabbr-tooltip" ++ dq ++ lit ";";
   lit "  document.body.appendChild(tip);";
   [];
   lit "  let pinned = false;";
   lit "  let owner = null;";
   lit "  let hideTimer = null;";
   [];
   lit "  const place = (anchor) => {";
   lit "    tip.style.width = " ++ dq ++ lit "max-content" ++ dq ++ lit ";";
   lit "    tip.style.height = " ++ dq ++ lit "auto" ++ dq ++ lit ";";
   lit "    tip.style.display = " ++ dq ++ lit "block" ++ dq ++ lit ";";
   [];
   lit "    const rect = anchor.getBoundingClientRect();";
   lit "    const vw = window.innerWidth;";
   lit "    const vh = window.innerHeight;";
   lit "    const m = 10;";
   [];
   lit "    const naturalW = tip.offsetWidth;";
   lit "    const naturalH = tip.offsetHeight;";
   [];
   lit "    let left = rect.left + rect.width / 2 - naturalW / 2; // " ++ [20760; 37327; 23621; 20013]%N;
   lit "    if (left + naturalW + m > vw) left = vw - naturalW - m;";
   lit "    if (left < m) left = m;";
   [];
   lit "    let top = rect.bottom + m;";
   lit "    if (top + naturalH + m > vh) top = rect.top - naturalH - m;";
   lit "    if (top < m) top = m;";
   [];
   lit "    tip.style.left = `${left}px`;";
   lit "    tip.style.top = `${top}px`;";
   lit "  };";
   [];
   lit "  const showFor = (span) => {";
   lit "    owner = span;";
   lit "    tip.innerHTML = span.getAttribute(" ++ dq ++ lit "data-mlabbr" ++ dq ++ lit ") || " ++ dq ++ dq ++ lit ";";
   lit "    tip.style.display = " ++ dq ++ lit "block" ++ dq ++ lit ";";
   lit "    place(span);";
   lit "  };";
   [];
   lit "  const requestHide = () => {";
   lit "    if (pinned) return;";
   lit "    clearTimeout(hideTimer);";
   lit "    hideTimer = setTimeout(() => {";
   lit "      if (!pinned) {";
   lit "        tip.style.display = " ++ dq ++ lit "none" ++ dq ++ lit ";";
   lit "        owner = null;";
   lit "      }";
   lit "    }, 120);";
   lit "  };";
   [];
   lit "  document.querySelectorAll(" ++ dq ++ lit ".mlabbr" ++ dq ++ lit ").forEach(span => {";
   lit "    const html = span.getAttribute(" ++ dq ++ lit "data-mlabbr" ++ dq ++ lit ");";
   lit "    if (!html) return;";
   [];
   lit "    span.addEventListener(" ++ dq ++ lit "mouseenter" ++ dq ++ lit ", () => { if (!pinned) showFor(span); });";
   lit "    span.addEventListener(" ++ dq ++ lit "mousemove" ++ dq ++ lit ", () => { if (!pinned && owner === span) place(span); });";
   lit "    span.addEventListener(" ++ dq ++ lit "mouseleave" ++ dq ++ lit ", requestHide);";
   lit "    span.addEventListener(" ++ dq ++ lit "click" ++ dq ++ lit ", e => {";
   lit "      e.preventDefault();";
   lit "      if (pinned && owner === span) { pinned = false; requestHide(); }";
   lit "      else { pinned = true; showFor(span); }";
   lit "    });";
   lit "  });";
   [];
   lit "  tip.addEventListener(" ++ dq ++ lit "mouseenter" ++ dq ++ lit ", () => clearTimeout(hideTimer));";
   lit "  tip.addEventListener(" ++ dq ++ lit "mouseleave" ++ dq ++ lit ", requestHide);";
   [];
   lit "  document.addEventListener(" ++ dq ++ lit "click" ++ dq ++ lit ", e => {";
   lit "    if (!pinned) return;";
   lit "    if (e.target === tip || (owner && owner.contains(e.target))) return;";
   lit "    pinned = false;";
   lit "    requestHide();";
   lit "  });";
   [];
   lit "  document.addEventListener(" ++ dq ++ lit "keydown" ++ dq ++ lit ", e => {";
   lit "    if (e.key === " ++ dq ++ lit "Escape" ++ dq ++ lit ") {";
   lit "      pinned = false;";
   lit "      requestHide();";
   lit "    }";
   lit "  });";
   lit "});";
   lit "</script>"].

Definition style : str := Py.join [10%N] style_lines.

Definition body_close : str := lit "</body>".

Definition on_post_page (output_content : str) : str :=
  Py.replace output_content body_close (style ++ body_close).

(** ** The tooltip controller

    The script that [on_post_page] injects (the lines of [style_lines] from
    the opening script tag on) keeps three variables, [pinned], [owner] and
    [hideTimer], and one element, the tooltip [tip]; it registers listeners
    on the markers of the page, on the tooltip and on the document.  Its
    functions and listeners are embedded here as functions of the state of
    the script.  The page and the browser are parameters: the attribute of
    every marker, and the numbers of JavaScript with the operations [place]
    uses (they are floating-point numbers, of which nothing is assumed). *)
Module Tooltip.

(** The markers are the elements of [document.querySelectorAll(".mlabbr")],
    named by their index in that list. *)
Definition span := nat.

Class Page : Type := {
  num : Type;                              (* the numbers of JavaScript *)
  num_add : num -> num -> num;             (* + *)
  num_sub : num -> num -> num;             (* - *)
  num_div : num -> num -> num;             (* / *)
  num_lt : num -> num -> bool;             (* < *)
  num_gt : num -> num -> bool;             (* > *)
  num_lit : nat -> num;                    (* the literals 2 and 10 *)
  data_mlabbr : span -> option str         (* span.getAttribute("data-mlabbr") *)
}.

Section Controller.
Context {P : Page}.

(** What [place] reads from the layout when it runs. *)
Record layout : Type := Layout {
  rect_left : num;                         (* anchor.getBoundingClientRect() *)
  rect_top : num;
  rect_bottom : num;
  rect_width : num;
  innerWidth : num;                        (* window.innerWidth *)
  innerHeight : num;                       (* window.innerHeight *)
  offsetWidth : num;                       (* tip.offsetWidth *)
  offsetHeight : num                       (* tip.offsetHeight *)
}.

(** The variables of the script, the tooltip, and the timers of the
    browser.  The tooltip is hidden by the rule of its class until
    [tip.style.display] is set. *)
Record state : Type := State {
  pinned : bool;
  owner : option span;                     (* null or a marker *)
  hideTimer : option nat;                  (* null or the id of a timeout *)
  timers : list nat;                       (* the timeouts set and not yet run or cleared *)
  next_timer : nat;                        (* the id the next setTimeout returns *)
  innerHTML : str;                         (* tip.innerHTML *)
  displayed : bool;                        (* tip.style.display is "block" *)
  sized : bool;                            (* tip.style.width and height are set *)
  style_left : option num;                 (* the number of tip.style.left *)
  style_top : option num                   (* the number of tip.style.top *)
}.

(** The state when the script has run: no listener has been called yet. *)
Definition init : state := State false None None [] 1 [] false false None None.

Definition place (lay : layout) (st : state) : state :=
  let m := num_lit 10 in
  let naturalW := offsetWidth lay in
  let naturalH := offsetHeight lay in
  let left :=
    num_sub (num_add (rect_left lay) (num_div (rect_width lay) (num_lit 2)))
            (num_div naturalW (num_lit 2)) in
  let left :=
    if num_gt (num_add (num_add left naturalW) m) (innerWidth lay)
    then num_sub (num_sub (innerWidth lay) naturalW) m else left in
  let left := if num_lt left m then m else left in
  let top := num_add (rect_bottom lay) m in
  let top :=
    if num_gt (num_add (num_add top naturalH) m) (innerHeight lay)
    then num_sub (num_sub (rect_top lay) naturalH) m else top in
  let top := if num_lt top m then m else top in
  State (pinned st) (owner st) (hideTimer st) (timers st) (next_timer st)
        (innerHTML st) true true (Some left) (Some top).

(** [span.getAttribute("data-mlabbr") || ""]. *)
Definition attribute_or_empty (s : span) : str :=
  match data_mlabbr s with Some html => html | None => [] end.

Definition showFor (s : span) (lay : layout) (st : state) : state :=
  place lay
    (State (pinned st) (Some s) (hideTimer st) (timers st) (next_timer st)
           (attribute_or_empty s) true (sized st) (style_left st) (style_top st)).

(** [clearTimeout(t)]: nothing for [null] or for a timeout that has run. *)
Definition clearTimeout (t : option nat) (pending : list nat) : list nat :=
  match t with
  | Some id => filter (fun x => negb (Nat.eqb x id)) pending
  | None => pending
  end.

Definition requestHide (st : state) : state :=
  if pinned st then st
  else
    let id := next_timer st in
    State (pinned st) (owner st) (Some id)
          (id :: clearTimeout (hideTimer st) (timers st)) (S id)
          (innerHTML st) (displayed st) (sized st) (style_left st) (style_top st).

(** The function that [requestHide] gives to [setTimeout]. *)
Definition hide_callback (st : state) : state :=
  if pinned st then st
  else State (pinned st) None (hideTimer st) (timers st) (next_timer st)
             (innerHTML st) false (sized st) (style_left st) (style_top st).

Definition set_pinned (b : bool) (st : state) : state :=
  State b (owner st) (hideTimer st) (timers st) (next_timer st)
        (innerHTML st) (displayed st) (sized st) (style_left st) (style_top st).

(** [owner === span]. *)
Definition owner_is (st : state) (s : span) : bool :=
  match owner st with Some o => Nat.eqb o s | None => false end.

(** The listeners of a marker. *)
Definition span_mouseenter (s : span) (lay : layout) (st : state) : state :=
  if pinned st then st else showFor s lay st.

Definition span_mousemove (s : span) (lay : layout) (st : state) : state :=
  if negb (pinned st) && owner_is st s then place lay st else st.

Definition span_click (s : span) (lay : layout) (st : state) : state :=
  if pinned st && owner_is st s then requestHide (set_pinned false st)
  else showFor s lay (set_pinned true st).

(** The listener of the tooltip for [mouseenter]. *)
Definition tip_mouseenter (st : state) : state :=
  State (pinned st) (owner st) (hideTimer st)
        (clearTimeout (hideTimer st) (timers st)) (next_timer st)
        (innerHTML st) (displayed st) (sized st) (style_left st) (style_top st).

(** The target of a click: the tooltip element itself, or another node,
    with the markers that contain it. *)
Inductive target : Type :=
| TheTip
| Node (inside : span -> bool).

(** [e.target === tip || (owner && owner.contains(e.target))]. *)
Definition on_tip_or_owner (st : state) (t : target) : bool :=
  match t with
  | TheTip => true
  | Node inside => match owner st with Some o => inside o | None => false end
  end.

(** The listeners of the document. *)
Definition document_click (t : target) (st : state) : state :=
  if negb (pinned st) then st
  else if on_tip_or_owner st t then st
  else requestHide (set_pinned false st).

Definition document_keydown (key : str) (st : state) : state :=
  if str_eqb key (lit "Escape") then requestHide (set_pinned false st) else st.

(** A marker has listeners when its attribute is there and not empty
    ([if (!html) return;]). *)
Definition has_listeners (s : span) : bool :=
  match data_mlabbr s with Some (_ :: _) => true | _ => false end.

(** A call of a listener, or of the function of a timeout, by the
    browser. *)
Inductive event : Type :=
| MouseEnter (s : span) (lay : layout)
| MouseMove (s : span) (lay : layout)
| MouseLeave (s : span)
| Click (s : span) (lay : layout)          (* the listener of the marker *)
| TipEnter
| TipLeave
| DocumentClick (t : target)               (* the listener of the document *)
| KeyDown (key : str)
| TimerFires (id : nat).

(** The browser calls the listeners of the markers that have some, and the
    function of a timeout that is pending, which it then forgets. *)
Definition handle (st : state) (e : event) : state :=
  match e with
  | MouseEnter s lay => if has_listeners s then span_mouseenter s lay st else st
  | MouseMove s lay => if has_listeners s then span_mousemove s lay st else st
  | MouseLeave s => if has_listeners s then requestHide st else st
  | Click s lay => if has_listeners s then span_click s lay st else st
  | TipEnter => tip_mouseenter st
  | TipLeave => requestHide st
  | DocumentClick t => document_click t st
  | KeyDown key => document_keydown key st
  | TimerFires id =>
      if existsb (Nat.eqb id) (timers st)
      then hide_callback
             (State (pinned st) (owner st) (hideTimer st)
                    (clearTimeout (Some id) (timers st)) (next_timer st)
                    (innerHTML st) (displayed st) (sized st)
                    (style_left st) (style_top st))
      else st
  end.

(** The state after the calls [events], in this order. *)
Definition run (events : list event) : state := fold_left handle events init.

End Controller.

End Tooltip.

(** ** Vocabulary of the properties *)

(** The first character of [s] is in the class [q]. *)
Definition hd_in (q : char -> bool) (s : str) : bool :=
  match s with c :: _ => q c | [] => false end.

(** [w in s]. *)
Fixpoint contains (s w : str) : bool :=
  Py.startswith s w || match s with [] => false | _ :: s' => contains s' w end.

(** [s.count(w)] for a non-empty [w]: the occurrences from left to right
    that do not overlap. *)
Fixpoint count_go (w : str) (skip : nat) (s : str) : nat :=
  match s with
  | [] => 0
  | _ :: s' =>
      match skip with
      | S n => count_go w n s'
      | O => if Py.startswith s w then S (count_go w (length w - 1) s')
             else count_go w 0 s'
      end
  end.

Definition count (s w : str) : nat := count_go w 0 s.

(** The text of the input a piece of a scan stands for. *)
Definition piece_text (x : Re.piece) : str :=
  match x with Re.Plain c => [c] | Re.Hit whole _ => whole end.

(** [r] matches nothing at a position whose next character is not in [q]. *)
Definition starts_in {A : Type} (q : char -> bool) (r : Re.regex) : Prop :=
  forall pv s g (k : option char -> str -> option str -> option A),
    hd_in q s = false -> Re.run r pv s g k = None.

(** Group 1 of a match is the match. *)
Definition hit_ok (x : Re.piece) : Prop :=
  match x with Re.Plain _ => True | Re.Hit w g => g = Some w end.

(** The escaping of one character by [html.escape]. *)
Definition esc_char (c : char) : str :=
  if N.eqb c 38 then lit "&amp;"
  else if N.eqb c 60 then lit "&lt;"
  else if N.eqb c 62 then lit "&gt;"
  else if N.eqb c 34 then lit "&quot;"
  else if N.eqb c 39 then lit "&#x27;"
  else [c].

(** One pass of decoding of the five entities. *)
Fixpoint unescape_go (skip : nat) (s : str) : str :=
  match s with
  | [] => []
  | c :: s' =>
      match skip with
      | S n => unescape_go n s'
      | O =>
          if Py.startswith s (lit "&amp;") then 38%N :: unescape_go 4 s'
          else if Py.startswith s (lit "&lt;") then 60%N :: unescape_go 3 s'
          else if Py.startswith s (lit "&gt;") then 62%N :: unescape_go 3 s'
          else if Py.startswith s (lit "&quot;") then 34%N :: unescape_go 5 s'
          else if Py.startswith s (lit "&#x27;") then 39%N :: unescape_go 5 s'
          else c :: unescape_go 0 s'
      end
  end.

Definition unescape (s : str) : str := unescape_go 0 s.

(** The opening tag of the container of a line at level [lvl]. *)
Definition div_open (lvl : nat) : str :=
  lit "<div class=" ++ dq ++ lit "mlabbr-line mlabbr-l" ++ Py.str_of_nat lvl
    ++ dq ++ lit ">".

(** The parts of a split at the even indices (the text between the
    matches) and at the odd ones (the matches). *)
Fixpoint evens {X : Type} (l : list X) : list X :=
  match l with
  | [] => []
  | x :: l' => x :: match l' with [] => [] | _ :: l'' => evens l'' end
  end.

Fixpoint odds {X : Type} (l : list X) : list X :=
  match l with
  | [] => []
  | _ :: l' => match l' with [] => [] | y :: l'' => y :: odds l'' end
  end.

(** The two delimiters of a fenced block, and a span from a delimiter to
    the same delimiter. *)
Definition backticks : str := lit "```".
Definition tildes : str := lit "~~~".

Definition is_fence (part : str) : Prop :=
  exists d body, (d = backticks \/ d = tildes) /\ part = d ++ body ++ d.

(** Neither a backtick nor a tilde. *)
Definition no_fence_char (c : char) : bool :=
  negb (N.eqb c 96) && negb (N.eqb c 126).

(** An index with the one key AB, as the parser builds it. *)
Definition index_AB : dict :=
  _load_abbrs (lit "*[AB]:" ++ [10%N] ++ lit "a b").

(** What the loop of [_load_abbrs] tests on a line: the line opens a
    comment; the line is a header, with its key. *)
Definition is_comment_open (line : str) : bool :=
  is_some (Re.match_ COMMENT_OPEN_RE line).

Definition header_key (line : str) : option str :=
  if is_comment_open line then None
  else
    match Re.match_ ABBR_DEF_RE line with
    | Some (_, g) => Some (Py.strip match g with Some t => t | None => [] end)
    | None => None
    end.

(** What the loop does to [buf] on a line inside a block, and the buffer of
    a block with the body lines [body]. *)
Definition buffer_step (buf : list str) (line : str) : list str :=
  if is_comment_open line then buf
  else if is_blank line
          && match buf with [] => true | _ => is_blank (last buf []) end
  then buf
  else buf ++ [line].

Definition block_buffer (body : list str) : list str :=
  fold_left buffer_step body [].

(** The value of [k] in [top] and, when [top] has none, in [base]. *)
Definition overlay (top base : dict) (k : str) : option str :=
  match dict_get top k with Some v => Some v | None => dict_get base k end.

(** Every item has a key and a document that are not empty. *)
Definition dict_ok (m : dict) : Prop :=
  Forall (fun kv : str * str => fst kv <> [] /\ snd kv <> []) m.

(** What follows a block in the file: nothing, or the header of the next
    block. *)
Definition block_end (post : list str) : Prop :=
  post = [] \/ exists h post', post = h :: post' /\ header_key h <> None.

(** The character before a position is not an ASCII letter or digit. *)
Definition behind_ok (pv : option char) : bool :=
  match pv with Some c => negb (Py.ascii_alnum c) | None => true end.

(** The key [k] is at the start of [s] and the character after it is not an
    ASCII letter or digit ([adv]: and [k] is not empty). *)
Definition key_fits (adv : bool) (s : str) (k : str) : bool :=
  Py.startswith s k
  && negb (hd_in Py.ascii_alnum (skipn (length k) s))
  && negb (adv && Nat.eqb (length k) 0).

(** The key that the pattern of the keys [keys], in this order, matches at a
    position. *)
Definition accept (adv : bool) (keys : list str) (pv : option char) (s : str)
    : option str :=
  if behind_ok pv then find (key_fits adv s) keys else None.

(** [pattern.sub(repl, s)] from a position on. *)
Definition sub_from (r : Re.regex) (repl : str -> option str -> str)
    (pv : option char) (s : str) : str :=
  concat (List.map (Re.sub_piece repl) (Re.scan r 0 pv s)).

(** No span from a delimiter to the same delimiter lies in [e]. *)
Definition fence_free (e : str) : Prop :=
  forall a d body b, (d = backticks \/ d = tildes) -> e <> a ++ d ++ body ++ d ++ b.

(** No match starts in [cur] when [s] follows it. *)
Definition no_match_in (cur s : str) : Prop :=
  forall a t pv, cur = a ++ t -> t <> [] ->
    Re.attempt FENCE_RE false pv (t ++ s) = None.

(** The pattern has neither [^] nor a look-behind: its matches do not depend
    on the character before the position. *)
Fixpoint no_lookbehind (r : Re.regex) : bool :=
  match r with
  | Re.Bol | Re.NotBehind _ => false
  | Re.Seq r1 r2 | Re.Alt r1 r2 => no_lookbehind r1 && no_lookbehind r2
  | Re.Opt r1 | Re.Group r1 => no_lookbehind r1
  | _ => true
  end.

(** A reader of the markup of [lines_to_html]: the level and the decoded
    text of every container, in the order of the markup. *)
Inductive phase : Type :=
| Between                               (* before an opening tag *)
| InOpen (lvl : nat)                    (* in an opening tag *)
| InText (lvl : nat) (cur : str)        (* in the text of a container *)
| InClose.                              (* in a closing tag *)

Fixpoint containers (ph : phase) (s : str) : list (nat * str) :=
  match s with
  | [] => []
  | c :: s' =>
      match ph with
      | Between => containers (InOpen 0) s'
      | InOpen lvl =>
          if N.eqb c 62 then containers (InText lvl []) s'
          else if in_range 48 57 c then containers (InOpen (N.to_nat (c - 48))) s'
          else containers (InOpen lvl) s'
      | InText lvl cur =>
          if N.eqb c 60 then (lvl, unescape cur) :: containers InClose s'
          else containers (InText lvl (cur ++ [c])) s'
      | InClose =>
          if N.eqb c 62 then containers Between s' else containers InClose s'
      end
  end.

Definition read_markup (html : str) : list (nat * str) := containers Between html.

(** The split of [a ++ t] looks for a span at the end of [a]: every fenced
    span it finds in [a] ends in [a].  The function follows the scan of
    [re.split] through [a]: a match is attempted where the scan attempts
    one, after the end of the span before, and [skip] counts the characters
    of the span the scan is passing. *)
Fixpoint closed_within (skip : nat) (a t : str) : bool :=
  match a with
  | [] => Nat.eqb skip 0
  | _ :: a' =>
      match skip with
      | S n => closed_within n a' t
      | O =>
          match Re.attempt FENCE_RE false None (a ++ t) with
          | Some (S n, _) => closed_within n a' t
          | _ => closed_within 0 a' t
          end
      end
  end.

(** The parts after a part at an even index: [f] at every second one. *)
Definition map_odd (f : str -> str) (parts : list str) : list str :=
  match parts with
  | [] => []
  | q :: parts' => q :: map_even f parts'
  end.

(** What the loop of [_load_abbrs] keeps of a buffer: the buffer does not
    start with a blank line and has no two blank lines in a row.  [prev]
    tells that the line before is blank, or that there is none. *)
Fixpoint collapsed (prev : bool) (buf : list str) : bool :=
  match buf with
  | [] => true
  | l :: buf' => negb (prev && is_blank l) && collapsed (is_blank l) buf'
  end.

(** The last line of [buf] is blank, or [buf] is empty:
    [not buf or buf[-1].strip() == ""]. *)
Definition ends_blank (buf : list str) : bool :=
  match buf with [] => true | _ => is_blank (last buf []) end.

(** A key as the parser stores it: not empty, without white space around
    it and without a closing bracket. *)
Definition key_ok (k : str) : Prop :=
  k <> [] /\ Py.strip k = k /\ forallb (fun c => negb (N.eqb c 93)) k = true.

(** The lines of a buffer are neither headers nor openers of comments. *)
Definition buffer_ok (buf : list str) : Prop :=
  collapsed true buf = true
  /\ Forall (fun l => header_key l = None /\ is_comment_open l = false) buf.

(** What the loop of [_load_abbrs] keeps true of its locals: of the keys,
    and of the documents and the buffer. *)
Definition keys_inv (st : loader) : Prop :=
  NoDup (dict_keys (l_map st))
  /\ (forall k, In k (dict_keys (l_map st)) -> key_ok k)
  /\ (forall k, l_key st = Some k ->
        Py.strip k = k /\ forallb (fun c => negb (N.eqb c 93)) k = true).

Definition docs_inv (st : loader) : Prop :=
  (forall k v, In (k, v) (l_map st) ->
     exists buf, v = lines_to_html buf /\ buf <> [] /\ buffer_ok buf)
  /\ buffer_ok (l_buf st).

(** *** Vocabulary of the properties of the tooltip controller *)

(** What every call keeps true of the state of the script. *)
Definition controller_inv {P : Tooltip.Page} (st : Tooltip.state) : Prop :=
  Tooltip.displayed st = is_some (Tooltip.owner st)
  /\ (Tooltip.pinned st = true -> Tooltip.displayed st = true)
  /\ (forall s, Tooltip.owner st = Some s ->
        Tooltip.has_listeners s = true
        /\ Tooltip.data_mlabbr s = Some (Tooltip.innerHTML st))
  /\ (Tooltip.timers st = []
      \/ exists id, Tooltip.timers st = [id] /\ Tooltip.hideTimer st = Some id).

(** The calls that come from the pointer moving and from the timeouts: not
    from a click or a key. *)
Definition passive {P : Tooltip.Page} (e : Tooltip.event) : bool :=
  match e with
  | Tooltip.Click _ _ | Tooltip.DocumentClick _ | Tooltip.KeyDown _ => false
  | _ => true
  end.

(** The calls that unpin a pinned tooltip: a click on its owner, a click
    that is neither on the tooltip element nor in the owner, and the
    Escape key. *)
Definition dismissing {P : Tooltip.Page} (st : Tooltip.state) (e : Tooltip.event)
    : bool :=
  match e with
  | Tooltip.Click s _ => Tooltip.has_listeners s && Tooltip.owner_is st s
  | Tooltip.DocumentClick t => negb (Tooltip.on_tip_or_owner st t)
  | Tooltip.KeyDown key => str_eqb key (lit "Escape")
  | _ => false
  end.

(** The click of the user on the marker [s]: the listener of the marker
    runs, then the one of the document, to which the event bubbles; the
    target is in the marker [s] and in no other. *)
Definition user_click {P : Tooltip.Page} (s : Tooltip.span) (lay : Tooltip.layout)
    : list Tooltip.event :=
  [Tooltip.Click s lay; Tooltip.DocumentClick (Tooltip.Node (Nat.eqb s))].

(** A page with two markers, the second without the attribute, and whole
    numbers for the layout. *)
Definition two_markers : Tooltip.Page :=
  Tooltip.Build_Page nat Nat.add Nat.sub Nat.div Nat.ltb (fun a b => Nat.ltb b a)
    (fun n => n)
    (fun s => match s with 0 => Some (lines_to_html [lit "a b"]) | _ => None end).

Definition layout0 : @Tooltip.layout two_markers :=
  @Tooltip.Layout two_markers 100 20 40 30 800 600 200 50.

(** The two states show the same tooltip in the same way: they differ at
    most in the timeouts. *)
Definition same_view {P : Tooltip.Page} (st st' : Tooltip.state) : Prop :=
  Tooltip.pinned st' = Tooltip.pinned st
  /\ Tooltip.owner st' = Tooltip.owner st
  /\ Tooltip.innerHTML st' = Tooltip.innerHTML st
  /\ Tooltip.displayed st' = Tooltip.displayed st
  /\ Tooltip.style_left st' = Tooltip.style_left st
  /\ Tooltip.style_top st' = Tooltip.style_top st.

(** The characters a rule of [LEVEL_RULES] can start with, after the white
    space: 第, a CJK numeral, a parenthesis of either width, a decimal
    digit. *)
Definition level_starter (c : char) : bool :=
  N.eqb c_di c || cjk_numeral c || N.eqb c_lparen c || N.eqb 40 c
  || Py.isdecimal c.

(** * Properties *)

(** ** The matcher *)

Section MatcherFacts.
Context {A : Type}.

Lemma starts_in_lit x w : @starts_in A (N.eqb x) (Re.Lit (x :: w)).
Proof.
  intros pv s g k H. destruct s as [|c s]; simpl in *; [reflexivity|].
  now rewrite H.
Qed.

Lemma starts_in_plus p : @starts_in A p (Re.Plus p).
Proof.
  intros pv s g k H. destruct s as [|c s]; simpl in *; [reflexivity|].
  now rewrite H.
Qed.

(** A greedy repetition fails when what follows fails at every position it
    can stop at: inside the run of [p], where the next character is in [p],
    and at its end. *)
Lemma star_fail p q (k : option char -> str -> option A) :
  (forall c, p c = true -> q c = false) ->
  (forall pv s, hd_in q s = false -> k pv s = None) ->
  forall s pv,
    (forall pv', k pv' (Py.lstrip_by p s) = None) -> Re.star p pv s k = None.
Proof.
  intros Hpq Hk. induction s as [|c s IH]; intros pv H; simpl in *.
  - apply H.
  - destruct (p c) eqn:Hc.
    + rewrite (IH _ H). apply Hk. simpl. now apply Hpq.
    + apply H.
Qed.

(** A greedy repetition takes the whole run of [p] when what follows
    succeeds there. *)
Lemma star_greedy p (k : option char -> str -> option A) :
  forall s pv,
    (forall pv', k pv' (Py.lstrip_by p s) <> None) ->
    Re.star p pv s k <> None.
Proof.
  induction s as [|c s IH]; intros pv H; simpl in *.
  - apply H.
  - destruct (p c) eqn:Hc.
    + specialize (IH (Some c) H). destruct (Re.star p (Some c) s k); congruence.
    + apply H.
Qed.

End MatcherFacts.

(** A greedy repetition over a run of [p] followed by a character outside
    [p] stops at the end of the run when what follows succeeds there. *)
Lemma star_exact {A : Type} p (k : option char -> str -> option A) u rest a :
  forallb p u = true -> hd_in p rest = false ->
  forall pv, k (Re.last_char pv u) rest = Some a ->
             Re.star p pv (u ++ rest) k = Some a.
Proof.
  intros Hu Hrest. induction u as [|c u IH]; intros pv H.
  - simpl in *. destruct rest as [|d rest]; [exact H|].
    simpl in Hrest. simpl. now rewrite Hrest.
  - simpl in Hu. apply andb_prop in Hu. destruct Hu as [Hc Hu].
    simpl. rewrite Hc. rewrite (IH Hu (Some c) H). reflexivity.
Qed.
(** ** The line classifier *)

(** A pattern that starts with [^] matches at the start of the line only. *)
Lemma search_go_bol r c s : Re.search_go (Re.Seq Re.Bol r) (Some c) s = None.
Proof.
  revert c. induction s as [|d s IH]; intros c; simpl; [reflexivity|].
  unfold Re.attempt. simpl. apply IH.
Qed.

Lemma search_bol r s :
  Re.search (Re.Seq Re.Bol r) s = Re.match_ (Re.Seq Re.Bol r) s.
Proof.
  unfold Re.search, Re.match_. destruct s as [|c s]; simpl.
  - now destruct (Re.attempt _ _ _ _).
  - destruct (Re.attempt _ _ _ _); [reflexivity|]. apply search_go_bol.
Qed.

(** A rule [^\s*r...] does not match a line whose first character after the
    leading white space cannot start [r]. *)
Lemma rule_fail_at q r rs line :
  @starts_in (nat * option str) q r ->
  (forall c, Py.isspace c = true -> q c = false) ->
  (forall pv k, Re.run (Re.seq (r :: rs)) pv (Py.lstrip line) None k
                = @None (nat * option str)) ->
  Re.search (Re.seq (Re.Bol :: ws :: r :: rs)) line = None.
Proof.
  intros Hr Hq Hline. unfold Re.seq in *. simpl fold_right in *.
  rewrite search_bol. unfold Re.match_, Re.attempt. simpl.
  apply (star_fail Py.isspace q); auto.
  intros pv' . apply Hline.
Qed.

Lemma rule_fail q r rs line :
  @starts_in (nat * option str) q r ->
  (forall c, Py.isspace c = true -> q c = false) ->
  hd_in q (Py.lstrip line) = false ->
  Re.search (Re.seq (Re.Bol :: ws :: r :: rs)) line = None.
Proof.
  intros Hr Hq Hline. apply (rule_fail_at q); auto.
  intros pv k. unfold Re.seq. simpl. now apply Hr.
Qed.

(** A rule [^\s*r] matches a line when [r] matches what follows the leading
    white space. *)
Lemma rule_match rs line :
  (forall pv k, (forall pv' s' g', k pv' s' g' <> @None (nat * option str)) ->
     Re.run (Re.seq rs) pv (Py.lstrip line) None k <> None) ->
  is_some (Re.search (Re.seq (Re.Bol :: ws :: rs)) line) = true.
Proof.
  intros H. unfold Re.seq in *. simpl fold_right. rewrite search_bol. unfold Re.match_, Re.attempt. simpl.
  match goal with |- is_some ?x = true => assert (x <> None) as Hx end.
  { apply star_greedy. intros pv'. apply H. intros; discriminate. }
  destruct (Re.star _ _ _ _); [reflexivity|congruence].
Qed.

Lemma detect_level_in_le rules line :
  Forall (fun r => snd r <= 4) rules -> detect_level_in rules line <= 4.
Proof.
  induction 1 as [|[pat lvl] rules H _ IH]; simpl; [lia|].
  destruct (is_some _); [exact H|exact IH].
Qed.

Lemma detect_level_in_first pre pat lvl post line :
  (forall q, In q pre -> Re.search (fst q) line = None) ->
  Re.search pat line <> None ->
  detect_level_in (pre ++ (pat, lvl) :: post) line = lvl.
Proof.
  induction pre as [|[p l] pre IH]; intros Hpre Hpat; simpl.
  - destruct (Re.search pat line); [reflexivity|congruence].
  - pose proof (Hpre (p, l) (or_introl eq_refl)) as E. simpl in E. rewrite E.
    simpl. apply IH; auto.
    intros q Hq. apply Hpre. now right.
Qed.

Lemma detect_level_in_none rules line :
  (forall q, In q rules -> Re.search (fst q) line = None) ->
  detect_level_in rules line = 0.
Proof.
  induction rules as [|[p l] rules IH]; intros H; simpl; [reflexivity|].
  pose proof (H (p, l) (or_introl eq_refl)) as E. simpl in E. rewrite E.
  simpl. apply IH. intros q Hq. apply H. now right.
Qed.

Lemma cjk_numeral_not_space c : Py.isspace c = true -> cjk_numeral c = false.
Proof.
  intros H. destruct (cjk_numeral c) eqn:E; [|reflexivity].
  unfold cjk_numeral, in_chars in E. simpl in E.
  repeat (apply orb_prop in E; destruct E as [E|E];
          [apply N.eqb_eq in E; subst c; discriminate|]).
  discriminate.
Qed.

Lemma cjk_numeral_not_decimal c : cjk_numeral c = true -> Py.isdecimal c = false.
Proof.
  intros E. unfold cjk_numeral, in_chars in E. simpl in E.
  repeat (apply orb_prop in E; destruct E as [E|E];
          [apply N.eqb_eq in E; subst c; vm_compute; reflexivity|]).
  discriminate.
Qed.


Lemma eqb_not_space x c :
  Py.isspace x = false -> Py.isspace c = true -> N.eqb x c = false.
Proof.
  intros Hx Hc. destruct (N.eqb x c) eqn:E; [|reflexivity].
  apply N.eqb_eq in E. congruence.
Qed.

Lemma LEVEL_RULES_le : Forall (fun r : Re.regex * nat => snd r <= 4) LEVEL_RULES.
Proof. unfold LEVEL_RULES. repeat constructor. Qed.

(** A line that starts, after white space, with a full-width parenthesized
    CJK numeral is at level 3: the rule for it is the first that matches. *)
Lemma detect_level_cjk_paren line n nums tail :
  cjk_numeral n = true -> forallb cjk_numeral nums = true ->
  Py.lstrip line = c_lparen :: n :: nums ++ c_rparen :: tail ->
  detect_level line = 3.
Proof.
  intros Hn Hnums Hline.
  unfold detect_level, LEVEL_RULES. cbv [detect_level_in].
  rewrite !(rule_fail (N.eqb c_di) (Re.Lit [c_di]));
    try solve [apply starts_in_lit | intros c; now apply eqb_not_space
              | rewrite Hline; reflexivity].
  rewrite (rule_fail cjk_numeral (Re.Plus cjk_numeral));
    try solve [apply starts_in_plus | apply cjk_numeral_not_space
              | rewrite Hline; reflexivity].
  rewrite (rule_fail_at (N.eqb c_lparen) (Re.Lit [c_lparen]));
    try solve [apply starts_in_lit | intros c; now apply eqb_not_space].
  2:{ intros pv k. rewrite Hline. unfold Re.seq, digits. simpl.
      now rewrite (cjk_numeral_not_decimal n Hn). }
  rewrite (rule_fail (N.eqb 40) (Re.Lit (lit "(")));
    try solve [apply starts_in_lit | intros c; now apply eqb_not_space
              | rewrite Hline; reflexivity].
  change (@is_some (nat * option str) None) with false. cbv iota.
  rewrite rule_match; [reflexivity|].
  intros pv k Hk. rewrite Hline. unfold Re.seq. simpl. rewrite Hn.
  apply star_greedy. intros pv'.
  assert (Py.lstrip_by cjk_numeral (nums ++ c_rparen :: tail) = c_rparen :: tail) as ->.
  { clear - Hnums. induction nums as [|m nums IH]; simpl in *; [reflexivity|].
    apply andb_prop in Hnums. destruct Hnums as [Hm Hnums]. rewrite Hm. auto. }
  simpl. apply Hk.
Qed.

(** C1 (as amended).  [detect_level] returns, for every line, a level in
    [0,4]: the level of the first rule of [LEVEL_RULES] that matches the
    line, and 0 when no rule matches.  A line whose leading content is a
    full-width parenthesized CJK numeral is at level 3.  The last part gives
    one line for every rule, in the order of the rules, and three lines that
    no rule matches. *)
Theorem detect_level_spec :
  (forall line,
     detect_level line <= 4
     /\ (forall pre pat lvl post,
           LEVEL_RULES = pre ++ (pat, lvl) :: post ->
           (forall q, In q pre -> Re.search (fst q) line = None) ->
           Re.search pat line <> None ->
           detect_level line = lvl)
     /\ ((forall q, In q LEVEL_RULES -> Re.search (fst q) line = None) ->
         detect_level line = 0)
     /\ (forall n nums tail,
           cjk_numeral n = true -> forallb cjk_numeral nums = true ->
           Py.lstrip line = c_lparen :: n :: nums ++ c_rparen :: tail ->
           detect_level line = 3))
  /\ List.map detect_level
       [ [c_di] ++ lit " 12-3 " ++ [c_tiao];
         lit "  " ++ [c_di] ++ lit "1" ++ [c_xiang; 65306%N];
         [c_di] ++ lit "1" ++ [c_kuan] ++ lit ":";
         [c_di] ++ lit "1" ++ [c_mu] ++ lit ":";
         [c_di] ++ lit "1" ++ [c_ci] ++ lit ":";
         [19968%N; 21313%N; c_comma] ++ lit "foo";
         [c_lparen] ++ lit "12" ++ [c_rparen];
         lit "(3)";
         [c_lparen; 19977%N; c_rparen];
         lit "(a)";
         lit "12" ++ [c_comma];
         lit "plain text"; []; lit "x (a)" ]
     = [0; 1; 2; 3; 4; 2; 3; 3; 3; 4; 2; 0; 0; 0].
Proof.
  split; [|vm_compute; reflexivity].
  intros line. repeat split.
  - apply detect_level_in_le, LEVEL_RULES_le.
  - intros pre pat lvl post E Hpre Hpat. unfold detect_level. rewrite E.
    now apply detect_level_in_first.
  - apply detect_level_in_none.
  - intros n nums tail. apply detect_level_cjk_paren.
Qed.

Lemma detect_level_spec_witness :
  detect_level [c_lparen; 19968%N; c_rparen] = 3.
Proof.
  apply (proj2 (proj2 (proj2 (proj1 detect_level_spec [c_lparen; 19968%N; c_rparen])))
           19968%N [] []); reflexivity.
Defined.

(** C1 (as stated) fails: the line "（一）" is at level 3, not 4. *)
Lemma detect_level_fullwidth_cjk_not_4 :
  detect_level [c_lparen; 19968%N; c_rparen] = 3
  /\ detect_level [c_lparen; 19968%N; c_rparen] <> 4.
Proof. split; [vm_compute; reflexivity | vm_compute; discriminate]. Qed.

(** ** [str.replace] and the asset injector *)

Lemma strip_prefix_app w s : Py.strip_prefix w (w ++ s) = Some s.
Proof. induction w as [|x w IH]; simpl; [reflexivity|]. now rewrite N.eqb_refl. Qed.

Lemma startswith_app w s : Py.startswith (w ++ s) w = true.
Proof. unfold Py.startswith. now rewrite strip_prefix_app. Qed.

Lemma replace_go_skip old new a s :
  Py.replace_go old new (length a) (a ++ s) = Py.replace_go old new 0 s.
Proof.
  induction a as [|c a IH]; simpl; [|exact IH].
  destruct s; reflexivity.
Qed.

Lemma replace_go_hit x old new s :
  Py.replace_go (x :: old) new 0 ((x :: old) ++ s)
  = new ++ Py.replace_go (x :: old) new 0 s.
Proof.
  change ((x :: old) ++ s) with (x :: (old ++ s)).
  cbn [Py.replace_go].
  change (x :: old ++ s) with ((x :: old) ++ s). rewrite startswith_app.
  f_equal. replace (length (x :: old) - 1) with (length old) by (simpl; lia).
  apply replace_go_skip.
Qed.

(** No occurrence of [old] starts in [pre]: the scan copies [pre]. *)
Lemma replace_go_miss old new pre rest :
  (forall a b, pre = a ++ b -> b <> [] -> Py.startswith (b ++ rest) old = false) ->
  Py.replace_go old new 0 (pre ++ rest) = pre ++ Py.replace_go old new 0 rest.
Proof.
  induction pre as [|c pre IH]; intros H; [reflexivity|].
  change ((c :: pre) ++ rest) with (c :: (pre ++ rest)). cbn [Py.replace_go].
  change (c :: pre ++ rest) with ((c :: pre) ++ rest).
  rewrite (H [] (c :: pre) eq_refl) by discriminate.
  simpl. f_equal. apply IH. intros a b E Hb. apply (H (c :: a) b); [|exact Hb].
  now rewrite E.
Qed.

Lemma body_close_eq : body_close = [60; 47; 98; 111; 100; 121; 62]%N.
Proof. reflexivity. Qed.

Lemma startswith_body_close_inv s :
  Py.startswith s body_close = true -> exists t, s = body_close ++ t.
Proof.
  rewrite body_close_eq. unfold Py.startswith.
  do 7 (destruct s as [|?c s];
        [cbn [Py.strip_prefix];
         repeat match goal with
         | |- context [N.eqb ?a ?b] => destruct (N.eqb a b); cbn [Py.strip_prefix]
         end; intros H; discriminate H|]).
  cbn [Py.strip_prefix].
  repeat match goal with
  | |- context [N.eqb ?a ?b] =>
      destruct (N.eqb_spec a b); cbn [Py.strip_prefix];
      [subst|intros H; discriminate H]
  end.
  intros _. now exists s.
Qed.

(** No occurrence of the marker starts inside a text without the marker,
    whatever follows: the marker does not overlap itself. *)
Lemma body_close_no_straddle pre rest :
  contains pre body_close = false ->
  forall a b, pre = a ++ b -> b <> [] ->
    Py.startswith (b ++ body_close ++ rest) body_close = false.
Proof.
  intros Hpre a b E Hb.
  assert (contains b body_close = false) as Hc.
  { subst pre. clear Hb. induction a as [|c a IH]; [exact Hpre|].
    apply IH. simpl in Hpre. apply orb_false_elim in Hpre. tauto. }
  clear E Hpre. destruct b as [|c b]; [congruence|]. clear Hb.
  simpl contains in Hc. apply orb_false_elim in Hc. destruct Hc as [Hc _].
  destruct (Py.startswith ((c :: b) ++ body_close ++ rest) body_close) eqn:S;
    [|reflexivity].
  exfalso. revert Hc S. rewrite body_close_eq. unfold Py.startswith.
  do 7 (try (destruct b as [|?c b])); cbn [Py.strip_prefix app];
  repeat match goal with
  | |- context [N.eqb ?a ?b] =>
      destruct (N.eqb_spec a b); cbn [Py.strip_prefix app];
      try (intros H1 H2; discriminate); try subst
  end; try (intros H1 H2; discriminate).
Qed.

Lemma replace_go_none x old new s :
  contains s (x :: old) = false -> Py.replace_go (x :: old) new 0 s = s.
Proof.
  induction s as [|c s IH]; intros H; [reflexivity|].
  simpl contains in H. apply orb_false_elim in H. destruct H as [H1 H2].
  cbn [Py.replace_go]. rewrite H1. f_equal. auto.
Qed.

(** C2 (as amended).  [on_post_page] puts the style block and the script
    immediately before every occurrence of the closing body marker: a page
    without the marker is returned as it is, and the first marker of a page
    gets the block in front of it, the rest of the page being treated the
    same way; so a page with exactly one marker gets the block exactly
    once. *)
Theorem on_post_page_spec (page : str) :
  (contains page body_close = false -> on_post_page page = page)
  /\ (forall pre post,
        page = pre ++ body_close ++ post ->
        contains pre body_close = false ->
        on_post_page page = pre ++ style ++ body_close ++ on_post_page post)
  /\ (forall pre post,
        page = pre ++ body_close ++ post ->
        contains pre body_close = false ->
        contains post body_close = false ->
        on_post_page page = pre ++ style ++ body_close ++ post).
Proof.
  assert (forall s, contains s body_close = false -> on_post_page s = s) as Hnone.
  { intros s H. unfold on_post_page. rewrite body_close_eq in *.
    unfold Py.replace. now apply replace_go_none. }
  assert (forall pre post, contains pre body_close = false ->
            on_post_page (pre ++ body_close ++ post)
            = pre ++ style ++ body_close ++ on_post_page post) as Hone.
  { intros pre post H. unfold on_post_page.
    pose proof (body_close_no_straddle pre post H) as Hs.
    rewrite body_close_eq in *. unfold Py.replace.
    rewrite replace_go_miss by exact Hs. apply f_equal.
    rewrite replace_go_hit. now rewrite <- app_assoc. }
  split; [apply Hnone|]. split.
  - intros pre post -> H. now apply Hone.
  - intros pre post -> H1 H2. rewrite Hone by exact H1. now rewrite (Hnone post).
Qed.

Lemma on_post_page_spec_witness :
  on_post_page (lit "<html><body>x</body></html>")
  = lit "<html><body>x" ++ style ++ body_close ++ lit "</html>".
Proof.
  apply (proj2 (proj2 (on_post_page_spec (lit "<html><body>x</body></html>")))
           (lit "<html><body>x") (lit "</html>")); reflexivity.
Defined.

(** C2 (as stated) fails: a page without the closing body marker gets no
    style block, and a page with two markers gets two. *)
Lemma on_post_page_not_exactly_once :
  count (on_post_page (lit "<p>a fragment</p>")) style = 0
  /\ count (on_post_page (lit "<body><pre></body></pre></body>")) style = 2.
Proof. split; vm_compute; reflexivity. Qed.

(** ** What a successful match has read *)

Lemma strip_prefix_inv w s s' : Py.strip_prefix w s = Some s' -> s = w ++ s'.
Proof.
  revert s. induction w as [|x w IH]; intros s H; simpl in H.
  - now inversion H.
  - destruct s as [|y s]; [discriminate|].
    destruct (N.eqb_spec x y) as [->|]; [|discriminate].
    simpl. f_equal. now apply IH.
Qed.

Lemma last_char_app pv u v :
  Re.last_char pv (u ++ v) = Re.last_char (Re.last_char pv u) v.
Proof. unfold Re.last_char. apply fold_left_app. Qed.

Section RunInv.
Context {A : Type}.

Lemma star_inv p (k : option char -> str -> option A) a :
  forall s pv, Re.star p pv s k = Some a ->
    exists u s', s = u ++ s' /\ forallb p u = true
                 /\ k (Re.last_char pv u) s' = Some a.
Proof.
  induction s as [|c s IH]; intros pv H; simpl in H.
  - exists [], []. auto.
  - destruct (p c) eqn:Hc.
    + destruct (Re.star p (Some c) s k) eqn:E.
      * inversion H; subst. destruct (IH _ E) as (u & s' & -> & Hu & Hk).
        exists (c :: u), s'. simpl. rewrite Hc. auto.
      * exists [], (c :: s). auto.
    + exists [], (c :: s). auto.
Qed.

Lemma lazy_star_inv p (k : option char -> str -> option A) a :
  forall s pv, Re.lazy_star p pv s k = Some a ->
    exists u s', s = u ++ s' /\ forallb p u = true
                 /\ k (Re.last_char pv u) s' = Some a.
Proof.
  induction s as [|c s IH]; intros pv H; simpl in H.
  - destruct (k pv []) eqn:E; [|discriminate]. exists [], []. inversion H; subst. auto.
  - destruct (k pv (c :: s)) eqn:E.
    + inversion H; subst. exists [], (c :: s). auto.
    + destruct (p c) eqn:Hc; [|discriminate].
      destruct (IH _ H) as (u & s' & -> & Hu & Hk).
      exists (c :: u), s'. simpl. rewrite Hc. auto.
Qed.

(** A successful run is a success of the continuation at a later position
    of the text. *)
Lemma run_inv r : forall pv s g (k : option char -> str -> option str -> option A) a,
  Re.run r pv s g k = Some a ->
  exists u s' g', s = u ++ s' /\ k (Re.last_char pv u) s' g' = Some a.
Proof.
  induction r; intros pv s g k a H; simpl in H.
  - exists [], s, g. auto.
  - destruct (Py.strip_prefix w s) as [s'|] eqn:E; [|discriminate].
    apply strip_prefix_inv in E. exists w, s', g. auto.
  - destruct s as [|c s]; [discriminate|]. destruct (p c); [|discriminate].
    exists [c], s, g. auto.
  - destruct pv; [discriminate|]. exists [], s, g. auto.
  - exists [], s, g. split; [reflexivity|].
    destruct s as [|c [|d s]]; try discriminate; [exact H|].
    destruct (N.eqb c 10); [exact H|discriminate].
  - exists [], s, g. split; [reflexivity|].
    destruct pv as [c|]; [|exact H]. destruct (p c); [discriminate|exact H].
  - exists [], s, g. split; [reflexivity|].
    destruct s as [|c s]; [exact H|]. destruct (p c); [discriminate|exact H].
  - apply IHr1 in H. destruct H as (u1 & s1 & g1 & -> & H).
    apply IHr2 in H. destruct H as (u2 & s2 & g2 & -> & H).
    exists (u1 ++ u2), s2, g2. rewrite last_char_app, app_assoc. auto.
  - destruct (Re.run r1 pv s g k) eqn:E.
    + inversion H; subst. now apply IHr1 in E.
    + now apply IHr2 in H.
  - destruct (Re.run r pv s g k) eqn:E.
    + inversion H; subst. now apply IHr in E.
    + exists [], s, g. auto.
  - apply star_inv in H. destruct H as (u & s' & -> & _ & H). now exists u, s', g.
  - destruct s as [|c s]; [discriminate|]. destruct (p c); [|discriminate].
    apply star_inv in H. destruct H as (u & s' & -> & _ & H).
    now exists (c :: u), s', g.
  - apply lazy_star_inv in H. destruct H as (u & s' & -> & _ & H). now exists u, s', g.
  - apply IHr in H. destruct H as (u & s' & g' & -> & H). eauto.
Qed.

End RunInv.

Lemma length_app_sub (u s' : str) : length (u ++ s') - length s' = length u.
Proof. rewrite length_app. lia. Qed.

(** A match covers a prefix of the text from its position. *)
Lemma attempt_inv r adv pv s n g :
  Re.attempt r adv pv s = Some (n, g) ->
  exists u s', s = u ++ s' /\ n = length u /\ (adv = true -> n <> 0).
Proof.
  unfold Re.attempt. intros H. apply run_inv in H.
  destruct H as (u & s' & g' & -> & H). rewrite length_app_sub in H.
  exists u, s'. split; [reflexivity|].
  destruct adv; simpl in H.
  - destruct (Nat.eqb_spec (length u) 0); [discriminate|]. inversion H. auto.
  - inversion H. split; [reflexivity|discriminate].
Qed.

(** Group 1 of a pattern [(r)] is the whole match. *)
Lemma attempt_group r adv pv s n g :
  Re.attempt (Re.Group r) adv pv s = Some (n, g) -> g = Some (firstn n s).
Proof.
  unfold Re.attempt. simpl. intros H. apply run_inv in H.
  destruct H as (u & s' & g' & -> & H). rewrite length_app_sub in H.
  destruct (adv && _)%bool; [discriminate|]. now inversion H.
Qed.

(** ** The pieces of a scan *)

(** The pieces are the text, in its order: every character is in one
    piece. *)
Lemma scan_text r : forall s skip pv,
  concat (List.map piece_text (Re.scan r skip pv s)) = skipn skip s.
Proof.
  induction s as [|c s IH]; intros skip pv.
  - simpl. rewrite skipn_nil. destruct (Re.attempt r false pv []) as [[? ?]|]; reflexivity.
  - destruct skip as [|skip]; [|simpl; apply IH].
    cbn [Re.scan skipn].
    destruct (Re.attempt r false pv (c :: s)) as [[[|n] g]|] eqn:E.
    + cbn [List.map concat piece_text app].
      destruct (Re.attempt r true pv (c :: s)) as [[[|n] g']|] eqn:E'.
      * cbn [List.map concat piece_text app]. rewrite IH. reflexivity.
      * cbn [List.map concat piece_text firstn app]. rewrite IH.
        f_equal. apply firstn_skipn.
      * cbn [List.map concat piece_text app]. rewrite IH. reflexivity.
    + cbn [List.map concat piece_text firstn app]. rewrite IH.
      f_equal. apply firstn_skipn.
    + cbn [List.map concat piece_text app]. rewrite IH. reflexivity.
Qed.

(** Group 1 of every match of a scan with a pattern [(r)] is the match. *)
Lemma scan_group r : forall s skip pv,
  Forall hit_ok (Re.scan (Re.Group r) skip pv s).
Proof.
  induction s as [|c s IH]; intros skip pv.
  - simpl. destruct (Re.attempt _ false pv []) as [[n g]|] eqn:E; constructor; [|constructor].
    apply attempt_group in E. rewrite firstn_nil in E. exact E.
  - destruct skip as [|skip]; [|simpl; apply IH].
    cbn [Re.scan].
    destruct (Re.attempt _ false pv (c :: s)) as [[[|n] g]|] eqn:E.
    + constructor; [apply attempt_group in E; exact E|].
      destruct (Re.attempt _ true pv (c :: s)) as [[[|n] g']|] eqn:E';
        constructor; simpl; auto.
      apply attempt_group in E'. exact E'.
    + constructor; [apply attempt_group in E; exact E|apply IH].
    + constructor; simpl; auto.
Qed.

Lemma split_pieces_text ps : forall cur,
  Forall hit_ok ps ->
  concat (Re.split_pieces cur ps) = cur ++ concat (List.map piece_text ps).
Proof.
  induction ps as [|x ps IH]; intros cur H.
  - simpl. now rewrite app_nil_r.
  - inversion H as [|? ? Hx Hps]; subst. destruct x as [c|w g]; simpl.
    + rewrite IH by assumption. now rewrite <- app_assoc.
    + simpl in Hx. subst g. rewrite IH by assumption. reflexivity.
Qed.

(** Joining the parts of a split on a pattern [(r)] gives back the text. *)
Lemma split_join r s : concat (Re.split (Re.Group r) s) = s.
Proof.
  unfold Re.split. rewrite split_pieces_text by apply scan_group.
  now rewrite scan_text.
Qed.

Lemma firstn_length_app (k s' : str) : firstn (length k) (k ++ s') = k.
Proof. induction k; simpl; [reflexivity|]. now f_equal. Qed.

Lemma skipn_length_app (k s' : str) : skipn (length k) (k ++ s') = s'.
Proof. induction k; simpl; auto. Qed.

(** ** The scan at and after a match *)

Lemma scan_skip r a : forall s pv,
  Re.scan r (length a) pv (a ++ s) = Re.scan r 0 (Re.last_char pv a) s.
Proof.
  induction a as [|c a IH]; intros s pv.
  - simpl. destruct s; reflexivity.
  - simpl. apply IH.
Qed.

Lemma scan_hit r pv c w s g :
  Re.attempt r false pv ((c :: w) ++ s) = Some (length (c :: w), g) ->
  Re.scan r 0 pv ((c :: w) ++ s)
  = Re.Hit (c :: w) g :: Re.scan r 0 (Re.last_char pv (c :: w)) s.
Proof.
  intros H. change ((c :: w) ++ s) with (c :: (w ++ s)) in *.
  cbn [length] in H. cbn [Re.scan]. rewrite H. cbn [firstn].
  rewrite firstn_length_app, scan_skip. reflexivity.
Qed.

Lemma scan_miss r pv c s :
  Re.attempt r false pv (c :: s) = None ->
  Re.scan r 0 pv (c :: s) = Re.Plain c :: Re.scan r 0 (Some c) s.
Proof. intros H. cbn [Re.scan]. now rewrite H. Qed.

(** ** Escaping and the tooltip markup *)

Lemma replace_single x new s :
  Py.replace s [x] new = flat_map (fun c => if N.eqb x c then new else [c]) s.
Proof.
  unfold Py.replace. induction s as [|c s IH]; [reflexivity|].
  cbn [Py.replace_go flat_map]. unfold Py.startswith. cbn [Py.strip_prefix length Nat.sub].
  destruct (N.eqb x c); cbn [app]; now rewrite IH.
Qed.

Lemma flat_map_flat_map {X Y Z : Type} (f : Y -> list Z) (g : X -> list Y) l :
  flat_map f (flat_map g l) = flat_map (fun x => flat_map f (g x)) l.
Proof.
  induction l as [|x l IH]; [reflexivity|].
  cbn [flat_map]. now rewrite flat_map_app, IH.
Qed.

(** [html.escape] escapes character by character: what an earlier
    replacement has written is not escaped again by a later one. *)
Lemma html_escape_chars s : Py.html_escape s = flat_map esc_char s.
Proof.
  unfold Py.html_escape.
  change (lit "&") with [38%N]. change (lit "<") with [60%N].
  change (lit ">") with [62%N]. change dq with [34%N]. change (lit "'") with [39%N].
  rewrite !replace_single, !flat_map_flat_map.
  apply flat_map_ext. intros c. unfold esc_char.
  rewrite (N.eqb_sym 38 c).
  destruct (N.eqb_spec c 38) as [->|H38]; [reflexivity|].
  cbn [flat_map app]. rewrite (N.eqb_sym 60 c).
  destruct (N.eqb_spec c 60) as [->|H60]; [reflexivity|].
  cbn [flat_map app]. rewrite (N.eqb_sym 62 c).
  destruct (N.eqb_spec c 62) as [->|H62]; [reflexivity|].
  cbn [flat_map app]. rewrite (N.eqb_sym 34 c).
  destruct (N.eqb_spec c 34) as [->|H34]; [reflexivity|].
  cbn [flat_map app]. rewrite (N.eqb_sym 39 c).
  destruct (N.eqb_spec c 39) as [->|H39]; reflexivity.
Qed.

Lemma unescape_go_skip a s : unescape_go (length a) (a ++ s) = unescape_go 0 s.
Proof.
  induction a as [|c a IH]; simpl; [|exact IH]. destruct s; reflexivity.
Qed.

Lemma unescape_esc_char c s :
  unescape_go 0 (esc_char c ++ s) = c :: unescape_go 0 s.
Proof.
  unfold esc_char.
  destruct (N.eqb_spec c 38) as [->|H38];
    [exact (f_equal (cons 38%N) (unescape_go_skip (lit "amp;") s))|].
  destruct (N.eqb_spec c 60) as [->|H60];
    [exact (f_equal (cons 60%N) (unescape_go_skip (lit "lt;") s))|].
  destruct (N.eqb_spec c 62) as [->|H62];
    [exact (f_equal (cons 62%N) (unescape_go_skip (lit "gt;") s))|].
  destruct (N.eqb_spec c 34) as [->|H34];
    [exact (f_equal (cons 34%N) (unescape_go_skip (lit "quot;") s))|].
  destruct (N.eqb_spec c 39) as [->|H39];
    [exact (f_equal (cons 39%N) (unescape_go_skip (lit "#x27;") s))|].
  cbn [app unescape_go]. unfold Py.startswith.
  change (lit "&amp;") with (38 :: lit "amp;")%N.
  change (lit "&lt;") with (38 :: lit "lt;")%N.
  change (lit "&gt;") with (38 :: lit "gt;")%N.
  change (lit "&quot;") with (38 :: lit "quot;")%N.
  change (lit "&#x27;") with (38 :: lit "#x27;")%N.
  cbn [Py.strip_prefix]. rewrite (N.eqb_sym 38 c).
  destruct (N.eqb_spec c 38); [contradiction|reflexivity].
Qed.

Lemma unescape_escape s : unescape (Py.html_escape s) = s.
Proof.
  rewrite html_escape_chars. unfold unescape.
  induction s as [|c s IH]; [reflexivity|].
  cbn [flat_map]. now rewrite unescape_esc_char, IH.
Qed.

Lemma esc_char_no_lt c : forallb (fun d => negb (N.eqb d 60)) (esc_char c) = true.
Proof.
  unfold esc_char.
  destruct (N.eqb c 38); [reflexivity|]. destruct (N.eqb c 60) eqn:E; [reflexivity|].
  destruct (N.eqb c 62); [reflexivity|]. destruct (N.eqb c 34); [reflexivity|].
  destruct (N.eqb c 39); [reflexivity|]. simpl. now rewrite E.
Qed.

Lemma containers_text lvl w : forall cur tail,
  forallb (fun d => negb (N.eqb d 60)) w = true ->
  containers (InText lvl cur) (w ++ tail) = containers (InText lvl (cur ++ w)) tail.
Proof.
  induction w as [|d w IH]; intros cur tail H.
  - now rewrite app_nil_r.
  - simpl in H. apply andb_prop in H. destruct H as [Hd H].
    cbn [app containers]. destruct (N.eqb d 60); [discriminate|].
    rewrite IH by exact H. now rewrite <- app_assoc.
Qed.

Lemma containers_escaped lvl s : forall cur tail,
  containers (InText lvl cur) (flat_map esc_char s ++ tail)
  = containers (InText lvl (cur ++ flat_map esc_char s)) tail.
Proof.
  intros cur tail. apply containers_text.
  induction s as [|c s IH]; [reflexivity|].
  cbn [flat_map]. rewrite forallb_app, esc_char_no_lt. exact IH.
Qed.

Lemma containers_open lvl rest :
  lvl <= 4 ->
  containers Between (div_open lvl ++ rest) = containers (InText lvl []) rest.
Proof.
  intros H. destruct lvl as [|[|[|[|[|n]]]]]; [reflexivity..|lia].
Qed.

Lemma line_to_html_div raw :
  line_to_html raw
  = div_open (detect_level (Py.rstrip raw))
      ++ Py.html_escape (Py.rstrip raw) ++ lit "</div>".
Proof. unfold line_to_html, div_open. now rewrite <- !app_assoc. Qed.

(** Reading the markup of the lines gives back the lines, with their
    levels. *)
Lemma read_markup_lines lines :
  read_markup (lines_to_html lines)
  = List.map (fun raw => (detect_level (Py.rstrip raw), Py.rstrip raw)) lines.
Proof.
  unfold read_markup, lines_to_html.
  induction lines as [|raw lines IH]; [reflexivity|].
  cbn [List.map concat]. rewrite line_to_html_div.
  rewrite <- !app_assoc.
  rewrite containers_open by apply detect_level_in_le, LEVEL_RULES_le.
  rewrite html_escape_chars, containers_escaped. cbn [app].
  change (lit "</div>" ++ ?x) with (60 :: 47 :: 100 :: 105 :: 118 :: 62 :: x)%N.
  cbn [containers N.eqb Pos.eqb]. rewrite IH. f_equal. f_equal.
  rewrite <- html_escape_chars. apply unescape_escape.
Qed.

(** C9.  [lines_to_html] renders the lines in their order, one container
    for every line, and the text of a line is escaped once: character by
    character, so that decoding the entities once gives back the line, and
    reading the containers of the markup gives back the lines (without their
    trailing white space) in their order. *)
Theorem lines_to_html_spec :
  (forall raw, lines_to_html [raw]
     = div_open (detect_level (Py.rstrip raw))
         ++ Py.html_escape (Py.rstrip raw) ++ lit "</div>")
  /\ (forall l1 l2, lines_to_html (l1 ++ l2) = lines_to_html l1 ++ lines_to_html l2)
  /\ (forall s, Py.html_escape s = flat_map esc_char s)
  /\ (forall s, unescape (Py.html_escape s) = s)
  /\ (forall lines,
        read_markup (lines_to_html lines)
        = List.map (fun raw => (detect_level (Py.rstrip raw), Py.rstrip raw)) lines)
  /\ esc_char 38%N = lit "&amp;" /\ esc_char 60%N = lit "&lt;" /\ esc_char 62%N = lit "&gt;"
  /\ lines_to_html [lit "a & b"; lit "<c>  "]
     = div_open 0 ++ lit "a &amp; b</div>" ++ div_open 0 ++ lit "&lt;c&gt;</div>".
Proof.
  split.
  { intros raw. unfold lines_to_html. cbn [List.map concat].
    rewrite app_nil_r. apply line_to_html_div. }
  split.
  { intros l1 l2. unfold lines_to_html. now rewrite map_app, concat_app. }
  split; [exact html_escape_chars|].
  split; [exact unescape_escape|]. split; [exact read_markup_lines|].
  repeat split; vm_compute; reflexivity.
Qed.

(** ** The split at fenced blocks *)

Lemma scan_hits r (Q : str -> option str -> Prop) :
  (forall adv pv s n g, Re.attempt r adv pv s = Some (n, g) -> Q (firstn n s) g) ->
  forall s skip pv,
    Forall (fun x => match x with Re.Plain _ => True | Re.Hit w g => Q w g end)
           (Re.scan r skip pv s).
Proof.
  intros HQ. induction s as [|c s IH]; intros skip pv.
  - simpl. destruct (Re.attempt r false pv []) as [[n g]|] eqn:E; constructor; [|constructor].
    apply HQ in E. rewrite firstn_nil in E. exact E.
  - destruct skip as [|skip]; [|simpl; apply IH].
    cbn [Re.scan].
    destruct (Re.attempt r false pv (c :: s)) as [[[|n] g]|] eqn:E.
    + constructor; [apply HQ in E; exact E|].
      destruct (Re.attempt r true pv (c :: s)) as [[[|n] g']|] eqn:E';
        constructor; simpl; auto.
      apply HQ in E'. exact E'.
    + constructor; [apply HQ in E; exact E|apply IH].
    + constructor; simpl; auto.
Qed.

Lemma map_even_parts (f : str -> str) : forall l,
  (evens (map_even f l) = List.map f (evens l) /\ odds (map_even f l) = odds l)
  /\ forall x, evens (map_even f (x :: l)) = List.map f (evens (x :: l))
               /\ odds (map_even f (x :: l)) = odds (x :: l).
Proof.
  induction l as [|y l [[IHe IHo] IH1]].
  - repeat split.
  - split; [apply IH1|]. intros x. cbn. now rewrite IHe, IHo.
Qed.

Lemma map_even_id (f : str -> str) : forall l,
  (Forall (fun e => f e = e) (evens l) -> map_even f l = l)
  /\ forall x, Forall (fun e => f e = e) (evens (x :: l)) -> map_even f (x :: l) = x :: l.
Proof.
  induction l as [|y l [IH0 IH1]].
  - split; [reflexivity|]. intros x H. inversion H; subst. cbn. congruence.
  - split; [apply IH1|]. intros x H. cbn in H. inversion H; subst.
    cbn. rewrite IH0 by assumption. congruence.
Qed.

Lemma split_pieces_odds (P : str -> Prop) ps : forall cur,
  Forall (fun x => match x with Re.Plain _ => True
                   | Re.Hit w g => g = Some w /\ P w end) ps ->
  Forall P (odds (Re.split_pieces cur ps)).
Proof.
  induction ps as [|x ps IH]; intros cur H; [constructor|].
  inversion H as [|? ? Hx Hps]; subst. destruct x as [c|w g]; cbn [Re.split_pieces].
  - now apply IH.
  - destruct Hx as [-> Hw]. cbn [odds]. constructor; [exact Hw|]. now apply IH.
Qed.

(** A match of [FENCE_RE] is a span from a delimiter to the next such
    delimiter. *)
Lemma attempt_fence adv pv s n g :
  Re.attempt FENCE_RE adv pv s = Some (n, g) ->
  g = Some (firstn n s) /\
  exists d body s', (d = backticks \/ d = tildes)
                    /\ s = (d ++ body ++ d) ++ s' /\ n = length (d ++ body ++ d).
Proof.
  intros H. split; [now apply attempt_group in H|].
  unfold Re.attempt, FENCE_RE in H. cbn [Re.run] in H.
  assert (forall d pv s g (k : option char -> str -> option str -> option (nat * option str)) a,
            Re.run (Re.seq [Re.Lit d; Re.LazyStar Re.any; Re.Lit d]) pv s g k = Some a ->
            exists body s' pv' g', s = (d ++ body ++ d) ++ s' /\ k pv' s' g' = Some a) as Hseq.
  { clear. intros d pv s g k a H. cbn in H.
    destruct (Py.strip_prefix d s) as [s1|] eqn:E1; [|discriminate].
    apply strip_prefix_inv in E1. subst s.
    apply lazy_star_inv in H. destruct H as (body & s2 & -> & _ & H).
    destruct (Py.strip_prefix d s2) as [s3|] eqn:E3; [|discriminate].
    apply strip_prefix_inv in E3. subst s2.
    exists body, s3. rewrite <- !app_assoc. eauto. }
  match type of H with
  | match ?x with _ => _ end = _ => destruct x as [a|] eqn:E
  end.
  - inversion H; subst a. apply Hseq in E.
    destruct E as (body & s' & pv' & g' & -> & E).
    rewrite length_app_sub in E. exists backticks, body, s'.
    destruct (adv && _)%bool; [discriminate|]. inversion E. auto.
  - apply Hseq in H.
    destruct H as (body & s' & pv' & g' & -> & H).
    rewrite length_app_sub in H. exists tildes, body, s'.
    destruct (adv && _)%bool; [discriminate|]. inversion H. auto.
Qed.

Lemma split_fence_odds s : Forall is_fence (odds (Re.split FENCE_RE s)).
Proof.
  unfold Re.split. apply split_pieces_odds.
  apply (scan_hits FENCE_RE (fun w g => g = Some w /\ is_fence w)).
  intros adv pv t n g H. apply attempt_fence in H.
  destruct H as [Hg (d & body & s' & Hd & -> & ->)]. split; [exact Hg|].
  rewrite firstn_app, Nat.sub_diag, firstn_all, firstn_O, app_nil_r.
  now exists d, body.
Qed.

(** ** No fenced span is left between the matches *)

Lemma lazy_star_complete {A : Type} p (k : option char -> str -> option A) u s' :
  forallb p u = true ->
  (forall pv', k pv' s' <> None) ->
  forall pv, Re.lazy_star p pv (u ++ s') k <> None.
Proof.
  intros Hu Hk. induction u as [|c u IH]; intros pv.
  - simpl. destruct s' as [|c s'].
    + simpl. specialize (Hk pv). destruct (k pv []); congruence.
    + simpl. specialize (Hk pv). destruct (k pv (c :: s')); congruence.
  - simpl in Hu. apply andb_prop in Hu. destruct Hu as [Hc Hu].
    change ((c :: u) ++ s') with (c :: (u ++ s')). cbn [Re.lazy_star].
    destruct (k pv (c :: u ++ s')); [discriminate|]. rewrite Hc. now apply IH.
Qed.

Lemma forallb_any u : forallb Re.any u = true.
Proof. induction u; simpl; auto. Qed.

(** The pattern matches at the start of every span from a delimiter to the
    same delimiter. *)
Lemma attempt_fence_complete d body rest pv :
  d = backticks \/ d = tildes ->
  Re.attempt FENCE_RE false pv (d ++ body ++ d ++ rest) <> None.
Proof.
  assert (forall d pv g (k : option char -> str -> option str -> option (nat * option str)),
            (forall pv' s' g', k pv' s' g' <> None) ->
            Re.run (Re.seq [Re.Lit d; Re.LazyStar Re.any; Re.Lit d]) pv
              (d ++ body ++ d ++ rest) g k <> None) as Hseq.
  { clear. intros d pv g k Hk. cbn. rewrite strip_prefix_app.
    apply lazy_star_complete; [apply forallb_any|].
    intros pv'. rewrite strip_prefix_app. apply Hk. }
  intros Hd. unfold Re.attempt, FENCE_RE. cbn [Re.run].
  match goal with
  | |- match ?x with _ => _ end <> None => destruct x eqn:E; [discriminate|]
  end.
  destruct Hd as [->| ->].
  - exfalso. revert E. apply Hseq. intros; discriminate.
  - apply Hseq. intros; discriminate.
Qed.

Lemma star_pv {A : Type} p (k : option char -> str -> option A) :
  (forall pv1 pv2 s, k pv1 s = k pv2 s) ->
  forall s pv1 pv2, Re.star p pv1 s k = Re.star p pv2 s k.
Proof.
  intros Hk. induction s as [|c s IH]; intros pv1 pv2; simpl.
  - apply Hk.
  - destruct (p c); [|apply Hk]. now rewrite (Hk pv1 pv2).
Qed.

Lemma lazy_star_pv {A : Type} p (k : option char -> str -> option A) :
  (forall pv1 pv2 s, k pv1 s = k pv2 s) ->
  forall s pv1 pv2, Re.lazy_star p pv1 s k = Re.lazy_star p pv2 s k.
Proof.
  intros Hk. induction s as [|c s IH]; intros pv1 pv2; simpl.
  - now rewrite (Hk pv1 pv2).
  - rewrite (Hk pv1 pv2). destruct (k pv2 (c :: s)); [reflexivity|].
    destruct (p c); [apply IH|reflexivity].
Qed.

Lemma run_pv {A : Type} r :
  no_lookbehind r = true ->
  forall (k : option char -> str -> option str -> option A),
    (forall pv1 pv2 s g, k pv1 s g = k pv2 s g) ->
    forall pv1 pv2 s g, Re.run r pv1 s g k = Re.run r pv2 s g k.
Proof.
  induction r; intros Hr k Hk pv1 pv2 s g; simpl in Hr |- *; try discriminate Hr.
  - apply Hk.
  - destruct (Py.strip_prefix w s); auto.
  - destruct s as [|c s]; auto; try (destruct (p c); auto).
  - destruct s as [|c [|d s]]; auto. destruct (N.eqb c 10%N); auto.
  - destruct s as [|c s]; auto; try (destruct (p c); auto).
  - apply andb_prop in Hr. destruct Hr as [H1 H2]. apply IHr1; [exact H1|].
    intros q1 q2 s' g'. now apply IHr2.
  - apply andb_prop in Hr. destruct Hr as [H1 H2].
    rewrite (IHr1 H1 k Hk pv1 pv2), (IHr2 H2 k Hk pv1 pv2). reflexivity.
  - rewrite (IHr Hr k Hk pv1 pv2), (Hk pv1 pv2). reflexivity.
  - apply star_pv. auto.
  - destruct s as [|c s]; auto; try (destruct (p c); auto).
  - apply lazy_star_pv. auto.
  - apply IHr; [exact Hr|]. intros q1 q2 s' g'. apply Hk.
Qed.

(** [FENCE_RE] does not look behind. *)
Lemma attempt_fence_pv adv pv1 pv2 s :
  Re.attempt FENCE_RE adv pv1 s = Re.attempt FENCE_RE adv pv2 s.
Proof. unfold Re.attempt. apply run_pv; [reflexivity|]. reflexivity. Qed.

Lemma no_match_fence_free cur s : no_match_in cur s -> fence_free cur.
Proof.
  intros H a d body b Hd ->.
  refine (attempt_fence_complete d body (b ++ s) None Hd _).
  rewrite <- (H a (d ++ body ++ d ++ b) None eq_refl).
  - now rewrite <- !app_assoc.
  - destruct Hd as [->| ->]; discriminate.
Qed.

Lemma split_evens_fence_free : forall n s cur pv,
  length s <= n -> no_match_in cur s ->
  Forall fence_free (evens (Re.split_pieces cur (Re.scan FENCE_RE 0 pv s))).
Proof.
  induction n as [|n IH]; intros s cur pv Hlen Hcur.
  - destruct s; [|simpl in Hlen; lia].
    destruct (Re.attempt FENCE_RE false pv []) as [[m g]|] eqn:E.
    + apply attempt_fence in E. destruct E as [_ (d & body & s' & Hd & E & _)].
      destruct Hd as [->| ->]; discriminate E.
    + cbn [Re.scan]. rewrite E. cbn [Re.split_pieces evens]. constructor; [|constructor].
      now apply (no_match_fence_free cur []).
  - destruct s as [|c s].
    { apply (IH [] cur pv); [simpl; lia|exact Hcur]. }
    destruct (Re.attempt FENCE_RE false pv (c :: s)) as [[m g]|] eqn:E.
    + pose proof E as E'. apply attempt_fence in E'.
      destruct E' as [Hg (d & body & s' & Hd & Es & Em)].
      assert (exists c' w, d ++ body ++ d = c' :: w) as (c' & w & Ew).
      { destruct Hd as [->| ->]; eexists; eexists; reflexivity. }
      rewrite Ew in Es, Em. rewrite Es in E |- *. rewrite Em in E.
      rewrite (scan_hit FENCE_RE pv c' w s' g E).
      cbn [Re.split_pieces evens]. constructor.
      * apply (no_match_fence_free cur (c :: s)). exact Hcur.
      * apply IH.
        -- assert (length (c :: s) = length ((c' :: w) ++ s')) as L by now rewrite Es.
           rewrite length_app in L. simpl in L, Hlen. lia.
        -- intros a t pv' Ea Ht. destruct a; destruct t; simpl in Ea; congruence.
    + rewrite (scan_miss FENCE_RE pv c s E). cbn [Re.split_pieces].
      apply IH; [simpl in Hlen; lia|].
      intros a t pv' Ea Ht.
      destruct (@exists_last _ t Ht) as (t' & x & ->).
      rewrite app_assoc in Ea. apply app_inj_tail in Ea. destruct Ea as [Ea ->].
      rewrite <- app_assoc. simpl.
      destruct t' as [|y t'].
      * simpl. rewrite (attempt_fence_pv false pv' pv). exact E.
      * apply (Hcur a (y :: t') pv' Ea). discriminate.
Qed.

(** The parts between the fenced spans hold no fenced span. *)
Lemma split_fence_evens s : Forall fence_free (evens (Re.split FENCE_RE s)).
Proof.
  unfold Re.split. apply (split_evens_fence_free (length s)); [lia|].
  intros a t pv Ea Ht. destruct a; destruct t; simpl in Ea; congruence.
Qed.

(** ** The page transform *)

Lemma scan_all_plain r : forall s pv,
  (forall a t pv', s = a ++ t -> Re.attempt r false pv' t = None) ->
  Re.scan r 0 pv s = List.map Re.Plain s.
Proof.
  induction s as [|c s IH]; intros pv H.
  - simpl. now rewrite (H [] [] pv eq_refl).
  - cbn [Re.scan List.map]. rewrite (H [] (c :: s) pv eq_refl). f_equal.
    apply IH. intros a t pv' E. apply (H (c :: a) t pv'). now rewrite E.
Qed.

Lemma split_pieces_plain s : forall cur,
  Re.split_pieces cur (List.map Re.Plain s) = [cur ++ s].
Proof.
  induction s as [|c s IH]; intros cur; simpl.
  - now rewrite app_nil_r.
  - rewrite IH. now rewrite <- app_assoc.
Qed.

Lemma contains_app a w b : contains (a ++ w ++ b) w = true.
Proof.
  induction a as [|c a IH].
  - simpl. destruct (w ++ b) eqn:E; simpl; rewrite <- ?E, startswith_app; reflexivity.
  - change ((c :: a) ++ w ++ b) with (c :: (a ++ w ++ b)). cbn [contains].
    rewrite IH. apply orb_true_r.
Qed.

(** C8.  Without the definitions file the index is empty and no pattern is
    built; with an empty index [_replace_in_plain] and [on_page_markdown]
    return every text as it is. *)
Theorem empty_index_identity :
  on_config None = Plugin [] None
  /\ (forall text, _replace_in_plain (on_config None) text = text)
  /\ (forall text, on_page_markdown (on_config None) text = text)
  /\ (forall file text,
        abbr_map (on_config file) = [] ->
        _replace_in_plain (on_config file) text = text
        /\ on_page_markdown (on_config file) text = text).
Proof.
  assert (forall self text, key_re self = None ->
            _replace_in_plain self text = text
            /\ on_page_markdown self text = text) as H.
  { intros self text E. unfold on_page_markdown, _replace_in_plain. rewrite E.
    split; [reflexivity|].
    rewrite (proj1 (map_even_id (fun t => t) _)).
    - apply split_join.
    - apply Forall_forall. reflexivity. }
  split; [reflexivity|]. split; [intros; now apply H|]. split; [intros; now apply H|].
  intros file text E. apply H. unfold on_config, plugin_of in *. simpl in E.
  now rewrite E.
Qed.

Lemma empty_index_identity_witness :
  _replace_in_plain (on_config (Some (lit "no definitions here"))) (lit "see GST")
  = lit "see GST"
  /\ on_page_markdown (on_config (Some (lit "no definitions here"))) (lit "see GST")
     = lit "see GST".
Proof.
  apply (proj2 (proj2 (proj2 empty_index_identity))
           (Some (lit "no definitions here")) (lit "see GST")).
  reflexivity.
Defined.

(** C5.  [on_page_markdown] splits the page at the fenced spans and joins
    the parts in their order; the parts at the odd indices are the fenced
    spans, and they are in the output as they are in the page; only the parts
    at the even indices, which hold no fenced span, go through
    [_replace_in_plain].  A key that occurs
    only inside a fenced span is not replaced, and a key that occurs inside
    and outside is replaced outside only. *)
Theorem on_page_markdown_fences :
  (forall self markdown,
     let parts := Re.split FENCE_RE markdown in
     let out := map_even (_replace_in_plain self) parts in
     concat parts = markdown
     /\ on_page_markdown self markdown = concat out
     /\ evens out = List.map (_replace_in_plain self) (evens parts)
     /\ odds out = odds parts
     /\ Forall is_fence (odds parts)
     /\ Forall fence_free (evens parts)
     /\ ((forall e, In e (evens parts) -> _replace_in_plain self e = e) ->
         on_page_markdown self markdown = markdown))
  /\ on_page_markdown (plugin_of index_AB) (lit "x ```AB``` ~~~ AB ~~~ y")
     = lit "x ```AB``` ~~~ AB ~~~ y"
  /\ on_page_markdown (plugin_of index_AB) (lit "AB ```AB``` AB")
     = marker (lines_to_html [lit "a b"]) (lit "AB") ++ lit " ```AB``` "
         ++ marker (lines_to_html [lit "a b"]) (lit "AB").
Proof.
  split; [|split; vm_compute; reflexivity].
  intros self markdown parts out.
  split; [apply split_join|]. split; [reflexivity|].
  split; [apply map_even_parts|]. split; [apply map_even_parts|].
  split; [apply split_fence_odds|]. split; [apply split_fence_evens|].
  intros H. unfold on_page_markdown. fold parts.
  rewrite (proj1 (map_even_id _ parts)).
  - apply split_join.
  - apply Forall_forall. exact H.
Qed.

Lemma on_page_markdown_fences_witness :
  on_page_markdown (plugin_of index_AB) (lit "```AB```") = lit "```AB```".
Proof.
  apply (proj1 on_page_markdown_fences (plugin_of index_AB) (lit "```AB```")).
  intros e [<-|[<-|[]]]; vm_compute; reflexivity.
Defined.

(** No fenced span starts in a text that holds one opening delimiter and
    nothing that could close it. *)
Lemma no_fence_after_opener pre d rest :
  d = backticks \/ d = tildes ->
  forallb no_fence_char pre = true ->
  contains rest backticks = false -> contains rest tildes = false ->
  forall a t pv, pre ++ d ++ rest = a ++ t -> Re.attempt FENCE_RE false pv t = None.
Proof.
  intros Hd Hpre Hb Ht a t pv E.
  destruct (Re.attempt FENCE_RE false pv t) as [[n g]|] eqn:M; [exfalso|reflexivity].
  apply attempt_fence in M. destruct M as [_ (d' & body & s' & Hd' & -> & _)].
  assert (forall u v, rest = u ++ d' ++ v -> False) as Hrest.
  { intros u v ->. destruct Hd' as [->| ->];
      [rewrite contains_app in Hb | rewrite contains_app in Ht]; discriminate. }
  assert (forall x u v, x = rest \/ rest = x -> x = u ++ d' ++ v -> False) as Hfin.
  { intros x u v [<-| ->] ->; apply (Hrest u v); reflexivity. }
  apply app_eq_app in E. destruct E as [l [[E1 E2]|[E1 E2]]].
  - (* the span starts in [pre] or at the opener *)
    destruct l as [|c l].
    + simpl in E2. rewrite <- !app_assoc in E2.
      destruct Hd as [->| ->], Hd' as [->| ->]; try discriminate E2;
        injection E2 as E2; apply (Hfin _ body s' (or_introl E2)); reflexivity.
    + subst pre. rewrite forallb_app in Hpre. apply andb_prop in Hpre.
      destruct Hpre as [_ Hpre]. simpl in Hpre. apply andb_prop in Hpre.
      destruct Hpre as [Hc _].
      destruct Hd' as [->| ->]; injection E2 as E2 _; subst c; discriminate Hc.
  - (* the span starts in the opener or after it *)
    rewrite <- !app_assoc in E2.
    destruct Hd as [->| ->];
      (destruct l as [|c1 [|c2 [|c3 l]]];
       [ destruct Hd' as [->| ->]; try discriminate E2; injection E2 as E2;
         apply (Hfin _ body s' (or_intror E2)); reflexivity
       | destruct Hd' as [->| ->]; try discriminate E2; injection E2 as _ E2;
         first [ apply (Hfin _ (96%N :: body) s' (or_intror E2)); reflexivity
               | apply (Hfin _ (126%N :: body) s' (or_intror E2)); reflexivity ]
       | destruct Hd' as [->| ->]; try discriminate E2; injection E2 as _ _ E2;
         first [ apply (Hfin _ (lit "``" ++ body) s' (or_intror E2)); reflexivity
               | apply (Hfin _ (lit "~~" ++ body) s' (or_intror E2)); reflexivity ]
       | injection E2 as _ _ _ E2;
         apply (Hfin _ l (body ++ d' ++ s') (or_intror E2));
         rewrite <- ?app_assoc; reflexivity ]).
Qed.

(** ** An opening delimiter that nothing closes *)

Lemma attempt_fence_len adv pv s n g :
  Re.attempt FENCE_RE adv pv s = Some (n, g) ->
  exists c w s', s = (c :: w) ++ s' /\ n = length (c :: w) /\ g = Some (c :: w).
Proof.
  intros H. apply attempt_fence in H.
  destruct H as [Hg (d & body & s' & Hd & -> & ->)].
  rewrite firstn_length_app in Hg.
  destruct Hd as [->| ->]; eexists; eexists; exists s'; repeat split; exact Hg.
Qed.

Lemma closed_within_le t : forall a skip,
  closed_within skip a t = true -> skip <= length a.
Proof.
  induction a as [|c a IH]; intros skip H.
  - simpl in H. apply Nat.eqb_eq in H. subst. simpl. lia.
  - destruct skip as [|n]; [lia|]. cbn [closed_within] in H.
    apply IH in H. simpl. lia.
Qed.

(** The scan passes a text whose fenced spans end in it, and then goes on
    with what follows the text. *)
Lemma scan_closed_prefix t : forall a skip pv,
  closed_within skip a t = true ->
  exists ps, Re.scan FENCE_RE skip pv (a ++ t)
             = ps ++ Re.scan FENCE_RE 0 (Re.last_char pv a) t
             /\ concat (List.map piece_text ps) = skipn skip a /\ Forall hit_ok ps.
Proof.
  induction a as [|c a IH]; intros skip pv Ha.
  - simpl in Ha. apply Nat.eqb_eq in Ha. subst skip.
    exists []. repeat split. constructor.
  - destruct skip as [|n].
    + cbn [closed_within] in Ha.
      rewrite (attempt_fence_pv false None pv) in Ha.
      change ((c :: a) ++ t) with (c :: (a ++ t)) in *.
      destruct (Re.attempt FENCE_RE false pv (c :: a ++ t)) as [[m g]|] eqn:E.
      * pose proof E as E'. apply attempt_fence in E'. destruct E' as [Hg _].
        destruct m as [|n].
        { exfalso. apply attempt_fence_len in E.
          destruct E as (c' & w & s' & _ & Hn & _). discriminate Hn. }
        destruct (IH n (Some c) Ha) as (ps & Hps & Hcat & Hok).
        pose proof (closed_within_le t a n Ha) as Hle.
        exists (Re.Hit (firstn (S n) (c :: a ++ t)) g :: ps). repeat split.
        -- cbn [Re.scan]. rewrite E. rewrite Hps. reflexivity.
        -- cbn [List.map concat piece_text]. rewrite Hcat.
           cbn [firstn skipn]. rewrite firstn_app.
           replace (n - length a) with 0 by lia. rewrite firstn_O, app_nil_r.
           cbn [app]. now rewrite firstn_skipn.
        -- constructor; [exact Hg|exact Hok].
      * rewrite (scan_miss FENCE_RE pv c _ E).
        destruct (IH 0 (Some c) Ha) as (ps & Hps & Hcat & Hok).
        exists (Re.Plain c :: ps). rewrite Hps. repeat split.
        -- cbn [List.map concat piece_text skipn] in *. now rewrite Hcat.
        -- constructor; [exact I|exact Hok].
    + cbn [closed_within] in Ha.
      destruct (IH n (Some c) Ha) as (ps & Hps & Hcat & Hok).
      exists ps. repeat split; [|exact Hcat|exact Hok].
      change ((c :: a) ++ t) with (c :: (a ++ t)). cbn [Re.scan]. exact Hps.
Qed.

Lemma split_pieces_app ps : forall cur,
  Forall hit_ok ps ->
  exists before cur',
    (forall qs, Re.split_pieces cur (ps ++ qs) = before ++ Re.split_pieces cur' qs)
    /\ Nat.even (length before) = true
    /\ concat before ++ cur' = cur ++ concat (List.map piece_text ps).
Proof.
  induction ps as [|x ps IH]; intros cur H.
  - exists [], cur. repeat split. simpl. now rewrite app_nil_r.
  - inversion H as [|? ? Hx Hps]; subst. destruct x as [c|w g].
    + destruct (IH (cur ++ [c]) Hps) as (before & cur' & Hq & He & Hc).
      exists before, cur'. repeat split; auto.
      rewrite Hc. simpl. now rewrite <- app_assoc.
    + simpl in Hx. subst g.
      destruct (IH [] Hps) as (before & cur' & Hq & He & Hc).
      exists (cur :: w :: before), cur'. repeat split.
      * intros qs. simpl. now rewrite Hq.
      * exact He.
      * simpl in *. rewrite <- !app_assoc. now rewrite Hc.
Qed.

Lemma split_pieces_head qs : forall cur,
  Forall hit_ok qs ->
  exists tail after,
    Re.split_pieces cur qs = (cur ++ tail) :: after
    /\ tail ++ concat after = concat (List.map piece_text qs).
Proof.
  induction qs as [|x qs IH]; intros cur H.
  - exists [], []. simpl. now rewrite app_nil_r.
  - inversion H as [|? ? Hx Hqs]; subst. destruct x as [c|w g].
    + destruct (IH (cur ++ [c]) Hqs) as (tail & after & Hs & Hc).
      exists (c :: tail), after. simpl. rewrite Hs, <- app_assoc. simpl.
      split; [reflexivity|now rewrite Hc].
    + simpl in Hx. subst g. exists [], (w :: Re.split_pieces [] qs).
      simpl. rewrite app_nil_r. split; [reflexivity|].
      now rewrite split_pieces_text by exact Hqs.
Qed.

(** No fenced span starts in an opening delimiter that nothing closes. *)
Lemma opener_no_match d rest :
  d = backticks \/ d = tildes -> contains rest d = false ->
  forall l t pv, length l <= 2 -> d ++ rest = l ++ t ->
    Re.attempt FENCE_RE false pv t = None.
Proof.
  intros Hd Hrest l t pv Hl E.
  destruct (Re.attempt FENCE_RE false pv t) as [[n g]|] eqn:M; [exfalso|reflexivity].
  apply attempt_fence in M. destruct M as [_ (d' & body & s' & Hd' & -> & _)].
  assert (forall x u v, x = rest \/ rest = x -> x = u ++ d ++ v -> False) as Hfin.
  { intros x u v [<-| ->] ->; rewrite contains_app in Hrest; discriminate. }
  rewrite <- !app_assoc in E.
  destruct l as [|c1 [|c2 [|c3 l]]]; [| | |simpl in Hl; lia];
    destruct Hd as [->| ->], Hd' as [->| ->]; try discriminate E.
  - injection E as E. apply (Hfin _ body s' (or_intror E)). reflexivity.
  - injection E as E. apply (Hfin _ body s' (or_intror E)). reflexivity.
  - injection E as _ E. apply (Hfin _ (96%N :: body) s' (or_intror E)). reflexivity.
  - injection E as _ E. apply (Hfin _ (126%N :: body) s' (or_intror E)). reflexivity.
  - injection E as _ _ E. apply (Hfin _ (lit "``" ++ body) s' (or_intror E)). reflexivity.
  - injection E as _ _ E. apply (Hfin _ (lit "~~" ++ body) s' (or_intror E)). reflexivity.
Qed.

Lemma scan_opener d rest pv :
  d = backticks \/ d = tildes -> contains rest d = false ->
  Re.scan FENCE_RE 0 pv (d ++ rest)
  = List.map Re.Plain d ++ Re.scan FENCE_RE 0 (Re.last_char pv d) rest.
Proof.
  intros Hd Hrest.
  pose proof (opener_no_match d rest Hd Hrest) as H.
  destruct Hd as [->| ->].
  - change (backticks ++ rest) with (96 :: 96 :: 96 :: rest)%N in *.
    rewrite scan_miss by (apply (H [] _ pv); [simpl; lia|reflexivity]).
    rewrite scan_miss by (apply (H [96%N] _ _); [simpl; lia|reflexivity]).
    rewrite scan_miss by (apply (H [96%N; 96%N] _ _); [simpl; lia|reflexivity]).
    reflexivity.
  - change (tildes ++ rest) with (126 :: 126 :: 126 :: rest)%N in *.
    rewrite scan_miss by (apply (H [] _ pv); [simpl; lia|reflexivity]).
    rewrite scan_miss by (apply (H [126%N] _ _); [simpl; lia|reflexivity]).
    rewrite scan_miss by (apply (H [126%N; 126%N] _ _); [simpl; lia|reflexivity]).
    reflexivity.
Qed.

Lemma map_even_app f : forall n before l,
  length before = 2 * n ->
  map_even f (before ++ l) = map_even f before ++ map_even f l.
Proof.
  induction n as [|n IH]; intros before l H.
  - destruct before; [reflexivity|discriminate].
  - destruct before as [|a [|b before]]; try (simpl in H; lia).
    simpl. rewrite (IH before l); [reflexivity|simpl in H; lia].
Qed.

Lemma split_pieces_plain_app w : forall cur qs,
  Re.split_pieces cur (List.map Re.Plain w ++ qs) = Re.split_pieces (cur ++ w) qs.
Proof.
  induction w as [|c w IH]; intros cur qs; simpl.
  - now rewrite app_nil_r.
  - rewrite IH, <- app_assoc. reflexivity.
Qed.

(** C10.  An opening delimiter that no later delimiter of its kind closes,
    at a position where the split looks for a span (the fenced spans the
    split finds before it, of either kind, end before it), lies in a part
    at an even index of the split: the part goes through
    [_replace_in_plain], from the text before the opener to the next fenced
    span or the end of the page.  A page with one opener and no other
    delimiter is one such part.  In every page the parts left as they are
    are spans from a delimiter to the same delimiter. *)
Theorem unclosed_fence_is_plain (self : plugin) (a d rest : str) :
  d = backticks \/ d = tildes ->
  contains rest d = false ->
  closed_within 0 a (d ++ rest) = true ->
  (exists before cur tail after,
     Re.split FENCE_RE (a ++ d ++ rest) = before ++ (cur ++ d ++ tail) :: after
     /\ Nat.even (length before) = true
     /\ concat before ++ cur = a
     /\ tail ++ concat after = rest
     /\ on_page_markdown self (a ++ d ++ rest)
        = concat (map_even (_replace_in_plain self) before)
            ++ _replace_in_plain self (cur ++ d ++ tail)
            ++ concat (map_odd (_replace_in_plain self) after))
  /\ (forallb no_fence_char a = true ->
      contains rest backticks = false -> contains rest tildes = false ->
      Re.split FENCE_RE (a ++ d ++ rest) = [a ++ d ++ rest]
      /\ on_page_markdown self (a ++ d ++ rest)
         = _replace_in_plain self (a ++ d ++ rest))
  /\ forall markdown, Forall is_fence (odds (Re.split FENCE_RE markdown)).
Proof.
  intros Hd Hrest Ha. split; [|split; [|apply split_fence_odds]].
  - destruct (scan_closed_prefix (d ++ rest) a 0 None Ha)
      as (ps & Hps & Hcat & Hok).
    cbn [skipn] in Hcat.
    destruct (split_pieces_app ps [] Hok) as (before & cur & Hq & He & Hc).
    destruct (split_pieces_head
                (Re.scan FENCE_RE 0 (Re.last_char (Re.last_char None a) d) rest)
                (cur ++ d) (scan_group _ _ _ _))
      as (tail & after & Hs & Ht).
    assert (Re.split FENCE_RE (a ++ d ++ rest)
            = before ++ (cur ++ d ++ tail) :: after) as Esplit.
    { unfold Re.split. rewrite Hps, Hq, scan_opener by assumption.
      rewrite split_pieces_plain_app, Hs, <- app_assoc. reflexivity. }
    exists before, cur, tail, after. split; [exact Esplit|]. split; [exact He|].
    split; [now rewrite Hc, Hcat|]. split.
    + rewrite Ht. apply (scan_text FENCE_RE rest 0).
    + unfold on_page_markdown. rewrite Esplit.
      apply Nat.even_spec in He. destruct He as [n He].
      rewrite (map_even_app _ n) by exact He.
      rewrite concat_app. f_equal; destruct after; reflexivity.
  - intros Hpre Hb Ht.
    assert (Re.split FENCE_RE (a ++ d ++ rest) = [a ++ d ++ rest]) as E.
    { unfold Re.split. rewrite scan_all_plain.
      - exact (split_pieces_plain _ []).
      - intros x t pv'. now apply no_fence_after_opener. }
    split; [exact E|]. unfold on_page_markdown. rewrite E. simpl. apply app_nil_r.
Qed.

Lemma unclosed_fence_is_plain_witness :
  exists before cur tail after,
    Re.split FENCE_RE (lit "```AB``` see " ++ backticks ++ lit "py AB")
    = before ++ (cur ++ backticks ++ tail) :: after
    /\ Nat.even (length before) = true
    /\ concat before ++ cur = lit "```AB``` see "
    /\ tail ++ concat after = lit "py AB"
    /\ on_page_markdown (plugin_of index_AB)
         (lit "```AB``` see " ++ backticks ++ lit "py AB")
       = concat (map_even (_replace_in_plain (plugin_of index_AB)) before)
           ++ _replace_in_plain (plugin_of index_AB) (cur ++ backticks ++ tail)
           ++ concat (map_odd (_replace_in_plain (plugin_of index_AB)) after).
Proof.
  exact (proj1 (unclosed_fence_is_plain (plugin_of index_AB)
                  (lit "```AB``` see ") backticks (lit "py AB")
                  (or_introl eq_refl) eq_refl eq_refl)).
Defined.

(** The key after the opener is replaced, the one in the closed span is
    not: after a closed span of the other kind, and after one of the same
    kind. *)
Example closed_then_unclosed_example :
  closed_within 0 (lit "```AB``` ") (backticks ++ lit "AB") = true
  /\ Re.split FENCE_RE (lit "```AB``` ```AB") = [[]; lit "```AB```"; lit " ```AB"]
  /\ on_page_markdown (plugin_of index_AB) (lit "```AB``` ```AB")
     = lit "```AB``` ```" ++ marker (lines_to_html [lit "a b"]) (lit "AB").
Proof. repeat split; vm_compute; reflexivity. Qed.

Example unclosed_fence_example :
  on_page_markdown (plugin_of index_AB) (lit "~~~AB~~~ see ```py AB")
  = lit "~~~AB~~~ see ```py " ++ marker (lines_to_html [lit "a b"]) (lit "AB").
Proof. vm_compute. reflexivity. Qed.

(** ** The parser of the definitions file *)

Lemma str_eqb_eq a b : str_eqb a b = true <-> a = b.
Proof.
  revert b. induction a as [|x a IH]; intros [|y b]; simpl; split; try easy.
  - intros H. apply andb_prop in H. destruct H as [H1 H2].
    apply N.eqb_eq in H1. apply IH in H2. congruence.
  - intros H. inversion H; subst. rewrite N.eqb_refl. now apply IH.
Qed.

Lemma str_eqb_refl a : str_eqb a a = true.
Proof. now apply str_eqb_eq. Qed.

Lemma str_eqb_neq a b : a <> b -> str_eqb a b = false.
Proof.
  intros H. destruct (str_eqb a b) eqn:E; [|reflexivity].
  apply str_eqb_eq in E. contradiction.
Qed.

Lemma dict_get_set_same m k v : dict_get (dict_set m k v) k = Some v.
Proof.
  induction m as [|[k' v'] m IH]; simpl.
  - now rewrite str_eqb_refl.
  - destruct (str_eqb k' k) eqn:E; simpl; rewrite E; [reflexivity|exact IH].
Qed.

Lemma dict_get_set_other m k v q :
  q <> k -> dict_get (dict_set m k v) q = dict_get m q.
Proof.
  intros H. induction m as [|[k' v'] m IH]; simpl.
  - rewrite str_eqb_neq; [reflexivity|congruence].
  - destruct (str_eqb k' k) eqn:E; simpl.
    + apply str_eqb_eq in E. subst k'. rewrite str_eqb_neq by congruence.
      reflexivity.
    + destruct (str_eqb k' q); [reflexivity|exact IH].
Qed.

Lemma dict_get_In m k v : dict_get m k = Some v -> In (k, v) m.
Proof.
  induction m as [|[k' v'] m IH]; simpl; [discriminate|].
  destruct (str_eqb k' k) eqn:E.
  - apply str_eqb_eq in E. intros H. inversion H; subst. now left.
  - intros H. right. now apply IH.
Qed.

Lemma dict_set_ok m k v : dict_ok m -> k <> [] -> v <> [] -> dict_ok (dict_set m k v).
Proof.
  intros Hm Hk Hv. induction Hm as [|[k' v'] m [H1 H2] Hm IH]; simpl.
  - repeat constructor; assumption.
  - destruct (str_eqb k' k); constructor; auto.
Qed.

Lemma lines_to_html_nonempty buf : buf <> [] -> lines_to_html buf <> [].
Proof.
  destruct buf as [|l buf]; [congruence|]. intros _.
  unfold lines_to_html, line_to_html. simpl. discriminate.
Qed.

Lemma flush_ok st : dict_ok (l_map st) -> dict_ok (flush st).
Proof.
  intros H. unfold flush. destruct (l_key st) as [[|c k]|]; try exact H.
  destruct (l_buf st) as [|l buf] eqn:E; [exact H|].
  apply dict_set_ok; [exact H|discriminate|].
  apply lines_to_html_nonempty. discriminate.
Qed.

Lemma load_line_ok st line : dict_ok (l_map st) -> dict_ok (l_map (load_line st line)).
Proof.
  intros H. unfold load_line.
  destruct (is_some _); [exact H|].
  destruct (Re.match_ ABBR_DEF_RE line) as [[n g]|]; [now apply flush_ok|].
  destruct (l_key st); [|exact H].
  destruct (_ && _)%bool; exact H.
Qed.

Lemma load_from_ok lines : forall st, dict_ok (l_map st) -> dict_ok (load_from st lines).
Proof.
  unfold load_from. induction lines as [|l lines IH]; intros st H; simpl.
  - now apply flush_ok.
  - apply IH. now apply load_line_ok.
Qed.

(** The three cases of the body of the loop. *)
Lemma load_line_header st line k :
  header_key line = Some k -> load_line st line = Loader (flush st) (Some k) [].
Proof.
  unfold header_key, load_line, is_comment_open.
  destruct (is_some _); [discriminate|].
  destruct (Re.match_ ABBR_DEF_RE line) as [[n g]|]; [|discriminate].
  intros H. now inversion H.
Qed.

Lemma load_line_body m k buf line :
  header_key line = None ->
  load_line (Loader m (Some k) buf) line = Loader m (Some k) (buffer_step buf line).
Proof.
  unfold header_key, load_line, buffer_step, is_comment_open.
  destruct (is_some _); [reflexivity|].
  destruct (Re.match_ ABBR_DEF_RE line) as [[n g]|]; [discriminate|].
  intros _. simpl. destruct (_ && _)%bool; reflexivity.
Qed.

Lemma load_body body : forall m k buf,
  Forall (fun b => header_key b = None) body ->
  fold_left load_line body (Loader m (Some k) buf)
  = Loader m (Some k) (fold_left buffer_step body buf).
Proof.
  induction body as [|b body IH]; intros m k buf H; [reflexivity|].
  inversion H; subst. simpl. rewrite load_line_body by assumption. now apply IH.
Qed.

(** The loop changes the index by assignments only, whatever the index. *)
Lemma flush_overlay key buf m1 m2 base :
  (forall q, dict_get m1 q = overlay m2 base q) ->
  forall q, dict_get (flush (Loader m1 key buf)) q
            = overlay (flush (Loader m2 key buf)) base q.
Proof.
  intros H q. unfold flush. simpl.
  destruct key as [[|c k]|]; try apply H. destruct buf as [|l buf]; [apply H|].
  unfold overlay.
  destruct (list_eq_dec N.eq_dec q (c :: k)) as [->|Hq].
  - now rewrite !dict_get_set_same.
  - rewrite !dict_get_set_other by exact Hq. apply H.
Qed.

Lemma load_line_overlay key buf line m1 m2 base :
  (forall q, dict_get m1 q = overlay m2 base q) ->
  l_key (load_line (Loader m1 key buf) line) = l_key (load_line (Loader m2 key buf) line)
  /\ l_buf (load_line (Loader m1 key buf) line) = l_buf (load_line (Loader m2 key buf) line)
  /\ forall q, dict_get (l_map (load_line (Loader m1 key buf) line)) q
               = overlay (l_map (load_line (Loader m2 key buf) line)) base q.
Proof.
  intros H. unfold load_line. simpl.
  destruct (is_some _); [auto|].
  destruct (Re.match_ ABBR_DEF_RE line) as [[n g]|].
  - simpl. repeat split. now apply flush_overlay.
  - destruct key; [|auto]. destruct (_ && _)%bool; auto.
Qed.

Lemma load_from_overlay lines : forall key buf m1 m2 base,
  (forall q, dict_get m1 q = overlay m2 base q) ->
  forall q, dict_get (load_from (Loader m1 key buf) lines) q
            = overlay (load_from (Loader m2 key buf) lines) base q.
Proof.
  unfold load_from. induction lines as [|l lines IH]; intros key buf m1 m2 base H.
  - simpl. now apply flush_overlay.
  - simpl. destruct (load_line_overlay key buf l m1 m2 base H) as (Hk & Hb & Hm).
    destruct (load_line (Loader m1 key buf) l) as [m1' k1 b1].
    destruct (load_line (Loader m2 key buf) l) as [m2' k2 b2].
    simpl in *. subst k2 b2. now apply IH.
Qed.

(** The part of the file after a block adds its own items to what the
    part before has stored. *)
Lemma load_from_block_end st post q :
  block_end post ->
  dict_get (load_from st post) q = overlay (load_lines post) (flush st) q.
Proof.
  intros [->|(h & post' & -> & Hh)].
  - reflexivity.
  - destruct (header_key h) as [k2|] eqn:E; [|congruence].
    unfold load_lines, load_from. simpl. rewrite !(load_line_header _ h k2 E).
    apply (load_from_overlay post' (Some k2) [] _ _ (flush st)).
    intros q'. reflexivity.
Qed.

Lemma load_lines_block pre hdr k body post q :
  header_key hdr = Some k ->
  Forall (fun b => header_key b = None) body ->
  block_end post ->
  dict_get (load_lines (pre ++ hdr :: body ++ post)) q
  = overlay (load_lines post)
      (flush (Loader (load_lines pre) (Some k) (block_buffer body))) q.
Proof.
  intros Hh Hbody Hpost. unfold load_lines at 1. unfold load_from.
  rewrite fold_left_app. cbn [fold_left]. rewrite (load_line_header _ hdr k Hh).
  rewrite fold_left_app, load_body by exact Hbody.
  apply (load_from_block_end _ post q Hpost).
Qed.

(** C6.  When the file defines a key in a block with a body that is not
    empty, and no later block defines the key, the index holds for the key
    the markup of that block, whatever the blocks before it have stored: a
    later block for a key replaces an earlier one. *)
Theorem later_block_replaces (text : str) (pre body post : list str) (hdr k : str) :
  definition_lines text = pre ++ hdr :: body ++ post ->
  header_key hdr = Some k -> k <> [] ->
  Forall (fun b => header_key b = None) body ->
  block_buffer body <> [] ->
  block_end post ->
  dict_get (load_lines post) k = None ->
  dict_get (_load_abbrs text) k = Some (lines_to_html (block_buffer body)).
Proof.
  intros E Hh Hk Hbody Hbuf Hpost Hlater. unfold _load_abbrs. rewrite E.
  rewrite (load_lines_block pre hdr k body post k Hh Hbody Hpost).
  unfold overlay. rewrite Hlater. unfold flush. simpl.
  destruct k as [|c k]; [congruence|].
  destruct (block_buffer body) as [|l buf] eqn:Eb; [congruence|].
  apply dict_get_set_same.
Qed.

Lemma later_block_replaces_witness :
  dict_get (_load_abbrs (lit "*[VAT]:" ++ [10%N] ++ lit "first" ++ [10%N]
                           ++ lit "*[VAT]: " ++ [10%N] ++ lit "second" ++ [10%N]))
           (lit "VAT")
  = Some (lines_to_html [lit "second"]).
Proof.
  apply (later_block_replaces _ [lit "*[VAT]:"; lit "first"] [lit "second"] []
           (lit "*[VAT]: ") (lit "VAT")).
  - reflexivity.
  - reflexivity.
  - discriminate.
  - repeat constructor.
  - discriminate.
  - left. reflexivity.
  - reflexivity.
Defined.

(** A line [*[t]sp1:sp2], with a text [t] that is not empty and has no
    closing bracket and white space [sp1] and [sp2], is a header, and its key
    is [t] without the white space around it. *)
Lemma header_key_shape t sp1 sp2 :
  t <> [] -> forallb (fun c => negb (N.eqb c 93)) t = true ->
  forallb Py.isspace sp1 = true -> forallb Py.isspace sp2 = true ->
  header_key (lit "*[" ++ t ++ lit "]" ++ sp1 ++ lit ":" ++ sp2) = Some (Py.strip t).
Proof.
  intros Ht Hnb H1 H2. destruct t as [|c t]; [congruence|]. clear Ht.
  simpl in Hnb. apply andb_prop in Hnb. destruct Hnb as [Hc Hnb].
  unfold header_key.
  assert (is_comment_open (lit "*[" ++ (c :: t) ++ lit "]" ++ sp1 ++ lit ":" ++ sp2) = false) as ->.
  { unfold is_comment_open.
    assert (forall line, hd_in (N.eqb 60) (Py.lstrip line) = false ->
              Re.match_ COMMENT_OPEN_RE line = None) as E.
    { intros line Hl.
      etransitivity;
        [symmetry; apply (search_bol (Re.Seq ws (Re.Seq (Re.Lit (lit "<!--")) Re.Eps)))|].
      apply (rule_fail (N.eqb 60) (Re.Lit (lit "<!--")) [] line); [| |exact Hl].
      - apply (starts_in_lit 60%N (lit "!--")).
      - intros d. now apply eqb_not_space. }
    rewrite E; reflexivity. }
  assert (Re.match_ ABBR_DEF_RE (lit "*[" ++ (c :: t) ++ lit "]" ++ sp1 ++ lit ":" ++ sp2)
          = Some (length (lit "*[" ++ (c :: t) ++ lit "]" ++ sp1 ++ lit ":" ++ sp2),
                  Some (c :: t))) as ->; [|reflexivity].
  unfold Re.match_, Re.attempt, ABBR_DEF_RE, Re.seq. cbn [fold_right Re.run].
  rewrite strip_prefix_app. change ((c :: t) ++ ?x) with (c :: (t ++ x)).
  cbv iota beta. rewrite Hc.
  apply star_exact; [exact Hnb|reflexivity|].
  change (lit "]" ++ ?x) with (93%N :: x). cbn [Py.strip_prefix N.eqb Pos.eqb].
  apply star_exact; [exact H1|reflexivity|].
  change (lit ":" ++ ?x) with (58%N :: x). cbn [Py.strip_prefix N.eqb Pos.eqb].
  rewrite <- (app_nil_r sp2).
  apply star_exact; [exact H2|reflexivity|].
  cbn [Re.run andb].
  change (length (@nil char)) with 0. rewrite Nat.sub_0_r.
  change (c :: t ++ ?x) with ((c :: t) ++ x).
  rewrite length_app_sub, firstn_length_app. reflexivity.
Qed.

Lemma is_blank_head c t : is_blank (c :: t) = true -> Py.isspace c = true.
Proof.
  unfold is_blank, Py.strip, Py.lstrip. simpl.
  destruct (Py.isspace c) eqn:E; [reflexivity|].
  simpl. rewrite E. destruct (Py.rstrip t); discriminate.
Qed.

(** A blank line is not a header, and it does not open a buffer. *)
Lemma header_key_blank b : is_blank b = true -> header_key b = None.
Proof.
  intros H. unfold header_key. destruct (is_comment_open b); [reflexivity|].
  assert (Re.match_ ABBR_DEF_RE b = None) as ->; [|reflexivity].
  unfold Re.match_, Re.attempt, ABBR_DEF_RE, Re.seq.
  change (lit "*[") with [42%N; 91%N]. cbn [fold_right Re.run].
  destruct b as [|c t]; [reflexivity|].
  apply is_blank_head in H. cbn [Py.strip_prefix].
  destruct (N.eqb_spec 42 c) as [<-|]; [discriminate H|reflexivity].
Qed.

Lemma block_buffer_blank blanks :
  forallb is_blank blanks = true -> block_buffer blanks = [].
Proof.
  unfold block_buffer. induction blanks as [|b blanks IH]; intros H; [reflexivity|].
  simpl in H. apply andb_prop in H. destruct H as [Hb H]. simpl.
  unfold buffer_step at 2. rewrite Hb. simpl.
  destruct (is_comment_open b); now apply IH.
Qed.

Lemma flush_flush st k : flush (Loader (flush st) k []) = flush st.
Proof. unfold flush at 1. simpl. destruct k as [[|? ?]|]; reflexivity. Qed.

(** C7.  Every key of the index that [_load_abbrs] returns has a document
    that is not empty (and is not empty itself).  A block whose body is
    blank lines only stores nothing: the index is the one of the file without
    that block.  The block at the end of the file is stored by the rule of
    the blocks before it: a header added after it changes nothing. *)
Theorem stored_documents_nonempty (text : str) :
  (forall k v, In (k, v) (_load_abbrs text) -> k <> [] /\ v <> [])
  /\ (forall k v, dict_get (_load_abbrs text) k = Some v -> v <> [])
  /\ (forall pre hdr blanks post,
        definition_lines text = pre ++ hdr :: blanks ++ post ->
        header_key hdr <> None ->
        forallb is_blank blanks = true ->
        block_end post ->
        _load_abbrs text = load_lines (pre ++ post))
  /\ (forall h, header_key h <> None ->
        load_lines (definition_lines text ++ [h]) = _load_abbrs text).
Proof.
  assert (dict_ok (_load_abbrs text)) as Hok.
  { apply load_from_ok. constructor. }
  split; [|split; [|split]].
  - intros k v H. unfold dict_ok in Hok. rewrite Forall_forall in Hok.
    apply (Hok (k, v) H).
  - intros k v H. apply dict_get_In in H. unfold dict_ok in Hok.
    rewrite Forall_forall in Hok. apply (Hok (k, v) H).
  - intros pre hdr blanks post E Hh Hb Hpost. unfold _load_abbrs. rewrite E.
    destruct (header_key hdr) as [k|] eqn:Ek; [|congruence].
    unfold load_lines, load_from. rewrite !fold_left_app. cbn [fold_left].
    rewrite (load_line_header _ hdr k Ek). rewrite fold_left_app.
    rewrite load_body
      by (apply Forall_forall; intros b Hin; apply header_key_blank;
          rewrite forallb_forall in Hb; now apply Hb).
    fold (block_buffer blanks). rewrite (block_buffer_blank blanks Hb).
    destruct Hpost as [->|(h & post' & -> & Hh')].
    + simpl. apply flush_flush.
    + destruct (header_key h) as [k2|] eqn:E2; [|congruence].
      cbn [fold_left]. rewrite !(load_line_header _ h k2 E2).
      now rewrite flush_flush.
  - intros h Hh. destruct (header_key h) as [k|] eqn:Ek; [|congruence].
    unfold _load_abbrs, load_lines, load_from. rewrite fold_left_app.
    cbn [fold_left]. rewrite (load_line_header _ h k Ek).
    apply flush_flush.
Qed.

Lemma stored_documents_nonempty_witness :
  _load_abbrs (lit "*[GST]:" ++ [10%N] ++ lit "tax" ++ [10%N]
                 ++ lit "*[VAT]:" ++ [10%N] ++ lit "  " ++ [10%N; 10%N])
  = load_lines [lit "*[GST]:"; lit "tax"].
Proof.
  apply (proj1 (proj2 (proj2 (stored_documents_nonempty _)))
           [lit "*[GST]:"; lit "tax"] (lit "*[VAT]:") [lit "  "; []] []).
  - reflexivity.
  - discriminate.
  - reflexivity.
  - left. reflexivity.
Defined.

(** ** The pattern of the keys *)

Section KeyPattern.
Context {A : Type}.

(** The alternation of literal keys tries the keys in their order. *)
Lemma run_alts_lit (k0 : str) (keys : list str) pv s g
    (K : option char -> str -> option str -> option A) :
  Re.run (Re.alts (List.map Re.Lit (k0 :: keys))) pv s g K
  = fold_right
      (fun k acc =>
         match match Py.strip_prefix k s with
               | Some s' => K (Re.last_char pv k) s' g
               | None => None
               end with
         | Some a => Some a
         | None => acc
         end)
      None (k0 :: keys).
Proof.
  revert k0. induction keys as [|k1 keys IH]; intros k0.
  - simpl. destruct (Py.strip_prefix k0 s); [|reflexivity].
    now destruct (K _ _ _).
  - change (Re.alts (List.map Re.Lit (k0 :: k1 :: keys)))
      with (Re.Alt (Re.Lit k0) (Re.alts (List.map Re.Lit (k1 :: keys)))).
    cbn [Re.run fold_right]. rewrite IH. reflexivity.
Qed.

End KeyPattern.

Lemma startswith_inv s k : Py.startswith s k = true -> exists s', s = k ++ s'.
Proof.
  unfold Py.startswith. destruct (Py.strip_prefix k s) as [s'|] eqn:E; [|discriminate].
  intros _. exists s'. now apply strip_prefix_inv.
Qed.

Lemma key_fits_step adv pv s k (acc : option (nat * option str)) :
  match
    match Py.strip_prefix k s with
    | Some s' =>
        Re.run (Re.Seq (Re.NotAhead Py.ascii_alnum) Re.Eps) (Re.last_char pv k) s'
          (Some (firstn (length s - length s') s))
          (fun _ s'' g =>
             let n := length s - length s'' in
             if adv && Nat.eqb n 0 then None else Some (n, g))
    | None => None
    end
  with
  | Some a => Some a
  | None => acc
  end
  = if key_fits adv s k then Some (length k, Some k) else acc.
Proof.
  unfold key_fits, Py.startswith.
  destruct (Py.strip_prefix k s) as [s'|] eqn:E; [|reflexivity].
  apply strip_prefix_inv in E. subst s.
  rewrite skipn_length_app, length_app_sub, firstn_length_app.
  cbn [Re.run]. destruct s' as [|d s']; cbn [hd_in];
    try destruct (Py.ascii_alnum d); cbn [negb andb];
    rewrite ?length_app_sub;
    destruct (adv && Nat.eqb (length k) 0)%bool; reflexivity.
Qed.

Lemma fold_right_first {X B : Type} (f : X -> option B -> option B)
    (p : X -> bool) (h : X -> B) :
  (forall k acc, f k acc = if p k then Some (h k) else acc) ->
  forall l, fold_right f None l = option_map h (find p l).
Proof.
  intros Hf. induction l as [|k l IH]; [reflexivity|].
  simpl. rewrite Hf, IH. now destruct (p k).
Qed.

(** One attempt of the pattern of the keys: the first key, in the order of
    the pattern, that is at the position with nothing alphanumeric around. *)
Lemma attempt_key_pattern keys adv pv s :
  keys <> [] ->
  Re.attempt (key_pattern keys) adv pv s
  = option_map (fun k => (length k, Some k)) (accept adv keys pv s).
Proof.
  intros Hne. destruct keys as [|k0 keys]; [congruence|]. clear Hne.
  unfold Re.attempt, key_pattern, Re.seq, accept. cbn [fold_right Re.run].
  destruct pv as [c|]; simpl behind_ok.
  - destruct (Py.ascii_alnum c); [reflexivity|]. simpl negb. cbv iota.
    rewrite run_alts_lit.
    apply (fold_right_first _ (key_fits adv s) (fun k => (length k, Some k))).
    intros k acc. apply (key_fits_step adv (Some c)).
  - rewrite run_alts_lit.
    apply (fold_right_first _ (key_fits adv s) (fun k => (length k, Some k))).
    intros k acc. apply (key_fits_step adv None).
Qed.

(** [sorted_by_len] keeps the keys and puts the longest first. *)
Lemma In_insert_by_len x y l : In x (insert_by_len y l) <-> x = y \/ In x l.
Proof.
  induction l as [|z l IH]; simpl.
  - intuition.
  - destruct (length y <? length z); simpl; rewrite ?IH; intuition.
Qed.

Lemma In_sorted_by_len x l : In x (sorted_by_len l) <-> In x l.
Proof.
  induction l as [|y l IH]; simpl; [tauto|].
  rewrite In_insert_by_len, IH. intuition.
Qed.

Lemma insert_by_len_sorted y l :
  StronglySorted (fun a b : str => length b <= length a) l ->
  StronglySorted (fun a b : str => length b <= length a) (insert_by_len y l).
Proof.
  induction 1 as [|z l Hl IH Hz]; simpl.
  - repeat constructor.
  - destruct (Nat.ltb_spec (length y) (length z)).
    + constructor; [exact IH|]. apply Forall_forall. intros x Hx.
      apply In_insert_by_len in Hx. destruct Hx as [->|Hx]; [lia|].
      rewrite Forall_forall in Hz. now apply Hz.
    + constructor; [now constructor|]. constructor; [lia|].
      rewrite Forall_forall in *. intros x Hx. specialize (Hz x Hx). lia.
Qed.

Lemma sorted_by_len_sorted l :
  StronglySorted (fun a b : str => length b <= length a) (sorted_by_len l).
Proof.
  induction l as [|y l IH]; simpl; [constructor|]. now apply insert_by_len_sorted.
Qed.

(** The first key that fits, in a list with the longest first, is a longest
    key that fits. *)
Lemma find_longest (f : str -> bool) l k :
  StronglySorted (fun a b : str => length b <= length a) l ->
  find f l = Some k ->
  In k l /\ f k = true
  /\ forall k', In k' l -> f k' = true -> length k' <= length k.
Proof.
  induction 1 as [|z l Hl IH Hz]; simpl; [discriminate|].
  destruct (f z) eqn:Fz.
  - intros E. inversion E; subst z. split; [now left|]. split; [exact Fz|].
    intros k' [->|Hk'] _; [lia|]. rewrite Forall_forall in Hz. now apply Hz.
  - intros E. destruct (IH E) as (Hin & Hf & Hmax). split; [now right|].
    split; [exact Hf|]. intros k' [->|Hk'] Fk'; [congruence|]. now apply Hmax.
Qed.

Lemma find_some_fits (f : str -> bool) l k :
  In k l -> f k = true -> find f l <> None.
Proof.
  induction l as [|z l IH]; simpl; [tauto|].
  destruct (f z) eqn:Fz; [discriminate|].
  intros [->|H] Fk; [congruence|]. now apply IH.
Qed.

Lemma key_re_plugin_of m r :
  key_re (plugin_of m) = Some r ->
  sorted_by_len (dict_keys m) <> [] /\ r = key_pattern (sorted_by_len (dict_keys m)).
Proof.
  destruct m as [|[k v] m]; simpl; [discriminate|].
  intros E. inversion E. split; [|reflexivity].
  intros H. assert (In k (sorted_by_len (dict_keys ((k, v) :: m)))) as Hin.
  { apply In_sorted_by_len. now left. }
  simpl in Hin. rewrite H in Hin. exact Hin.
Qed.

(** The match of the pattern of an index at a position: a key of the index
    that fits there, the longest of those that fit. *)
Lemma attempt_key_re m r adv pv s n g :
  key_re (plugin_of m) = Some r ->
  Re.attempt r adv pv s = Some (n, g) ->
  exists k, g = Some k /\ n = length k /\ In k (dict_keys m)
    /\ behind_ok pv = true /\ key_fits adv s k = true
    /\ forall k', In k' (dict_keys m) -> key_fits adv s k' = true ->
                  length k' <= length k.
Proof.
  intros Hr H. apply key_re_plugin_of in Hr. destruct Hr as [Hne ->].
  rewrite attempt_key_pattern in H by exact Hne. unfold accept in H.
  destruct (behind_ok pv); [|discriminate].
  destruct (find _ _) as [k|] eqn:F; [|discriminate].
  simpl in H. inversion H; subst n g.
  apply find_longest in F; [|apply sorted_by_len_sorted].
  destruct F as (Hin & Hf & Hmax). exists k.
  rewrite In_sorted_by_len in Hin. repeat split; auto.
  intros k' Hk'. apply Hmax. now apply In_sorted_by_len.
Qed.

(** A key of the index that fits at a position is matched there, or a
    longer one is. *)
Lemma attempt_key_re_fits m r adv pv s k :
  key_re (plugin_of m) = Some r ->
  In k (dict_keys m) -> behind_ok pv = true -> key_fits adv s k = true ->
  exists k', Re.attempt r adv pv s = Some (length k', Some k')
             /\ length k <= length k'.
Proof.
  intros Hr Hin Hpv Hfit.
  destruct (Re.attempt r adv pv s) as [[n g]|] eqn:E.
  - destruct (attempt_key_re m r adv pv s n g Hr E) as (k' & -> & -> & _ & _ & _ & Hmax).
    exists k'. split; [reflexivity|]. now apply Hmax.
  - exfalso. apply key_re_plugin_of in Hr. destruct Hr as [Hne ->].
    rewrite attempt_key_pattern in E by exact Hne. unfold accept in E.
    rewrite Hpv in E.
    destruct (find _ _) eqn:F; [discriminate|].
    revert F. apply find_some_fits with (k := k); [|exact Hfit].
    now apply In_sorted_by_len.
Qed.


Lemma key_fits_firstn adv s k : key_fits adv s k = true -> firstn (length k) s = k.
Proof.
  unfold key_fits. intros H. apply andb_prop in H. destruct H as [H _].
  apply andb_prop in H. destruct H as [H _]. apply startswith_inv in H.
  destruct H as [s' ->]. apply firstn_length_app.
Qed.

Lemma dict_get_keys m k v : dict_get m k = Some v -> In k (dict_keys m).
Proof.
  intros H. apply dict_get_In in H. unfold dict_keys.
  change k with (fst (k, v)). now apply in_map.
Qed.

(** C3 (as amended).  At a position where a key of the index fits (it is
    there, with no ASCII letter or digit before or after it), the pattern
    matches the longest key of the index that fits there, never a shorter
    one: with the keys AB and ABC, in either order, the text ABC becomes one
    marker for ABC.  The pieces of the scan are the text, every character in
    one piece, and every match is replaced once. *)
Theorem longest_key_first :
  (forall m r pv s short long,
     key_re (plugin_of m) = Some r ->
     In short (dict_keys m) -> In long (dict_keys m) ->
     length short < length long ->
     behind_ok pv = true -> key_fits false s long = true ->
     exists k, Re.attempt r false pv s = Some (length k, Some k)
       /\ In k (dict_keys m) /\ key_fits false s k = true
       /\ length long <= length k /\ k <> short
       /\ forall k', In k' (dict_keys m) -> key_fits false s k' = true ->
                     length k' <= length k)
  /\ (forall v1 v2, v1 <> [] -> v2 <> [] ->
        _replace_in_plain (plugin_of [(lit "AB", v1); (lit "ABC", v2)]) (lit "ABC")
        = marker v2 (lit "ABC")
        /\ _replace_in_plain (plugin_of [(lit "ABC", v2); (lit "AB", v1)]) (lit "ABC")
           = marker v2 (lit "ABC"))
  /\ (forall m r text,
        key_re (plugin_of m) = Some r ->
        let pieces := Re.scan r 0 None text in
        concat (List.map piece_text pieces) = text
        /\ _replace_in_plain (plugin_of m) text
           = concat (List.map (Re.sub_piece (repl (plugin_of m))) pieces)
        /\ Forall (fun x => match x with
                            | Re.Plain _ => True
                            | Re.Hit w g => g = Some w /\ In w (dict_keys m)
                            end) pieces).
Proof.
  split; [|split].
  - intros m r pv s short long Hr Hs Hl Hlen Hpv Hfit.
    destruct (attempt_key_re_fits m r false pv s long Hr Hl Hpv Hfit) as (k & E & Hk).
    destruct (attempt_key_re m r false pv s _ _ Hr E) as (k0 & E0 & _ & Hin & _ & Hf & Hmax).
    inversion E0; subst k0. exists k. repeat split; auto.
    intros ->. lia.
  - intros v1 v2 H1 H2. destruct v1 as [|c1 v1]; [congruence|].
    destruct v2 as [|c2 v2]; [congruence|].
    split; unfold _replace_in_plain, Re.sub; cbn [plugin_of key_re].
    + replace (Re.scan _ 0 None (lit "ABC"))
        with [Re.Hit (lit "ABC") (Some (lit "ABC"))] by (vm_compute; reflexivity).
      cbn [List.map concat Re.sub_piece]. rewrite app_nil_r. reflexivity.
    + replace (Re.scan _ 0 None (lit "ABC"))
        with [Re.Hit (lit "ABC") (Some (lit "ABC"))] by (vm_compute; reflexivity).
      cbn [List.map concat Re.sub_piece]. rewrite app_nil_r. reflexivity.
  - intros m r text Hr pieces. split; [apply (scan_text r text 0 None)|].
    split; [unfold _replace_in_plain; rewrite Hr; reflexivity|].
    apply (scan_hits r (fun w g => g = Some w /\ In w (dict_keys m))).
    intros adv pv s n g E.
    destruct (attempt_key_re m r adv pv s n g Hr E) as (k & -> & -> & Hin & _ & Hf & _).
    rewrite (key_fits_firstn adv s k Hf). auto.
Qed.

Lemma longest_key_first_witness :
  _replace_in_plain
    (plugin_of [(lit "AB", lines_to_html [lit "a b"]); (lit "ABC", lines_to_html [lit "a b c"])])
    (lit "ABC")
  = marker (lines_to_html [lit "a b c"]) (lit "ABC").
Proof.
  apply (proj1 (proj2 longest_key_first)); discriminate.
Defined.

(** C3 (as stated) fails.  With the keys GST and GST-2, the text GST-2A holds
    the longer key at its start, and the match there is the shorter key: a
    marker for GST, then the characters -2A.  The letter after GST-2 rules
    the longer key out, and the hyphen after GST does not rule out the
    shorter one. *)
Lemma shorter_key_where_longer_occurs :
  Py.startswith (lit "GST-2A") (lit "GST-2") = true
  /\ _replace_in_plain
       (plugin_of (_load_abbrs (lit "*[GST]:" ++ [10%N] ++ lit "x" ++ [10%N]
                                  ++ lit "*[GST-2]:" ++ [10%N] ++ lit "y")))
       (lit "GST-2A")
     = marker (lines_to_html [lit "x"]) (lit "GST") ++ lit "-2A".
Proof. split; vm_compute; reflexivity. Qed.

Lemma sub_from_hit r rp pv c w s g :
  Re.attempt r false pv ((c :: w) ++ s) = Some (length (c :: w), g) ->
  sub_from r rp pv ((c :: w) ++ s)
  = rp (c :: w) g ++ sub_from r rp (Re.last_char pv (c :: w)) s.
Proof. intros H. unfold sub_from. now rewrite (scan_hit r pv c w s g H). Qed.

Lemma sub_from_miss r rp pv c s :
  Re.attempt r false pv (c :: s) = None ->
  sub_from r rp pv (c :: s) = c :: sub_from r rp (Some c) s.
Proof. intros H. unfold sub_from. now rewrite (scan_miss r pv c s H). Qed.

(** C4 (as amended).  A match of the pattern of the index has no ASCII
    letter or digit before it or after it.  The other way round, at a
    position that the scan reaches, a key of the index with no ASCII letter
    or digit around it is replaced by its marker when no longer key of the
    index fits at the same position; and where an ASCII letter or digit is
    before the position, or no key fits, the character is copied and the
    scan goes on after it.  With the key AB, XABY stays as it is, and AB
    between two CJK characters becomes a marker. *)
Theorem boundary_rule :
  (forall m r pv s n g,
     key_re (plugin_of m) = Some r ->
     Re.attempt r false pv s = Some (n, g) ->
     behind_ok pv = true
     /\ hd_in Py.ascii_alnum (skipn n s) = false
     /\ g = Some (firstn n s) /\ In (firstn n s) (dict_keys m))
  /\ (forall m r pv k v post,
        key_re (plugin_of m) = Some r ->
        dict_get m k = Some v -> k <> [] -> v <> [] ->
        behind_ok pv = true -> hd_in Py.ascii_alnum post = false ->
        (forall k', In k' (dict_keys m) -> key_fits false (k ++ post) k' = true ->
                    length k' <= length k) ->
        sub_from r (repl (plugin_of m)) pv (k ++ post)
        = marker v k ++ sub_from r (repl (plugin_of m)) (Re.last_char pv k) post)
  /\ (forall m r pv c s,
        key_re (plugin_of m) = Some r ->
        behind_ok pv = false
        \/ (forall k, In k (dict_keys m) -> key_fits false (c :: s) k = false) ->
        sub_from r (repl (plugin_of m)) pv (c :: s)
        = c :: sub_from r (repl (plugin_of m)) (Some c) s)
  /\ (forall m r text,
        key_re (plugin_of m) = Some r ->
        _replace_in_plain (plugin_of m) text
        = sub_from r (repl (plugin_of m)) None text)
  /\ _replace_in_plain (plugin_of index_AB) (lit "XABY") = lit "XABY"
  /\ _replace_in_plain (plugin_of index_AB) ([20013%N] ++ lit "AB" ++ [25991%N])
     = [20013%N] ++ marker (lines_to_html [lit "a b"]) (lit "AB") ++ [25991%N].
Proof.
  split; [|split; [|split; [|split; [|split; vm_compute; reflexivity]]]].
  - intros m r pv s n g Hr E.
    destruct (attempt_key_re m r false pv s n g Hr E) as (k & -> & -> & Hin & Hpv & Hf & _).
    rewrite (key_fits_firstn false s k Hf). repeat split; auto.
    unfold key_fits in Hf. apply andb_prop in Hf. destruct Hf as [Hf _].
    apply andb_prop in Hf. destruct Hf as [_ Hf].
    now destruct (hd_in Py.ascii_alnum (skipn (length k) s)).
  - intros m r pv k v post Hr Hget Hk Hv Hpv Hpost Hmax.
    assert (key_fits false (k ++ post) k = true) as Hfit.
    { unfold key_fits. rewrite startswith_app, skipn_length_app, Hpost. reflexivity. }
    pose proof (dict_get_keys m k v Hget) as Hin.
    destruct (attempt_key_re_fits m r false pv _ k Hr Hin Hpv Hfit) as (k' & E & Hle).
    destruct (attempt_key_re m r false pv _ _ _ Hr E) as (k0 & E0 & _ & Hin' & _ & Hf' & _).
    inversion E0; subst k0.
    assert (k' = k) as ->.
    { pose proof (Hmax k' Hin' Hf') as Hge.
      pose proof (key_fits_firstn false _ k' Hf') as E1.
      pose proof (key_fits_firstn false _ k Hfit) as E2.
      replace (length k') with (length k) in E1 by lia. congruence. }
    destruct k as [|c w]; [congruence|].
    rewrite (sub_from_hit r _ pv c w post _ E). f_equal.
    unfold repl. cbn [abbr_map plugin_of]. rewrite Hget.
    destruct v; [congruence|reflexivity].
  - intros m r pv c s Hr H. apply sub_from_miss.
    destruct (Re.attempt r false pv (c :: s)) as [[n g]|] eqn:E; [exfalso|reflexivity].
    destruct (attempt_key_re m r false pv _ n g Hr E) as (k & _ & _ & Hin & Hpv & Hf & _).
    destruct H as [H|H]; [congruence|]. rewrite (H k Hin) in Hf. discriminate.
  - intros m r text Hr. unfold _replace_in_plain. now rewrite Hr.
Qed.

Lemma boundary_rule_witness :
  sub_from (key_pattern [lit "AB"]) (repl (plugin_of index_AB)) (Some 20013%N)
    (lit "AB" ++ [25991%N])
  = marker (lines_to_html [lit "a b"]) (lit "AB")
      ++ sub_from (key_pattern [lit "AB"]) (repl (plugin_of index_AB))
           (Re.last_char (Some 20013%N) (lit "AB")) [25991%N].
Proof.
  apply (proj1 (proj2 boundary_rule) index_AB (key_pattern [lit "AB"])
           (Some 20013%N) (lit "AB") (lines_to_html [lit "a b"]) [25991%N]).
  - reflexivity.
  - reflexivity.
  - discriminate.
  - discriminate.
  - reflexivity.
  - reflexivity.
  - intros k' [<-|[]] _. apply le_n.
Defined.

(** C4 (as stated) fails.  With the key A-A, the text A-A-A holds the key at
    offset 2, between a hyphen and the end of the text, and that occurrence
    is not replaced: the match at offset 0 has passed it.  With the keys AB
    and AB-C, the text AB-C holds AB between the start and a hyphen, and
    the marker is the one of AB-C. *)
Lemma boundary_rule_not_iff :
  let tip := lines_to_html [lit "x"] in
  (skipn 2 (lit "A-A-A") = lit "A-A"
   /\ Py.ascii_alnum (nth 1 (lit "A-A-A") 0%N) = false
   /\ _replace_in_plain (plugin_of (_load_abbrs (lit "*[A-A]:" ++ [10%N] ++ lit "x")))
        (lit "A-A-A")
      = marker tip (lit "A-A") ++ lit "-A")
  /\ (firstn 2 (lit "AB-C") = lit "AB"
      /\ Py.ascii_alnum (nth 2 (lit "AB-C") 0%N) = false
      /\ _replace_in_plain
           (plugin_of (_load_abbrs (lit "*[AB]:" ++ [10%N] ++ lit "x" ++ [10%N]
                                      ++ lit "*[AB-C]:" ++ [10%N] ++ lit "x")))
           (lit "AB-C")
         = marker tip (lit "AB-C")).
Proof. repeat split; vm_compute; reflexivity. Qed.

(** ** The scenario of the specification *)

(** The definitions [*[GST]:], [第1條], [一、foo] and the page text
    [see GST for details] give one marker, with the two lines at the levels
    0 and 2. *)
Example end_to_end_GST :
  let defs := lit "*[GST]:" ++ [10%N] ++ [c_di] ++ lit "1" ++ [c_tiao] ++ [10%N]
                ++ [19968%N; c_comma] ++ lit "foo" ++ [10%N] in
  let tip := div_open 0 ++ [c_di] ++ lit "1" ++ [c_tiao] ++ lit "</div>"
               ++ div_open 2 ++ [19968%N; c_comma] ++ lit "foo" ++ lit "</div>" in
  _load_abbrs defs = [(lit "GST", tip)]
  /\ on_page_markdown (on_config (Some defs)) (lit "see GST for details")
     = lit "see " ++ marker tip (lit "GST") ++ lit " for details"
  /\ read_markup tip = [(0, [c_di] ++ lit "1" ++ [c_tiao]);
                        (2, [19968%N; c_comma] ++ lit "foo")].
Proof. repeat split; vm_compute; reflexivity. Qed.
(** ** Further properties of the line classifier *)

(** The characters of [str.isspace]. *)
Lemma isspace_cases c :
  Py.isspace c = true ->
  In c [9; 10; 11; 12; 13; 28; 29; 30; 31; 32; 133; 160; 5760; 8192; 8193;
        8194; 8195; 8196; 8197; 8198; 8199; 8200; 8201; 8202; 8232; 8233;
        8239; 8287; 12288]%N.
Proof.
  unfold Py.isspace, in_range. intros H.
  repeat (apply orb_prop in H; destruct H as [H|H]);
    repeat (apply andb_prop in H; destruct H as [? H]);
    repeat match goal with
           | E : N.leb _ _ = true |- _ => apply N.leb_le in E
           | E : N.eqb _ _ = true |- _ => apply N.eqb_eq in E
           end;
    simpl; lia.
Qed.

Lemma space_not_decimal c : Py.isspace c = true -> Py.isdecimal c = false.
Proof.
  intros H. apply isspace_cases in H.
  assert (forallb (fun c => negb (Py.isdecimal c))
            [9; 10; 11; 12; 13; 28; 29; 30; 31; 32; 133; 160; 5760; 8192; 8193;
             8194; 8195; 8196; 8197; 8198; 8199; 8200; 8201; 8202; 8232; 8233;
             8239; 8287; 12288]%N = true) as F by (vm_compute; reflexivity).
  rewrite forallb_forall in F. apply F in H. now apply negb_true_iff in H.
Qed.

Lemma decimal_not_space c : Py.isdecimal c = true -> Py.isspace c = false.
Proof.
  intros H. destruct (Py.isspace c) eqn:E; [|reflexivity].
  apply space_not_decimal in E. congruence.
Qed.

(** Whether a match exists does not depend on what the continuation
    returns, only on where it succeeds. *)
Lemma star_some_ext {A : Type} p (k1 k2 : option char -> str -> option A) :
  (forall pv s, is_some (k1 pv s) = is_some (k2 pv s)) ->
  forall s pv, is_some (Re.star p pv s k1) = is_some (Re.star p pv s k2).
Proof.
  intros H. induction s as [|c s IH]; intros pv; simpl; [apply H|].
  destruct (p c); [|apply H].
  specialize (IH (Some c)). specialize (H pv (c :: s)).
  destruct (Re.star p (Some c) s k1), (Re.star p (Some c) s k2);
    simpl in *; congruence.
Qed.

Lemma lazy_star_some_ext {A : Type} p (k1 k2 : option char -> str -> option A) :
  (forall pv s, is_some (k1 pv s) = is_some (k2 pv s)) ->
  forall s pv, is_some (Re.lazy_star p pv s k1) = is_some (Re.lazy_star p pv s k2).
Proof.
  intros H. induction s as [|c s IH]; intros pv; simpl.
  - specialize (H pv []). destruct (k1 pv []), (k2 pv []); simpl in *; congruence.
  - specialize (H pv (c :: s)). specialize (IH (Some c)).
    destruct (k1 pv (c :: s)), (k2 pv (c :: s)); simpl in *; try congruence.
    destruct (p c); [exact IH|reflexivity].
Qed.

Lemma run_some_ext {A : Type} r :
  forall (k1 k2 : option char -> str -> option str -> option A),
    (forall pv s g, is_some (k1 pv s g) = is_some (k2 pv s g)) ->
    forall pv s g, is_some (Re.run r pv s g k1) = is_some (Re.run r pv s g k2).
Proof.
  induction r; intros k1 k2 H pv s g; simpl; auto.
  - destruct (Py.strip_prefix w s); auto.
  - destruct s as [|c s]; auto. destruct (p c); auto.
  - destruct pv; auto.
  - destruct s as [|c [|d s]]; auto. destruct (N.eqb c 10); auto.
  - destruct pv as [c|]; auto. destruct (p c); auto.
  - destruct s as [|c s]; auto. destruct (p c); auto.
  - specialize (IHr1 k1 k2 H pv s g). specialize (IHr2 k1 k2 H pv s g).
    destruct (Re.run r1 pv s g k1), (Re.run r1 pv s g k2);
      simpl in *; congruence.
  - specialize (IHr k1 k2 H pv s g). specialize (H pv s g).
    destruct (Re.run r pv s g k1), (Re.run r pv s g k2); simpl in *; congruence.
  - apply star_some_ext. auto.
  - destruct s as [|c s]; auto. destruct (p c); auto. apply star_some_ext. auto.
  - apply lazy_star_some_ext. auto.
Qed.

(** A greedy repetition that starts in a run of [p] which what follows
    cannot start in behaves as from the end of that run. *)
Lemma star_prefix {A : Type} p (k : option char -> str -> option A) u s :
  (forall pv1 pv2 t, k pv1 t = k pv2 t) ->
  (forall pv c t, p c = true -> k pv (c :: t) = None) ->
  forallb p u = true ->
  forall pv pv', Re.star p pv (u ++ s) k = Re.star p pv' s k.
Proof.
  intros Hpv Hk. induction u as [|c u IH]; intros Hu pv pv'.
  - simpl. now apply star_pv.
  - simpl in Hu. apply andb_prop in Hu. destruct Hu as [Hc Hu].
    simpl. rewrite Hc. rewrite (IH Hu (Some c) pv').
    destruct (Re.star p pv' s k); [reflexivity|]. now apply Hk.
Qed.

(** White space before a line does not change whether a rule [^\s*r...]
    matches it, when [r] cannot start with white space and the rule does
    not look behind. *)
Lemma rule_indent q r rs u line :
  @starts_in (nat * option str) q r ->
  (forall c, Py.isspace c = true -> q c = false) ->
  no_lookbehind (Re.seq (r :: rs)) = true ->
  forallb Py.isspace u = true ->
  is_some (Re.search (Re.seq (Re.Bol :: ws :: r :: rs)) (u ++ line))
  = is_some (Re.search (Re.seq (Re.Bol :: ws :: r :: rs)) line).
Proof.
  intros Hr Hq Hnl Hu. unfold Re.seq in *. simpl fold_right in *.
  rewrite !search_bol. unfold Re.match_, Re.attempt. simpl.
  rewrite (star_prefix Py.isspace _ u line) with (pv' := None); auto.
  - apply star_some_ext. intros pv s.
    apply (run_some_ext (Re.Seq r (fold_right Re.Seq Re.Eps rs))).
    intros; reflexivity.
  - intros pv1 pv2 t.
    apply (run_pv (Re.Seq r (fold_right Re.Seq Re.Eps rs)) Hnl).
    intros; reflexivity.
  - intros pv c t Hc. apply Hr. simpl. now apply Hq.
Qed.

(** X1.  White space before a line does not change its level: every rule
    of [LEVEL_RULES] skips it. *)
Theorem detect_level_indent (u line : str) :
  forallb Py.isspace u = true ->
  detect_level (u ++ line) = detect_level line.
Proof.
  intros Hu. unfold detect_level, LEVEL_RULES. cbv [detect_level_in].
  rewrite !(rule_indent (N.eqb c_di) (Re.Lit [c_di]) _ u line);
    try solve [apply starts_in_lit | intros c; now apply eqb_not_space
              | reflexivity | exact Hu].
  rewrite !(rule_indent cjk_numeral (Re.Plus cjk_numeral) _ u line);
    try solve [apply starts_in_plus | apply cjk_numeral_not_space
              | reflexivity | exact Hu].
  rewrite !(rule_indent (N.eqb c_lparen) (Re.Lit [c_lparen]) _ u line);
    try solve [apply starts_in_lit | intros c; now apply eqb_not_space
              | reflexivity | exact Hu].
  rewrite !(rule_indent (N.eqb 40) (Re.Lit (lit "(")) _ u line);
    try solve [apply starts_in_lit | intros c; now apply eqb_not_space
              | reflexivity | exact Hu].
  rewrite !(rule_indent Py.isdecimal digits _ u line);
    try solve [apply starts_in_plus | apply space_not_decimal
              | reflexivity | exact Hu].
Qed.

Lemma detect_level_indent_witness :
  detect_level (lit "   " ++ lit "(a) x") = detect_level (lit "(a) x").
Proof. apply detect_level_indent. reflexivity. Defined.

(** *** Steps of a rule on a line of a known shape *)

Lemma lstrip_by_app p u rest :
  forallb p u = true -> hd_in p rest = false -> Py.lstrip_by p (u ++ rest) = rest.
Proof.
  intros Hu Hr. induction u as [|c u IH]; simpl in *.
  - destruct rest as [|e rest]; [reflexivity|]. simpl in *. now rewrite Hr.
  - apply andb_prop in Hu. destruct Hu as [Hc Hu]. rewrite Hc. auto.
Qed.

Lemma eqb_not_decimal x c :
  Py.isdecimal x = false -> Py.isdecimal c = true -> N.eqb x c = false.
Proof.
  intros Hx Hc. destruct (N.eqb x c) eqn:E; [|reflexivity].
  apply N.eqb_eq in E. congruence.
Qed.

Lemma eqb_not_cjk_numeral x c :
  cjk_numeral x = false -> cjk_numeral c = true -> N.eqb x c = false.
Proof.
  intros Hx Hc. destruct (N.eqb x c) eqn:E; [|reflexivity].
  apply N.eqb_eq in E. congruence.
Qed.

(** A greedy repetition fails when what follows fails wherever the
    repetition can stop. *)
Lemma star_fail_all {A : Type} p (k : option char -> str -> option A) u rest :
  forallb p u = true -> hd_in p rest = false ->
  (forall u2 pv', forallb p u2 = true -> k pv' (u2 ++ rest) = None) ->
  forall pv, Re.star p pv (u ++ rest) k = None.
Proof.
  intros Hu Hr Hk. induction u as [|c u IH]; intros pv.
  - simpl. destruct rest as [|e rest]; simpl.
    + apply (Hk [] pv). reflexivity.
    + simpl in Hr. rewrite Hr. apply (Hk [] pv). reflexivity.
  - pose proof Hu as Hu'. simpl in Hu. apply andb_prop in Hu.
    destruct Hu as [Hc Hu]. simpl. rewrite Hc. rewrite (IH Hu).
    apply (Hk (c :: u) pv Hu').
Qed.

Section RuleSteps.
Context {A : Type}.
Implicit Types (k : option char -> str -> option str -> option A).

Lemma starts_in_seq q r rs : @starts_in A q r -> @starts_in A q (Re.seq (r :: rs)).
Proof. intros H pv s g k Hs. unfold Re.seq. simpl. now apply H. Qed.

Lemma starts_in_ws q rs :
  @starts_in A q (Re.seq rs) ->
  @starts_in A (fun c => Py.isspace c || q c) (Re.seq (ws :: rs)).
Proof.
  intros H pv s g k Hs. unfold Re.seq in *. simpl.
  destruct s as [|c s]; simpl in *.
  - now apply H.
  - apply orb_false_elim in Hs. destruct Hs as [Hc Hq]. rewrite Hc.
    now apply H.
Qed.

Lemma run_lit_step x rs pv s g k :
  Re.run (Re.seq (Re.Lit [x] :: rs)) pv (x :: s) g k
  = Re.run (Re.seq rs) (Some x) s g k.
Proof. unfold Re.seq. simpl. now rewrite N.eqb_refl. Qed.

Lemma run_lit_fail x rs pv s g k :
  hd_in (N.eqb x) s = false -> Re.run (Re.seq (Re.Lit [x] :: rs)) pv s g k = None.
Proof.
  intros H. exact (starts_in_seq _ _ rs (starts_in_lit x []) pv s g k H).
Qed.

Lemma run_cls_step p rs pv c s g k :
  p c = true ->
  Re.run (Re.seq (Re.Cls p :: rs)) pv (c :: s) g k = Re.run (Re.seq rs) (Some c) s g k.
Proof. intros H. unfold Re.seq. simpl. now rewrite H. Qed.

Lemma run_ws_fail q rs s :
  (forall c, Py.isspace c = true -> q c = false) ->
  @starts_in A q (Re.seq rs) ->
  (forall pv g k, Re.run (Re.seq rs) pv (Py.lstrip s) g k = None) ->
  forall pv g k, Re.run (Re.seq (ws :: rs)) pv s g k = None.
Proof.
  intros Hq Hs H pv g k. unfold Re.seq in *. simpl.
  apply (star_fail Py.isspace q);
    [exact Hq | intros pv0 s0 H0; now apply Hs | intros pv'; apply H].
Qed.

Lemma run_plus_fail p q rs d ds rest :
  p d = true -> forallb p ds = true -> hd_in p rest = false ->
  (forall c, p c = true -> q c = false) ->
  @starts_in A q (Re.seq rs) ->
  (forall pv g k, Re.run (Re.seq rs) pv rest g k = None) ->
  forall pv g k, Re.run (Re.seq (Re.Plus p :: rs)) pv (d :: ds ++ rest) g k = None.
Proof.
  intros Hd Hds Hr Hq Hs H pv g k. unfold Re.seq in *. simpl. rewrite Hd.
  apply (star_fail p q);
    [exact Hq | intros pv0 s0 H0; now apply Hs
    | intros pv'; rewrite lstrip_by_app; auto].
Qed.

(** The steps of a match: what follows ([k]) succeeds wherever it is
    called. *)
Lemma run_ws_match rs s :
  (forall pv g k, (forall pv' s' g', k pv' s' g' <> None) ->
     Re.run (Re.seq rs) pv (Py.lstrip s) g k <> None) ->
  forall pv g k, (forall pv' s' g', k pv' s' g' <> None) ->
    Re.run (Re.seq (ws :: rs)) pv s g k <> None.
Proof.
  intros H pv g k Hk. unfold Re.seq in *. simpl.
  apply star_greedy. intros pv'. now apply H.
Qed.

Lemma run_plus_match p rs d ds rest :
  p d = true -> forallb p ds = true -> hd_in p rest = false ->
  (forall pv g k, (forall pv' s' g', k pv' s' g' <> None) ->
     Re.run (Re.seq rs) pv rest g k <> None) ->
  forall pv g k, (forall pv' s' g', k pv' s' g' <> None) ->
    Re.run (Re.seq (Re.Plus p :: rs)) pv (d :: ds ++ rest) g k <> None.
Proof.
  intros Hd Hds Hr H pv g k Hk. unfold Re.seq in *. simpl. rewrite Hd.
  apply star_greedy. intros pv'. rewrite lstrip_by_app; auto.
Qed.

Lemma run_nil_match pv s g k :
  (forall pv' s' g', k pv' s' g' <> None) -> Re.run (Re.seq []) pv s g k <> None.
Proof. intros Hk. apply Hk. Qed.

End RuleSteps.

Lemma in_chars_not l (p : char -> bool) c :
  forallb (fun x => negb (p x)) l = true -> p c = true -> in_chars l c = false.
Proof.
  intros Hl Hc. destruct (in_chars l c) eqn:E; [|reflexivity].
  unfold in_chars in E. apply existsb_exists in E. destruct E as [x [Hx E]].
  apply N.eqb_eq in E. subst x.
  rewrite forallb_forall in Hl. apply Hl in Hx. rewrite Hc in Hx. discriminate.
Qed.

Section RuleSteps2.
Context {A : Type}.
Implicit Types (k : option char -> str -> option str -> option A).

Lemma run_opt_cls_skip p rs pv s g k :
  hd_in p s = false ->
  Re.run (Re.seq (Re.Opt (Re.Cls p) :: rs)) pv s g k = Re.run (Re.seq rs) pv s g k.
Proof.
  intros H. unfold Re.seq. simpl. destruct s as [|c s]; simpl in *; [reflexivity|].
  now rewrite H.
Qed.

Lemma run_star_fail p q rs u rest :
  forallb p u = true -> hd_in p rest = false ->
  (forall c, p c = true -> q c = false) ->
  @starts_in A q (Re.seq rs) ->
  (forall pv g k, Re.run (Re.seq rs) pv rest g k = None) ->
  forall pv g k, Re.run (Re.seq (Re.Star p :: rs)) pv (u ++ rest) g k = None.
Proof.
  intros Hu Hr Hq Hs H pv g k. unfold Re.seq in *. simpl.
  apply (star_fail p q);
    [exact Hq | intros pv0 s0 H0; now apply Hs
    | intros pv'; rewrite lstrip_by_app; auto].
Qed.

Lemma run_plus_fail_all p rs d ds rest :
  p d = true -> forallb p ds = true -> hd_in p rest = false ->
  (forall u2 pv g k, forallb p u2 = true ->
     Re.run (Re.seq rs) pv (u2 ++ rest) g k = None) ->
  forall pv g k, Re.run (Re.seq (Re.Plus p :: rs)) pv (d :: ds ++ rest) g k = None.
Proof.
  intros Hd Hds Hr H pv g k. unfold Re.seq in *. simpl. rewrite Hd.
  apply star_fail_all; [exact Hds | exact Hr |].
  intros u2 pv' Hu2. now apply H.
Qed.

End RuleSteps2.

(** *** Lines that open with an ordinal marker: 第, a number, a unit and a
    colon, with optional white space around the number *)
Section OrdinalLine.
Variables (sp0 sp1 ds sp2 tail : str) (d unit c : char).
Hypothesis Hsp0 : forallb Py.isspace sp0 = true.
Hypothesis Hsp1 : forallb Py.isspace sp1 = true.
Hypothesis Hd : Py.isdecimal d = true.
Hypothesis Hds : forallb Py.isdecimal ds = true.
Hypothesis Hsp2 : forallb Py.isspace sp2 = true.
Hypothesis Hunit_space : Py.isspace unit = false.
Hypothesis Hunit_decimal : Py.isdecimal unit = false.

Lemma ordinal_lstrip :
  Py.lstrip (sp0 ++ c_di :: sp1 ++ d :: ds ++ sp2 ++ unit :: c :: tail)
  = c_di :: sp1 ++ d :: ds ++ sp2 ++ unit :: c :: tail.
Proof. unfold Py.lstrip. now rewrite lstrip_by_app. Qed.

Lemma ordinal_lstrip1 :
  Py.lstrip (sp1 ++ d :: ds ++ sp2 ++ unit :: c :: tail)
  = d :: ds ++ sp2 ++ unit :: c :: tail.
Proof.
  unfold Py.lstrip. rewrite lstrip_by_app; auto.
  simpl. now apply decimal_not_space.
Qed.

Lemma ordinal_lstrip2 :
  Py.lstrip (sp2 ++ unit :: c :: tail) = unit :: c :: tail.
Proof. unfold Py.lstrip. rewrite lstrip_by_app; auto. Qed.

Lemma ordinal_after_number : hd_in Py.isdecimal (sp2 ++ unit :: c :: tail) = false.
Proof.
  destruct sp2 as [|e sp2']; simpl in *; [exact Hunit_decimal|].
  apply andb_prop in Hsp2. destruct Hsp2 as [He _]. now apply space_not_decimal.
Qed.

(** The rule of another unit fails at the unit. *)
Lemma ordinal_rule_other u' :
  N.eqb u' unit = false -> Py.isspace u' = false -> Py.isdecimal u' = false ->
  Re.search (Re.seq [Re.Bol; ws; Re.Lit [c_di]; ws; digits; ws; Re.Lit [u']; colon])
            (sp0 ++ c_di :: sp1 ++ d :: ds ++ sp2 ++ unit :: c :: tail)
  = @None (nat * option str).
Proof.
  intros Hu Hus Hud.
  apply (rule_fail_at (N.eqb c_di) (Re.Lit [c_di]));
    [apply starts_in_lit | intros x; now apply eqb_not_space |].
  intros pv k. rewrite ordinal_lstrip, run_lit_step.
  apply (run_ws_fail Py.isdecimal);
    [apply space_not_decimal | apply starts_in_seq, starts_in_plus |].
  intros pv1 g1 k1. rewrite ordinal_lstrip1. unfold digits.
  apply (run_plus_fail Py.isdecimal (fun x => Py.isspace x || N.eqb u' x));
    [exact Hd | exact Hds | exact ordinal_after_number | | |].
  - intros x Hx. rewrite (decimal_not_space x Hx). cbn [orb].
    now apply eqb_not_decimal.
  - apply starts_in_ws, starts_in_seq, starts_in_lit.
  - apply (run_ws_fail (N.eqb u'));
      [intros x; now apply eqb_not_space | apply starts_in_seq, starts_in_lit |].
    intros pv2 g2 k2. rewrite ordinal_lstrip2. apply run_lit_fail. exact Hu.
Qed.

(** The rule of the articles fails too: no 條 follows the number. *)
Lemma ordinal_rule_article :
  N.eqb c_tiao unit = false -> in_chars [45; 65293]%N unit = false ->
  Re.search (Re.seq [Re.Bol; ws; Re.Lit [c_di]; ws; digits;
                     Re.Opt (Re.Cls (in_chars [45; 65293]%N)); Re.Star Py.isdecimal;
                     ws; Re.Lit [c_tiao]])
            (sp0 ++ c_di :: sp1 ++ d :: ds ++ sp2 ++ unit :: c :: tail)
  = @None (nat * option str).
Proof.
  intros Hu Hdash.
  apply (rule_fail_at (N.eqb c_di) (Re.Lit [c_di]));
    [apply starts_in_lit | intros x; now apply eqb_not_space |].
  intros pv k. rewrite ordinal_lstrip, run_lit_step.
  apply (run_ws_fail Py.isdecimal);
    [apply space_not_decimal | apply starts_in_seq, starts_in_plus |].
  intros pv1 g1 k1. rewrite ordinal_lstrip1. unfold digits.
  apply run_plus_fail_all;
    [exact Hd | exact Hds | exact ordinal_after_number |].
  intros u2 pv2 g2 k2 Hu2.
  rewrite run_opt_cls_skip.
  - apply (run_star_fail Py.isdecimal (fun x => Py.isspace x || N.eqb c_tiao x));
      [exact Hu2 | exact ordinal_after_number | | |].
    + intros x Hx. rewrite (decimal_not_space x Hx). cbn [orb].
      now apply eqb_not_decimal.
    + apply starts_in_ws, starts_in_seq, starts_in_lit.
    + apply (run_ws_fail (N.eqb c_tiao));
        [intros x; now apply eqb_not_space | apply starts_in_seq, starts_in_lit |].
      intros pv3 g3 k3. rewrite ordinal_lstrip2. apply run_lit_fail. exact Hu.
  - destruct u2 as [|e u2]; cbn [app hd_in].
    + destruct sp2 as [|e sp2']; cbn [app hd_in]; [exact Hdash|].
      cbn [forallb] in Hsp2. apply andb_prop in Hsp2. destruct Hsp2 as [He _].
      now apply (in_chars_not _ Py.isspace).
    + cbn [forallb] in Hu2. apply andb_prop in Hu2. destruct Hu2 as [He _].
      now apply (in_chars_not _ Py.isdecimal).
Qed.

(** The rule of the unit matches. *)
Lemma ordinal_rule_match :
  in_chars [65306; 58]%N c = true ->
  is_some (Re.search (Re.seq [Re.Bol; ws; Re.Lit [c_di]; ws; digits; ws;
                              Re.Lit [unit]; colon])
       (sp0 ++ c_di :: sp1 ++ d :: ds ++ sp2 ++ unit :: c :: tail)) = true.
Proof.
  intros Hc. apply rule_match. intros pv k Hk.
  rewrite ordinal_lstrip, run_lit_step.
  apply run_ws_match; [|exact Hk]. clear pv k Hk. intros pv g k Hk.
  rewrite ordinal_lstrip1. unfold digits.
  apply run_plus_match;
    [exact Hd | exact Hds | exact ordinal_after_number | | exact Hk].
  clear pv g k Hk. intros pv g k Hk.
  apply run_ws_match; [|exact Hk]. clear pv g k Hk. intros pv g k Hk.
  rewrite ordinal_lstrip2, run_lit_step. unfold colon.
  rewrite run_cls_step by exact Hc. now apply run_nil_match.
Qed.

End OrdinalLine.

(** X2.  A line that opens with 第, a number and one of the units 項, 款,
    目 and 次 followed by a colon (of either width) is at the level 1, 2, 3
    and 4 of that unit; white space may stand before 第 and around the
    number. *)
Theorem detect_level_ordinal (sp0 sp1 ds sp2 tail : str) (d unit c : char) (lvl : nat) :
  In (unit, lvl) [(c_xiang, 1); (c_kuan, 2); (c_mu, 3); (c_ci, 4)] ->
  forallb Py.isspace sp0 = true -> forallb Py.isspace sp1 = true ->
  Py.isdecimal d = true -> forallb Py.isdecimal ds = true ->
  forallb Py.isspace sp2 = true ->
  in_chars [65306; 58]%N c = true ->
  detect_level (sp0 ++ c_di :: sp1 ++ d :: ds ++ sp2 ++ unit :: c :: tail) = lvl.
Proof.
  intros Hin H0 H1 Hd Hds H2 Hc.
  unfold detect_level, LEVEL_RULES. cbv [detect_level_in].
  simpl in Hin.
  destruct Hin as [E|[E|[E|[E|[]]]]]; inversion E; subst unit lvl; clear E;
    rewrite ordinal_rule_article by (assumption || reflexivity);
    repeat (rewrite (ordinal_rule_other sp0 sp1 ds sp2 tail d _ c)
              by (assumption || reflexivity));
    rewrite ordinal_rule_match by (assumption || reflexivity);
    reflexivity.
Qed.

Lemma detect_level_ordinal_witness :
  detect_level (lit "  " ++ c_di :: lit " " ++ 49%N :: lit "2" ++ lit " "
                  ++ c_kuan :: 65306%N :: lit "text") = 2.
Proof.
  apply (detect_level_ordinal (lit "  ") (lit " ") (lit "2") (lit " ") (lit "text")
           49%N c_kuan 65306%N 2); try reflexivity.
  simpl. right. left. reflexivity.
Defined.

Lemma letter_not_decimal a :
  in_range 97 122 a || in_range 65 90 a = true -> Py.isdecimal a = false.
Proof.
  intros H.
  assert (In a (List.map N.of_nat (seq 65 58))) as Hin.
  { apply in_map_iff. exists (N.to_nat a). split; [apply N2Nat.id|].
    apply in_seq. unfold in_range in H.
    apply orb_prop in H. destruct H as [H|H];
      apply andb_prop in H; destruct H as [H1 H2];
      apply N.leb_le in H1; apply N.leb_le in H2; lia. }
  assert (forallb (fun c => negb (Py.isdecimal c)) (List.map N.of_nat (seq 65 58)) = true)
    as F by (vm_compute; reflexivity).
  rewrite forallb_forall in F. apply F in Hin. now apply negb_true_iff in Hin.
Qed.

Lemma cjk_numeral_not_space' c : cjk_numeral c = true -> Py.isspace c = false.
Proof.
  intros H. destruct (Py.isspace c) eqn:E; [|reflexivity].
  apply cjk_numeral_not_space in E. congruence.
Qed.

Lemma decimal_not_cjk_numeral c : Py.isdecimal c = true -> cjk_numeral c = false.
Proof.
  intros H. destruct (cjk_numeral c) eqn:E; [|reflexivity].
  apply cjk_numeral_not_decimal in E. congruence.
Qed.

(** X3.  A line that opens with a run of CJK numerals, or with a run of
    decimal digits, followed by the comma 、 is at level 2; white space may
    stand before it. *)
Theorem detect_level_bullet (p : char -> bool) (sp0 ns tail : str) (n : char) :
  p = cjk_numeral \/ p = Py.isdecimal ->
  forallb Py.isspace sp0 = true ->
  p n = true -> forallb p ns = true ->
  detect_level (sp0 ++ n :: ns ++ c_comma :: tail) = 2.
Proof.
  intros Hp H0 Hn Hns.
  assert (Py.isspace n = false) as Hsp.
  { destruct Hp; subst p; [now apply cjk_numeral_not_space'|now apply decimal_not_space]. }
  assert (Py.lstrip (sp0 ++ n :: ns ++ c_comma :: tail) = n :: ns ++ c_comma :: tail)
    as Hline by (unfold Py.lstrip; now rewrite lstrip_by_app).
  unfold detect_level, LEVEL_RULES. cbv [detect_level_in].
  destruct Hp; subst p.
  - rewrite !(rule_fail (N.eqb c_di) (Re.Lit [c_di]));
      try solve [apply starts_in_lit | intros x; now apply eqb_not_space
                | rewrite Hline; now apply eqb_not_cjk_numeral].
    rewrite rule_match; [reflexivity|].
    intros pv k Hk. rewrite Hline.
    apply run_plus_match; [exact Hn | exact Hns | reflexivity | | exact Hk].
    clear pv k Hk. intros pv g k Hk. rewrite run_lit_step. now apply run_nil_match.
  - rewrite !(rule_fail (N.eqb c_di) (Re.Lit [c_di]));
      try solve [apply starts_in_lit | intros x; now apply eqb_not_space
                | rewrite Hline; now apply eqb_not_decimal].
    rewrite (rule_fail cjk_numeral (Re.Plus cjk_numeral));
      try solve [apply starts_in_plus | apply cjk_numeral_not_space
                | rewrite Hline; now apply decimal_not_cjk_numeral].
    rewrite !(rule_fail (N.eqb c_lparen) (Re.Lit [c_lparen]));
      try solve [apply starts_in_lit | intros x; now apply eqb_not_space
                | rewrite Hline; now apply eqb_not_decimal].
    rewrite !(rule_fail (N.eqb 40) (Re.Lit (lit "(")));
      try solve [apply starts_in_lit | intros x; now apply eqb_not_space
                | rewrite Hline; now apply eqb_not_decimal].
    rewrite rule_match; [reflexivity|].
    intros pv k Hk. rewrite Hline. unfold digits.
    apply run_plus_match; [exact Hn | exact Hns | reflexivity | | exact Hk].
    clear pv k Hk. intros pv g k Hk. rewrite run_lit_step. now apply run_nil_match.
Qed.

Lemma detect_level_bullet_witness :
  detect_level (lit " " ++ 49%N :: lit "0" ++ c_comma :: lit "x") = 2.
Proof.
  apply (detect_level_bullet Py.isdecimal (lit " ") (lit "0") (lit "x") 49%N);
    [now right | reflexivity | reflexivity | reflexivity].
Defined.

(** X4.  A line that opens with a parenthesized number, in full-width or in
    ASCII parentheses, is at level 3, and one that opens with an ASCII
    letter in ASCII parentheses is at level 4; white space may stand before
    the parenthesis. *)
Theorem detect_level_parenthesized (sp0 tail : str) :
  forallb Py.isspace sp0 = true ->
  (forall d ds, Py.isdecimal d = true -> forallb Py.isdecimal ds = true ->
     detect_level (sp0 ++ c_lparen :: d :: ds ++ c_rparen :: tail) = 3
     /\ detect_level (sp0 ++ 40%N :: d :: ds ++ 41%N :: tail) = 3)
  /\ (forall a, in_range 97 122 a || in_range 65 90 a = true ->
        detect_level (sp0 ++ 40%N :: a :: 41%N :: tail) = 4).
Proof.
  intros H0.
  assert (forall x rest, Py.isspace x = false ->
            Py.lstrip (sp0 ++ x :: rest) = x :: rest) as Hline.
  { intros x rest Hx. unfold Py.lstrip. now rewrite lstrip_by_app. }
  split; [intros d ds Hd Hds; split|intros a Ha];
    unfold detect_level, LEVEL_RULES; cbv [detect_level_in];
    change (lit "(") with [40%N]; change (lit ")") with [41%N].
  - rewrite !(rule_fail (N.eqb c_di) (Re.Lit [c_di]));
      try solve [apply starts_in_lit | intros x; now apply eqb_not_space
                | rewrite Hline; reflexivity].
    rewrite (rule_fail cjk_numeral (Re.Plus cjk_numeral));
      try solve [apply starts_in_plus | apply cjk_numeral_not_space
                | rewrite Hline; reflexivity].
    rewrite rule_match; [reflexivity|].
    intros pv k Hk. rewrite Hline by reflexivity. rewrite run_lit_step. unfold digits.
    apply run_plus_match; [exact Hd | exact Hds | reflexivity | | exact Hk].
    clear pv k Hk. intros pv g k Hk. rewrite run_lit_step. now apply run_nil_match.
  - rewrite !(rule_fail (N.eqb c_di) (Re.Lit [c_di]));
      try solve [apply starts_in_lit | intros x; now apply eqb_not_space
                | rewrite Hline; reflexivity].
    rewrite (rule_fail cjk_numeral (Re.Plus cjk_numeral));
      try solve [apply starts_in_plus | apply cjk_numeral_not_space
                | rewrite Hline; reflexivity].
    rewrite (rule_fail (N.eqb c_lparen) (Re.Lit [c_lparen]));
      try solve [apply starts_in_lit | intros x; now apply eqb_not_space
                | rewrite Hline; reflexivity].
    rewrite rule_match; [reflexivity|].
    intros pv k Hk. rewrite Hline by reflexivity. rewrite run_lit_step. unfold digits.
    apply run_plus_match; [exact Hd | exact Hds | reflexivity | | exact Hk].
    clear pv k Hk. intros pv g k Hk. rewrite run_lit_step. now apply run_nil_match.
  - rewrite !(rule_fail (N.eqb c_di) (Re.Lit [c_di]));
      try solve [apply starts_in_lit | intros x; now apply eqb_not_space
                | rewrite Hline; reflexivity].
    rewrite (rule_fail cjk_numeral (Re.Plus cjk_numeral));
      try solve [apply starts_in_plus | apply cjk_numeral_not_space
                | rewrite Hline; reflexivity].
    rewrite !(rule_fail (N.eqb c_lparen) (Re.Lit [c_lparen]));
      try solve [apply starts_in_lit | intros x; now apply eqb_not_space
                | rewrite Hline; reflexivity].
    rewrite (rule_fail_at (N.eqb 40) (Re.Lit [40%N]));
      try solve [apply starts_in_lit | intros x; now apply eqb_not_space].
    2:{ intros pv k. rewrite Hline by reflexivity. rewrite run_lit_step.
        apply (starts_in_seq Py.isdecimal digits _ (starts_in_plus Py.isdecimal)).
        cbn [hd_in]. now apply letter_not_decimal. }
    rewrite rule_match; [reflexivity|].
    intros pv k Hk. rewrite Hline by reflexivity. rewrite run_lit_step.
    rewrite run_cls_step by exact Ha. rewrite run_lit_step. now apply run_nil_match.
Qed.

Lemma detect_level_parenthesized_witness :
  detect_level (lit "  " ++ 40%N :: 98%N :: 41%N :: lit " text") = 4.
Proof.
  apply (proj2 (detect_level_parenthesized (lit "  ") (lit " text") eq_refl) 98%N).
  reflexivity.
Defined.

(** ** Further properties of the tooltip markup *)

Lemma esc_char_safe c :
  forallb (fun x => negb (in_chars [60; 62; 34; 39]%N x)) (esc_char c) = true.
Proof.
  unfold esc_char.
  destruct (N.eqb_spec c 38); [reflexivity|].
  destruct (N.eqb_spec c 60); [reflexivity|].
  destruct (N.eqb_spec c 62); [reflexivity|].
  destruct (N.eqb_spec c 34); [reflexivity|].
  destruct (N.eqb_spec c 39); [reflexivity|].
  cbn [forallb in_chars existsb].
  repeat match goal with
         | H : c <> ?x |- _ => apply N.eqb_neq in H; rewrite H; clear H
         end.
  reflexivity.
Qed.

(** X5.  The text [html.escape] returns holds no angle bracket and no
    quote of either kind, so that the payload of a marker cannot end the
    attribute it sits in, nor the text of a container its tag; and escaping
    never shortens a text. *)
Theorem html_escape_safe (s : str) :
  forallb (fun x => negb (in_chars [60; 62; 34; 39]%N x)) (Py.html_escape s) = true
  /\ length s <= length (Py.html_escape s).
Proof.
  rewrite html_escape_chars. induction s as [|c s [IH1 IH2]]; [split; reflexivity|].
  change (flat_map esc_char (c :: s)) with (esc_char c ++ flat_map esc_char s).
  rewrite forallb_app, esc_char_safe. split; [exact IH1|].
  rewrite length_app. cbn [length].
  assert (1 <= length (esc_char c)); [|lia].
  unfold esc_char.
  repeat match goal with |- context [if ?b then _ else _] => destruct b end;
    cbn; lia.
Qed.

(** X6.  Every container [lines_to_html] writes carries one of the five
    level classes, and the style sheet that [on_post_page] injects has a
    rule for that class. *)
Theorem line_class_styled (raw : str) :
  exists lvl,
    lvl <= 4
    /\ line_to_html raw = div_open lvl ++ Py.html_escape (Py.rstrip raw) ++ lit "</div>"
    /\ contains style (lit ".mlabbr-l" ++ Py.str_of_nat lvl ++ lit " {") = true.
Proof.
  exists (detect_level (Py.rstrip raw)).
  pose proof (detect_level_in_le LEVEL_RULES (Py.rstrip raw) LEVEL_RULES_le) as Hle.
  fold (detect_level (Py.rstrip raw)) in Hle.
  split; [exact Hle|]. split; [apply line_to_html_div|].
  destruct (detect_level (Py.rstrip raw)) as [|[|[|[|[|n]]]]];
    try (vm_compute; reflexivity).
  lia.
Qed.

(** ** Further properties of the parser *)

(** *** [strip] *)

Lemma lstrip_by_head p s :
  hd_in p (Py.lstrip_by p s) = false.
Proof.
  induction s as [|c s IH]; simpl; [reflexivity|].
  destruct (p c) eqn:E; [exact IH|]. simpl. exact E.
Qed.

Lemma rstrip_cons c s :
  Py.isspace c = false -> Py.rstrip (c :: s) = c :: Py.rstrip s.
Proof. intros H. simpl. destruct (Py.rstrip s); [now rewrite H|reflexivity]. Qed.

Lemma rstrip_rstrip s : Py.rstrip (Py.rstrip s) = Py.rstrip s.
Proof.
  induction s as [|c s IH]; [reflexivity|].
  simpl. destruct (Py.rstrip s) as [|d r] eqn:E.
  - destruct (Py.isspace c) eqn:Hc; [reflexivity|]. simpl. now rewrite Hc.
  - change (Py.rstrip (c :: d :: r)) with
      (match Py.rstrip (d :: r) with
       | [] => if Py.isspace c then [] else [c]
       | t => c :: t
       end).
    now rewrite IH.
Qed.

Lemma strip_strip s : Py.strip (Py.strip s) = Py.strip s.
Proof.
  unfold Py.strip, Py.lstrip.
  pose proof (lstrip_by_head Py.isspace s) as H.
  destruct (Py.lstrip_by Py.isspace s) as [|c t]; [reflexivity|].
  simpl in H. rewrite (rstrip_cons c t H).
  cbn [Py.lstrip_by]. rewrite H. rewrite (rstrip_cons c _ H).
  now rewrite rstrip_rstrip.
Qed.

Lemma forallb_lstrip_by q p s :
  forallb q s = true -> forallb q (Py.lstrip_by p s) = true.
Proof.
  induction s as [|c s IH]; simpl; [reflexivity|]. intros H.
  destruct (p c); [|exact H].
  apply andb_prop in H. now apply IH.
Qed.

Lemma forallb_rstrip q s :
  forallb q s = true -> forallb q (Py.rstrip s) = true.
Proof.
  induction s as [|c s IH]; [reflexivity|]. intros H.
  cbn [forallb] in H. apply andb_prop in H. destruct H as [Hc H].
  simpl. destruct (Py.rstrip s) as [|d r].
  - destruct (Py.isspace c); [reflexivity|]. simpl. now rewrite Hc.
  - cbn [forallb]. rewrite Hc. now apply IH.
Qed.

(** *** Headers *)

(** Group 1 of a match of [ABBR_DEF_RE]: a text that is not empty and has
    no closing bracket. *)
Lemma abbr_def_group line n g :
  Re.match_ ABBR_DEF_RE line = Some (n, g) ->
  exists t, g = Some t /\ t <> []
            /\ forallb (fun c => negb (N.eqb c 93)) t = true.
Proof.
  unfold Re.match_, Re.attempt, ABBR_DEF_RE, Re.seq. cbn [fold_right Re.run].
  destruct (Py.strip_prefix (lit "*[") line) as [s1|]; [|discriminate].
  destruct s1 as [|c s1]; [discriminate|].
  destruct (negb (N.eqb c 93)) eqn:Hc; [|discriminate].
  intros H. apply star_inv in H. destruct H as [u [s2 [E [Hu H]]]].
  destruct (Py.strip_prefix (lit "]") s2) as [s3|]; [|discriminate].
  apply star_inv in H. destruct H as [u3 [s4 [_ [_ H]]]].
  destruct (Py.strip_prefix (lit ":") s4) as [s5|]; [|discriminate].
  apply star_inv in H. destruct H as [u5 [s6 [_ [_ H]]]].
  cbn [andb] in H.
  assert (g = Some (firstn (length (c :: s1) - length s2) (c :: s1))) as Hg.
  { destruct s6 as [|x [|y s6]]; try discriminate.
    - now inversion H.
    - destruct (N.eqb x 10); [now inversion H|discriminate]. }
  subst s1. change (c :: u ++ s2) with ((c :: u) ++ s2) in Hg.
  rewrite length_app_sub, firstn_length_app in Hg.
  exists (c :: u). split; [exact Hg|]. split; [discriminate|].
  cbn [forallb]. apply andb_true_intro. split; [exact Hc|exact Hu].
Qed.

Lemma header_key_ok line k :
  header_key line = Some k ->
  Py.strip k = k /\ forallb (fun c => negb (N.eqb c 93)) k = true.
Proof.
  unfold header_key. destruct (is_comment_open line); [discriminate|].
  destruct (Re.match_ ABBR_DEF_RE line) as [[n g]|] eqn:E; [|discriminate].
  apply abbr_def_group in E. destruct E as [t [-> [_ Ht]]].
  intros H. inversion H; subst k. split; [apply strip_strip|].
  unfold Py.strip, Py.lstrip. now apply forallb_rstrip, forallb_lstrip_by.
Qed.

(** *** The index and the buffer along the loop *)

Lemma dict_keys_set_In m k v q :
  In q (dict_keys (dict_set m k v)) -> q = k \/ In q (dict_keys m).
Proof.
  induction m as [|[k' v'] m IH]; simpl.
  - intros [H|[]]. now left.
  - destruct (str_eqb k' k); simpl.
    + intros [H|H]; auto.
    + intros [H|H]; auto. destruct (IH H); auto.
Qed.

Lemma dict_keys_set_NoDup m k v :
  NoDup (dict_keys m) -> NoDup (dict_keys (dict_set m k v)).
Proof.
  induction m as [|[k' v'] m IH]; simpl; intros H.
  - constructor; [intros []|constructor].
  - destruct (str_eqb k' k) eqn:E; simpl; [exact H|].
    inversion H as [|? ? Hn Hm]; subst. constructor; [|now apply IH].
    intros Hin. apply dict_keys_set_In in Hin. destruct Hin as [->|Hin]; [|contradiction].
    rewrite str_eqb_refl in E. discriminate.
Qed.

Lemma dict_set_In m k v q w :
  In (q, w) (dict_set m k v) -> (q = k /\ w = v) \/ In (q, w) m.
Proof.
  induction m as [|[k' v'] m IH]; simpl.
  - intros [H|[]]. inversion H. now left.
  - destruct (str_eqb k' k) eqn:E; simpl.
    + intros [H|H]; auto. inversion H; subst. apply str_eqb_eq in E. now left.
    + intros [H|H]; auto. destruct (IH H); auto.
Qed.

(** A line that is not a header leaves the index and the key as they are,
    and goes to the buffer by [buffer_step] when a block is open. *)
Lemma load_line_other st line :
  header_key line = None ->
  load_line st line
  = Loader (l_map st) (l_key st)
      match l_key st with
      | Some _ => buffer_step (l_buf st) line
      | None => l_buf st
      end.
Proof.
  unfold header_key, load_line, buffer_step, is_comment_open.
  destruct st as [m key buf]. simpl.
  destruct (is_some _); [now destruct key|].
  destruct (Re.match_ ABBR_DEF_RE line) as [[n g]|]; [discriminate|].
  intros _. destruct key; [|reflexivity].
  destruct (_ && _)%bool; reflexivity.
Qed.

Lemma flush_keys st :
  keys_inv st ->
  NoDup (dict_keys (flush st)) /\ forall k, In k (dict_keys (flush st)) -> key_ok k.
Proof.
  intros [Hnd [Hk Hkey]]. unfold flush.
  destruct (l_key st) as [[|c k]|] eqn:E; try (split; assumption).
  destruct (l_buf st) as [|l buf]; [split; assumption|].
  split; [now apply dict_keys_set_NoDup|].
  intros q Hq. apply dict_keys_set_In in Hq. destruct Hq as [->|Hq]; [|now apply Hk].
  destruct (Hkey _ eq_refl) as [H1 H2]. split; [discriminate|]. now split.
Qed.

Lemma load_line_keys st line : keys_inv st -> keys_inv (load_line st line).
Proof.
  intros H. destruct (header_key line) as [k|] eqn:E.
  - rewrite (load_line_header st line k E).
    destruct (flush_keys st H) as [H1 H2]. split; [exact H1|]. split; [exact H2|].
    simpl. intros q Hq. inversion Hq; subst q. now apply (header_key_ok line).
  - rewrite (load_line_other st line E). exact H.
Qed.

Lemma load_from_keys lines : forall st,
  keys_inv st ->
  NoDup (dict_keys (load_from st lines))
  /\ forall k, In k (dict_keys (load_from st lines)) -> key_ok k.
Proof.
  unfold load_from. induction lines as [|l lines IH]; intros st H; simpl.
  - now apply flush_keys.
  - apply IH. now apply load_line_keys.
Qed.

(** X7.  The keys of the index that [_load_abbrs] returns are distinct, and
    every one of them is not empty, has no white space at either end and
    holds no closing bracket. *)
Theorem index_keys (text : str) :
  NoDup (dict_keys (_load_abbrs text))
  /\ forall k, In k (dict_keys (_load_abbrs text)) ->
       k <> [] /\ Py.strip k = k /\ forallb (fun c => negb (N.eqb c 93)) k = true.
Proof.
  apply load_from_keys. split; [constructor|]. split; [intros k []|].
  simpl. intros k H. discriminate H.
Qed.

Lemma index_keys_witness :
  Py.strip (lit "G S T") = lit "G S T".
Proof.
  apply (proj2 (index_keys (lit "*[  G S T ]:" ++ [10%N] ++ lit "x")) (lit "G S T")).
  vm_compute. left. reflexivity.
Defined.

Lemma collapsed_app line : forall buf prev,
  collapsed prev (buf ++ [line])
  = collapsed prev buf
    && negb (match buf with [] => prev | _ => is_blank (last buf []) end
             && is_blank line).
Proof.
  induction buf as [|a buf IH]; intros prev.
  - simpl. now rewrite andb_true_r.
  - change ((a :: buf) ++ [line]) with (a :: (buf ++ [line])).
    cbn [collapsed]. rewrite IH, andb_assoc.
    destruct buf; reflexivity.
Qed.

Lemma buffer_step_ok buf line :
  header_key line = None -> buffer_ok buf -> buffer_ok (buffer_step buf line).
Proof.
  intros Hh [Hc Hf]. unfold buffer_step.
  destruct (is_comment_open line) eqn:Eo; [now split|].
  destruct (is_blank line && _)%bool eqn:Eb; [now split|].
  split.
  - rewrite collapsed_app, Hc. rewrite andb_comm in Eb. now rewrite Eb.
  - apply Forall_app. split; [exact Hf|]. now repeat constructor.
Qed.

Lemma flush_docs st :
  docs_inv st ->
  forall k v, In (k, v) (flush st) ->
    exists buf, v = lines_to_html buf /\ buf <> [] /\ buffer_ok buf.
Proof.
  intros [Hm Hb] k v. unfold flush.
  destruct (l_key st) as [[|c key]|]; try apply Hm.
  destruct (l_buf st) as [|l buf] eqn:E; [apply Hm|].
  intros H. apply dict_set_In in H. destruct H as [[-> ->]|H]; [|exact (Hm _ _ H)].
  exists (l :: buf). split; [reflexivity|]. split; [discriminate|exact Hb].
Qed.

Lemma load_line_docs st line : docs_inv st -> docs_inv (load_line st line).
Proof.
  intros H. destruct (header_key line) as [k|] eqn:E.
  - rewrite (load_line_header st line k E). split.
    + apply (flush_docs st H).
    + split; [reflexivity|constructor].
  - rewrite (load_line_other st line E). destruct H as [Hm Hb].
    split; [exact Hm|]. simpl. destruct (l_key st); [|exact Hb].
    now apply buffer_step_ok.
Qed.

Lemma load_from_docs lines : forall st,
  docs_inv st ->
  forall k v, In (k, v) (load_from st lines) ->
    exists buf, v = lines_to_html buf /\ buf <> [] /\ buffer_ok buf.
Proof.
  unfold load_from. induction lines as [|l lines IH]; intros st H; simpl.
  - now apply flush_docs.
  - apply IH. now apply load_line_docs.
Qed.

(** X8.  Every document of the index is the markup of a buffer of lines
    that is not empty, does not start with a blank line, has no two blank
    lines in a row, and holds no header and no line that opens a comment. *)
Theorem stored_buffers (text k v : str) :
  In (k, v) (_load_abbrs text) ->
  exists buf,
    v = lines_to_html buf /\ buf <> []
    /\ collapsed true buf = true
    /\ Forall (fun l => header_key l = None /\ is_comment_open l = false) buf.
Proof.
  apply load_from_docs. split; [intros ? ? []|].
  split; [reflexivity|constructor].
Qed.

Lemma stored_buffers_witness :
  exists buf,
    lines_to_html [lit "a"; []; lit "b"] = lines_to_html buf /\ buf <> []
    /\ collapsed true buf = true
    /\ Forall (fun l => header_key l = None /\ is_comment_open l = false) buf.
Proof.
  apply (stored_buffers
           (lit "*[K]:" ++ [10; 10]%N ++ lit "a" ++ [10; 10; 10]%N ++ lit "b")
           (lit "K")).
  vm_compute. left. reflexivity.
Defined.

(** *** Parts of a file *)

(** X9.  The index of a file whose second part starts at a header (or is
    empty) is the index of the second part laid over the index of the
    first: a key has the document of the second part when that part
    defines it, and the one of the first part otherwise. *)
Theorem load_lines_app (first second : list str) (q : str) :
  block_end second ->
  dict_get (load_lines (first ++ second)) q
  = overlay (load_lines second) (load_lines first) q.
Proof.
  intros H. unfold load_lines at 1. unfold load_from. rewrite fold_left_app.
  apply (load_from_block_end (fold_left load_line first (Loader [] None [])) second q H).
Qed.

Lemma load_lines_app_witness :
  dict_get (load_lines ([lit "*[A]:"; lit "x"] ++ [lit "*[B]:"; lit "y"])) (lit "A")
  = overlay (load_lines [lit "*[B]:"; lit "y"]) (load_lines [lit "*[A]:"; lit "x"])
      (lit "A").
Proof.
  apply load_lines_app. right. exists (lit "*[B]:"), [lit "y"].
  split; [reflexivity|]. vm_compute. discriminate.
Defined.

(** X10.  Lines before the first header store nothing: the index of the
    file is the index of what starts at the first header, and a file
    without a header has an empty index. *)
Theorem preamble_ignored (pre rest : list str) :
  Forall (fun l => header_key l = None) pre ->
  load_lines (pre ++ rest) = load_lines rest /\ load_lines pre = [].
Proof.
  intros H.
  assert (fold_left load_line pre (Loader [] None []) = Loader [] None []) as E.
  { induction H as [|l pre Hl _ IH]; [reflexivity|].
    simpl. rewrite (load_line_other _ l Hl). exact IH. }
  unfold load_lines, load_from. rewrite fold_left_app, E. split; reflexivity.
Qed.

Lemma preamble_ignored_witness :
  load_lines ([lit "# Abbreviations"; []; lit "text"] ++ [lit "*[A]:"; lit "x"])
  = load_lines [lit "*[A]:"; lit "x"].
Proof.
  apply preamble_ignored. repeat constructor.
Defined.

(** ** Further properties of the asset injector *)

Lemma on_post_page_none s : contains s body_close = false -> on_post_page s = s.
Proof.
  intros H. unfold on_post_page. rewrite body_close_eq in *.
  unfold Py.replace. now apply replace_go_none.
Qed.

Lemma replace_body_close_first new pre post :
  contains pre body_close = false ->
  Py.replace (pre ++ body_close ++ post) body_close new
  = pre ++ new ++ Py.replace post body_close new.
Proof.
  intros H. pose proof (body_close_no_straddle pre post H) as Hs.
  rewrite body_close_eq in *. unfold Py.replace.
  rewrite replace_go_miss by exact Hs. apply f_equal.
  now rewrite replace_go_hit.
Qed.

Lemma startswith_app_l a b w :
  Py.startswith a w = true -> Py.startswith (a ++ b) w = true.
Proof.
  intros H. apply startswith_inv in H. destruct H as [t ->].
  rewrite <- app_assoc. apply startswith_app.
Qed.

(** A text with the marker is a text without it, the marker and a rest. *)
Lemma body_close_first s :
  contains s body_close = true ->
  exists pre post, s = pre ++ body_close ++ post /\ contains pre body_close = false.
Proof.
  induction s as [|c s IH]; [discriminate|].
  simpl contains. destruct (Py.startswith (c :: s) body_close) eqn:E.
  - intros _. apply startswith_body_close_inv in E. destruct E as [t E].
    exists [], t. split; [exact E|reflexivity].
  - simpl. intros H. destruct (IH H) as [pre [post [-> Hpre]]].
    exists (c :: pre), post. split; [reflexivity|].
    simpl contains. rewrite Hpre, orb_false_r.
    destruct (Py.startswith (c :: pre) body_close) eqn:E'; [|reflexivity].
    apply (startswith_app_l _ (body_close ++ post)) in E'.
    simpl in E'. simpl in E. congruence.
Qed.

Lemma style_head : exists t, style = 60%N :: t.
Proof. exists (tl style). vm_compute. reflexivity. Qed.

(** The block that is injected holds no marker, and none comes to be where
    it is put after a text without one. *)
Lemma style_no_marker pre :
  contains pre body_close = false -> contains (pre ++ style) body_close = false.
Proof.
  induction pre as [|c pre IH]; intros H; [vm_compute; reflexivity|].
  simpl contains in H. apply orb_false_elim in H. destruct H as [H1 H2].
  change ((c :: pre) ++ style) with (c :: (pre ++ style)).
  simpl contains. rewrite (IH H2), orb_false_r.
  change (c :: pre ++ style) with ((c :: pre) ++ style).
  destruct style_head as [t ->].
  destruct (Py.startswith ((c :: pre) ++ 60%N :: t) body_close) eqn:S;
    [|reflexivity].
  exfalso. clear IH H2. revert H1 S. rewrite body_close_eq. unfold Py.startswith.
  do 7 (try (destruct pre as [|?c pre])); cbn [Py.strip_prefix app];
  repeat match goal with
  | |- context [N.eqb ?a ?b] =>
      destruct (N.eqb_spec a b); cbn [Py.strip_prefix app];
      try (intros H1 H2; discriminate); try subst
  end; try (intros H1 H2; discriminate).
Qed.

(** X16.  [on_post_page] is not idempotent: applied to its own result it
    injects again, so that every marker of the page has the block twice in
    front of it. *)
Theorem on_post_page_twice (page : str) :
  on_post_page (on_post_page page)
  = Py.replace page body_close (style ++ style ++ body_close).
Proof.
  assert (forall n s, length s <= n ->
            on_post_page (on_post_page s)
            = Py.replace s body_close (style ++ style ++ body_close)) as H;
    [|exact (H (length page) page (le_n _))].
  induction n as [|n IH]; intros s Hn.
  - destruct s; [reflexivity|simpl in Hn; lia].
  - destruct (contains s body_close) eqn:E.
    + apply body_close_first in E. destruct E as [pre [post [-> Hpre]]].
      unfold on_post_page at 2.
      rewrite (replace_body_close_first _ pre post Hpre).
      fold (on_post_page post).
      replace (pre ++ (style ++ body_close) ++ on_post_page post)
        with ((pre ++ style) ++ body_close ++ on_post_page post)
        by (now rewrite <- !app_assoc).
      unfold on_post_page at 1.
      rewrite (replace_body_close_first _ (pre ++ style) _ (style_no_marker pre Hpre)).
      fold (on_post_page (on_post_page post)).
      rewrite (replace_body_close_first _ pre post Hpre).
      rewrite IH.
      * now rewrite <- !app_assoc.
      * rewrite !length_app in Hn. rewrite body_close_eq in Hn. simpl in Hn. lia.
    + rewrite (on_post_page_none s E), (on_post_page_none s E).
      unfold Py.replace. rewrite body_close_eq in *. symmetry.
      now apply replace_go_none.
Qed.

(** ** Comments of the definitions file *)

Lemma contains_suffix a t w : contains t w = true -> contains (a ++ t) w = true.
Proof.
  intros H. induction a as [|c a IH]; [exact H|].
  change ((c :: a) ++ t) with (c :: (a ++ t)). cbn [contains].
  rewrite IH. apply orb_true_r.
Qed.

Lemma contains_false_suffix a t w :
  contains (a ++ t) w = false -> contains t w = false.
Proof.
  intros H. destruct (contains t w) eqn:E; [|reflexivity].
  apply (contains_suffix a) in E. congruence.
Qed.

Lemma contains_startswith s w : contains s w = false -> Py.startswith s w = false.
Proof.
  destruct s; simpl; intros H; apply orb_false_elim in H; tauto.
Qed.

Lemma concat_map_plain f s :
  concat (List.map (Re.sub_piece f) (List.map Re.Plain s)) = s.
Proof. induction s as [|c s IH]; simpl; [reflexivity|]. now rewrite IH. Qed.

(** The scan copies a text in which no match starts. *)
Lemma scan_plain_prefix r a rest :
  (forall a1 t pv', a = a1 ++ t -> t <> [] ->
     Re.attempt r false pv' (t ++ rest) = None) ->
  forall pv, Re.scan r 0 pv (a ++ rest)
             = List.map Re.Plain a ++ Re.scan r 0 (Re.last_char pv a) rest.
Proof.
  induction a as [|c a IH]; intros H pv; [reflexivity|].
  change ((c :: a) ++ rest) with (c :: (a ++ rest)).
  rewrite scan_miss by (apply (H [] (c :: a) pv eq_refl); discriminate).
  simpl List.map. simpl app. f_equal. apply IH.
  intros a1 t pv' E Ht. apply (H (c :: a1) t pv'); [now rewrite E|exact Ht].
Qed.

(** The scan of a pattern that does not look behind does not depend on the
    character before the text. *)
Lemma scan_pv r :
  (forall adv pv1 pv2 s, Re.attempt r adv pv1 s = Re.attempt r adv pv2 s) ->
  forall s skip pv1 pv2, Re.scan r skip pv1 s = Re.scan r skip pv2 s.
Proof.
  intros H. induction s as [|c s IH]; intros skip pv1 pv2; simpl.
  - now rewrite (H false pv1 pv2).
  - destruct skip; [|reflexivity].
    now rewrite (H false pv1 pv2), (H true pv1 pv2).
Qed.

(** A lazy repetition stops at the first position where what follows
    succeeds. *)
Lemma lazy_star_first {A : Type} p (k : option char -> str -> option A) u s' a :
  forallb p u = true ->
  (forall u1 u2 pv', u = u1 ++ u2 -> u2 <> [] -> k pv' (u2 ++ s') = None) ->
  forall pv, k (Re.last_char pv u) s' = Some a ->
             Re.lazy_star p pv (u ++ s') k = Some a.
Proof.
  induction u as [|c u IH]; intros Hu Hk pv Ha.
  - simpl in *. destruct s'; simpl; now rewrite Ha.
  - simpl in Hu. apply andb_prop in Hu. destruct Hu as [Hc Hu].
    change ((c :: u) ++ s') with (c :: (u ++ s')). cbn [Re.lazy_star].
    change (c :: u ++ s') with ((c :: u) ++ s').
    rewrite (Hk [] (c :: u) pv eq_refl) by discriminate. rewrite Hc.
    apply IH; [exact Hu| |exact Ha].
    intros u1 u2 pv' E Hu2. apply (Hk (c :: u1) u2 pv'); [now rewrite E|exact Hu2].
Qed.

Lemma attempt_comment_pv adv pv1 pv2 s :
  Re.attempt COMMENT_RE adv pv1 s = Re.attempt COMMENT_RE adv pv2 s.
Proof.
  unfold Re.attempt. apply (run_pv COMMENT_RE); [reflexivity|]. intros; reflexivity.
Qed.

(** A match of the pattern of the comments is a text from the opener to a
    closer. *)
Lemma attempt_comment_inv adv pv s n g :
  Re.attempt COMMENT_RE adv pv s = Some (n, g) ->
  exists c rest, s = lit "<!--" ++ c ++ lit "-->" ++ rest.
Proof.
  unfold Re.attempt, COMMENT_RE, Re.seq. cbn [fold_right Re.run].
  destruct (Py.strip_prefix (lit "<!--") s) as [s1|] eqn:E1; [|discriminate].
  intros H. apply lazy_star_inv in H. destruct H as [u [s2 [E [_ H]]]].
  destruct (Py.strip_prefix (lit "-->") s2) as [s3|] eqn:E2; [|discriminate].
  apply strip_prefix_inv in E1. apply strip_prefix_inv in E2.
  exists u, s3. now rewrite E1, E, E2.
Qed.

Lemma comment_open_no_straddle a :
  contains a (lit "<!--") = false ->
  forall a1 t rest, a = a1 ++ t -> t <> [] ->
    Py.startswith (t ++ lit "<!--" ++ rest) (lit "<!--") = false.
Proof.
  intros Ha a1 t rest E Ht. subst a. apply contains_false_suffix in Ha.
  apply contains_startswith in Ha.
  destruct (Py.startswith (t ++ lit "<!--" ++ rest) (lit "<!--")) eqn:S;
    [|reflexivity].
  exfalso. revert Ha S. change (lit "<!--") with [60; 33; 45; 45]%N.
  unfold Py.startswith.
  destruct t as [|x t]; [congruence|]. clear Ht.
  do 4 (try (destruct t as [|?c t])); cbn [Py.strip_prefix app];
  repeat match goal with
  | |- context [N.eqb ?a ?b] =>
      destruct (N.eqb_spec a b); cbn [Py.strip_prefix app];
      try (intros H1 H2; discriminate); try subst
  end; try (intros H1 H2; discriminate).
Qed.

Lemma comment_close_no_straddle c :
  contains c (lit "-->") = false ->
  forall u1 u2 rest, c = u1 ++ u2 -> u2 <> [] ->
    Py.strip_prefix (lit "-->") (u2 ++ lit "-->" ++ rest) = None.
Proof.
  intros Hc u1 t rest E Ht. subst c. apply contains_false_suffix in Hc.
  apply contains_startswith in Hc.
  destruct (Py.strip_prefix (lit "-->") (t ++ lit "-->" ++ rest)) eqn:S;
    [|reflexivity].
  exfalso. revert Hc S. change (lit "-->") with [45; 45; 62]%N.
  unfold Py.startswith.
  destruct t as [|x t]; [congruence|]. clear Ht.
  do 3 (try (destruct t as [|?c t])); cbn [Py.strip_prefix app];
  repeat match goal with
  | |- context [N.eqb ?a ?b] =>
      destruct (N.eqb_spec a b); cbn [Py.strip_prefix app];
      try (intros H1 H2; discriminate); try subst
  end; try (intros H1 H2; discriminate).
Qed.

(** At an opener, the match ends with the first closer. *)
Lemma attempt_comment_exact c b pv :
  contains c (lit "-->") = false ->
  Re.attempt COMMENT_RE false pv (lit "<!--" ++ c ++ lit "-->" ++ b)
  = Some (length (lit "<!--" ++ c ++ lit "-->"), None).
Proof.
  intros Hc. unfold Re.attempt, COMMENT_RE, Re.seq. cbn [fold_right Re.run].
  rewrite strip_prefix_app.
  apply lazy_star_first; [apply forallb_any| |].
  - intros u1 u2 pv' E Hu2.
    now rewrite (comment_close_no_straddle c Hc u1 u2 b E Hu2).
  - rewrite strip_prefix_app. cbn [andb]. do 2 f_equal.
    rewrite !length_app. lia.
Qed.

(** X11.  The removal of the comments leaves a text without an opener, or
    without a closer, as it is; and it removes a comment, from its opener
    to the first closer after it, and goes on with the text after the
    closer. *)
Theorem comments_removed :
  (forall text,
     contains text (lit "<!--") = false \/ contains text (lit "-->") = false ->
     Re.sub COMMENT_RE (fun _ _ => []) text = text)
  /\ (forall a c b,
        contains a (lit "<!--") = false -> contains c (lit "-->") = false ->
        Re.sub COMMENT_RE (fun _ _ => []) (a ++ lit "<!--" ++ c ++ lit "-->" ++ b)
        = a ++ Re.sub COMMENT_RE (fun _ _ => []) b).
Proof.
  split.
  - intros text H. unfold Re.sub. rewrite scan_all_plain; [apply concat_map_plain|].
    intros a t pv E.
    destruct (Re.attempt COMMENT_RE false pv t) as [[n g]|] eqn:A; [|reflexivity].
    exfalso. apply attempt_comment_inv in A. destruct A as [c [rest ->]].
    subst text. destruct H as [H|H].
    + apply contains_false_suffix in H.
      pose proof (contains_app [] (lit "<!--") (c ++ lit "-->" ++ rest)) as X.
      change ([] ++ ?x) with x in X. congruence.
    + pose proof (contains_app (a ++ lit "<!--" ++ c) (lit "-->") rest) as X.
      rewrite <- !app_assoc in X. congruence.
  - intros a c b Ha Hc. unfold Re.sub.
    rewrite scan_plain_prefix.
    + rewrite List.map_app, concat_app, concat_map_plain. f_equal.
      replace (lit "<!--" ++ c ++ lit "-->" ++ b)
        with ((60%N :: lit "!--" ++ c ++ lit "-->") ++ b)
        by (simpl; now rewrite <- !app_assoc).
      rewrite (scan_hit COMMENT_RE _ 60%N (lit "!--" ++ c ++ lit "-->") b None).
      * simpl. f_equal. f_equal. apply (scan_pv COMMENT_RE attempt_comment_pv).
      * change (Re.attempt COMMENT_RE false (Re.last_char None a)
                  (lit "<!--" ++ (c ++ lit "-->") ++ b)
                = Some (length (lit "<!--" ++ c ++ lit "-->"), None)).
        rewrite <- app_assoc. now apply attempt_comment_exact.
    + intros a1 t pv' E Ht.
      unfold Re.attempt, COMMENT_RE, Re.seq. cbn [fold_right Re.run].
      pose proof (comment_open_no_straddle a Ha a1 t (c ++ lit "-->" ++ b) E Ht) as S.
      unfold Py.startswith in S.
      destruct (Py.strip_prefix (lit "<!--") (t ++ lit "<!--" ++ c ++ lit "-->" ++ b));
        [discriminate S|reflexivity].
Qed.

Lemma comments_removed_witness :
  Re.sub COMMENT_RE (fun _ _ => [])
    (lit "a " ++ lit "<!--" ++ lit " *[K]: " ++ lit "-->" ++ lit " b")
  = lit "a " ++ Re.sub COMMENT_RE (fun _ _ => []) (lit " b").
Proof. apply (proj2 comments_removed); reflexivity. Defined.

(** ** Further properties of the page transforms *)

Lemma startswith_contains s w : Py.startswith s w = true -> contains s w = true.
Proof. destruct s; simpl; intros ->; reflexivity. Qed.

(** X12.  A text in which no key of the index occurs is returned as it
    is. *)
Theorem no_key_unchanged (m : dict) (text : str) :
  (forall k, In k (dict_keys m) -> contains text k = false) ->
  _replace_in_plain (plugin_of m) text = text.
Proof.
  intros H. unfold _replace_in_plain.
  destruct (key_re (plugin_of m)) as [r|] eqn:E; [|reflexivity].
  unfold Re.sub. rewrite scan_all_plain; [apply concat_map_plain|].
  intros a t pv Et.
  destruct (Re.attempt r false pv t) as [[n g]|] eqn:A; [|reflexivity].
  exfalso. destruct (attempt_key_re m r false pv t n g E A)
    as [k [_ [_ [Hin [_ [Hfit _]]]]]].
  unfold key_fits in Hfit. apply andb_prop in Hfit. destruct Hfit as [Hfit _].
  apply andb_prop in Hfit. destruct Hfit as [Hfit _].
  apply startswith_contains in Hfit. apply (contains_suffix a) in Hfit.
  rewrite <- Et in Hfit. rewrite (H k Hin) in Hfit. discriminate.
Qed.

Lemma no_key_unchanged_witness :
  _replace_in_plain (plugin_of index_AB) (lit "see A and B") = lit "see A and B".
Proof.
  apply no_key_unchanged. intros k Hk.
  vm_compute in Hk. destruct Hk as [<-|[]]. reflexivity.
Defined.

(** X13.  A key without a document, or with an empty one, is written back
    as it is: with an index whose documents are all empty no marker is
    put. *)
Theorem empty_documents_unmarked (m : dict) (text : str) :
  (forall k v, dict_get m k = Some v -> v = []) ->
  _replace_in_plain (plugin_of m) text = text.
Proof.
  intros H. unfold _replace_in_plain.
  destruct (key_re (plugin_of m)) as [r|] eqn:E; [|reflexivity].
  unfold Re.sub.
  assert (Forall (fun x => match x with
                           | Re.Plain _ => True
                           | Re.Hit w g => g = Some w
                           end) (Re.scan r 0 None text)) as Hs.
  { apply (scan_hits r (fun w g => g = Some w)).
    intros adv pv s n g A.
    destruct (attempt_key_re m r adv pv s n g E A) as [k [-> [-> [_ [_ [Hfit _]]]]]].
    now rewrite (key_fits_firstn adv s k Hfit). }
  rewrite <- (scan_text r text 0 None) at 2. simpl skipn.
  induction Hs as [|x ps Hx _ IH]; [reflexivity|].
  simpl. rewrite IH. f_equal.
  destruct x as [c|w g]; [reflexivity|]. subst g. simpl. unfold repl. simpl.
  destruct (dict_get m w) as [v|] eqn:G; [|reflexivity].
  now rewrite (H w v G).
Qed.

Lemma empty_documents_unmarked_witness :
  _replace_in_plain (plugin_of [(lit "AB", [])]) (lit "see AB") = lit "see AB".
Proof.
  apply empty_documents_unmarked. intros k v. cbn [dict_get].
  destruct (str_eqb (lit "AB") k); intros G; now inversion G.
Defined.

(** X14.  A page is one part exactly when it has no span from a delimiter
    to the same delimiter, and such a page is substituted as a whole. *)
Theorem fence_free_page (self : plugin) (markdown : str) :
  (fence_free markdown <-> Re.split FENCE_RE markdown = [markdown])
  /\ (fence_free markdown ->
      on_page_markdown self markdown = _replace_in_plain self markdown).
Proof.
  assert (fence_free markdown -> Re.split FENCE_RE markdown = [markdown]) as H.
  { intros Hf. unfold Re.split. rewrite scan_all_plain.
    - exact (split_pieces_plain _ []).
    - intros a t pv E.
      destruct (Re.attempt FENCE_RE false pv t) as [[n g]|] eqn:A; [|reflexivity].
      exfalso. apply attempt_fence in A.
      destruct A as [_ (d & body & s' & Hd & -> & _)].
      apply (Hf a d body s' Hd). rewrite E. now rewrite <- !app_assoc. }
  split; [split; [exact H|]|].
  - intros E. pose proof (split_fence_evens markdown) as F.
    rewrite E in F. simpl in F. now inversion F.
  - intros Hf. unfold on_page_markdown. rewrite (H Hf). simpl. apply app_nil_r.
Qed.

Lemma fence_free_page_witness :
  on_page_markdown (plugin_of index_AB) (lit "``AB ~~ AB")
  = _replace_in_plain (plugin_of index_AB) (lit "``AB ~~ AB").
Proof.
  apply (proj2 (fence_free_page (plugin_of index_AB) (lit "``AB ~~ AB"))).
  apply (proj2 (proj1 (fence_free_page (plugin_of index_AB) (lit "``AB ~~ AB")))).
  vm_compute. reflexivity.
Defined.

(** *** The first fenced span of a page *)

(** The closing delimiter of a span is the first one after the opener:
    none starts in the body. *)
Lemma fence_close_first d body :
  d = backticks \/ d = tildes ->
  contains (body ++ removelast d) d = false ->
  forall u1 u2 rest, body = u1 ++ u2 -> u2 <> [] ->
    Py.strip_prefix d (u2 ++ d ++ rest) = None.
Proof.
  intros Hd Hc u1 t rest E Ht. subst body. rewrite <- app_assoc in Hc.
  apply contains_false_suffix in Hc. apply contains_startswith in Hc.
  destruct (Py.strip_prefix d (t ++ d ++ rest)) eqn:S; [|reflexivity].
  exfalso. revert Hc S. unfold Py.startswith.
  destruct t as [|x t]; [congruence|]. clear Ht.
  destruct Hd; subst d;
    [change backticks with [96; 96; 96]%N|change tildes with [126; 126; 126]%N];
    cbn [removelast];
    do 3 (try (destruct t as [|?c t])); cbn [Py.strip_prefix app];
    repeat match goal with
    | |- context [N.eqb ?a ?b] =>
        destruct (N.eqb_spec a b); cbn [Py.strip_prefix app];
        try (intros H1 H2; discriminate); try subst
    end; try (intros H1 H2; discriminate).
Qed.

Lemma run_fence_exact {A : Type} d body rest pv g
    (k : option char -> str -> option str -> option A) a :
  (forall u1 u2, body = u1 ++ u2 -> u2 <> [] ->
     Py.strip_prefix d (u2 ++ d ++ rest) = None) ->
  (forall pv', k pv' rest g = Some a) ->
  Re.run (Re.seq [Re.Lit d; Re.LazyStar Re.any; Re.Lit d]) pv
         (d ++ body ++ d ++ rest) g k = Some a.
Proof.
  intros Hb Hk. unfold Re.seq. cbn [fold_right Re.run].
  rewrite strip_prefix_app.
  apply lazy_star_first; [apply forallb_any| |].
  - intros u1 u2 pv' E Hu2. now rewrite (Hb u1 u2 E Hu2).
  - rewrite strip_prefix_app. apply Hk.
Qed.

(** At an opener whose closing delimiter is the first one after it, the
    match is the span. *)
Lemma attempt_fence_exact d body b pv :
  d = backticks \/ d = tildes ->
  contains (body ++ removelast d) d = false ->
  Re.attempt FENCE_RE false pv (d ++ body ++ d ++ b)
  = Some (length (d ++ body ++ d), Some (d ++ body ++ d)).
Proof.
  intros Hd Hc. pose proof (fence_close_first d body Hd Hc) as Hb.
  assert (length (d ++ body ++ d ++ b) - length b = length (d ++ body ++ d)) as El.
  { rewrite !length_app. lia. }
  assert (firstn (length (d ++ body ++ d)) (d ++ body ++ d ++ b) = d ++ body ++ d) as Ef.
  { replace (d ++ body ++ d ++ b) with ((d ++ body ++ d) ++ b)
      by (now rewrite <- !app_assoc).
    apply firstn_length_app. }
  unfold Re.attempt, FENCE_RE. cbn [Re.run].
  destruct Hd; subst d.
  - erewrite (run_fence_exact backticks body b); [reflexivity|exact (fun u1 u2 => Hb u1 u2 b)|].
    intros pv'. cbn [andb]. now rewrite El, Ef.
  - assert (forall (k : option char -> str -> option str -> option (nat * option str)),
              Re.run (Re.seq [Re.Lit backticks; Re.LazyStar Re.any; Re.Lit backticks])
                     pv (tildes ++ body ++ tildes ++ b) None k = None) as ->
      by reflexivity.
    erewrite (run_fence_exact tildes body b); [reflexivity|exact (fun u1 u2 => Hb u1 u2 b)|].
    intros pv'. cbn [andb]. now rewrite El, Ef.
Qed.

Lemma fence_char_head d rest :
  d = backticks \/ d = tildes -> hd_in no_fence_char (d ++ rest) = false.
Proof. intros [->| ->]; reflexivity. Qed.

(** X15.  The first fenced span of a page cuts it in three: the text
    before the span, which has no delimiter character, is substituted on
    its own, the span is copied, and the text after it is treated as a page
    of its own. *)
Theorem on_page_markdown_first_fence (self : plugin) (a d body b : str) :
  d = backticks \/ d = tildes ->
  forallb no_fence_char a = true ->
  contains (body ++ removelast d) d = false ->
  Re.split FENCE_RE (a ++ d ++ body ++ d ++ b)
  = a :: (d ++ body ++ d) :: Re.split FENCE_RE b
  /\ on_page_markdown self (a ++ d ++ body ++ d ++ b)
     = _replace_in_plain self a ++ (d ++ body ++ d) ++ on_page_markdown self b.
Proof.
  intros Hd Ha Hc.
  assert (Re.split FENCE_RE (a ++ d ++ body ++ d ++ b)
          = a :: (d ++ body ++ d) :: Re.split FENCE_RE b) as E.
  { unfold Re.split. rewrite scan_plain_prefix.
    - rewrite split_pieces_plain_app.
      assert (exists c w, d ++ body ++ d = c :: w) as [c [w Ew]].
      { destruct Hd; subst d; eexists; eexists; reflexivity. }
      replace (d ++ body ++ d ++ b) with ((c :: w) ++ b)
        by (rewrite <- Ew; now rewrite <- !app_assoc).
      rewrite (scan_hit FENCE_RE _ c w b (Some (c :: w))).
      + cbn [Re.split_pieces app]. rewrite Ew. do 2 f_equal.
        f_equal. apply (scan_pv FENCE_RE attempt_fence_pv).
      + rewrite <- Ew. replace ((d ++ body ++ d) ++ b) with (d ++ body ++ d ++ b)
          by (now rewrite <- !app_assoc).
        now apply attempt_fence_exact.
    - intros a1 t pv E Ht.
      destruct (Re.attempt FENCE_RE false pv (t ++ d ++ body ++ d ++ b))
        as [[n g]|] eqn:A; [|reflexivity].
      exfalso. apply attempt_fence in A.
      destruct A as [_ (d' & body' & s' & Hd' & E' & _)].
      subst a. rewrite forallb_app in Ha. apply andb_prop in Ha.
      destruct Ha as [_ Ha]. destruct t as [|x t]; [congruence|].
      cbn [forallb] in Ha. apply andb_prop in Ha. destruct Ha as [Hx _].
      pose proof (fence_char_head d' ((body' ++ d') ++ s') Hd') as F.
      rewrite <- !app_assoc in E'. rewrite <- !app_assoc in F.
      rewrite <- E' in F. simpl in F. congruence. }
  split; [exact E|].
  unfold on_page_markdown. rewrite E. cbn [map_even concat]. reflexivity.
Qed.

Lemma on_page_markdown_first_fence_witness :
  on_page_markdown (plugin_of index_AB)
    (lit "AB " ++ backticks ++ lit "AB~" ++ backticks ++ lit " AB")
  = _replace_in_plain (plugin_of index_AB) (lit "AB ")
      ++ (backticks ++ lit "AB~" ++ backticks)
      ++ on_page_markdown (plugin_of index_AB) (lit " AB").
Proof.
  apply on_page_markdown_first_fence; [now left|reflexivity|reflexivity].
Defined.

(** ** The tooltip controller *)

Section ControllerFacts.
Import Tooltip.
Context {P : Page}.

Lemma clearTimeout_pending (st : state) :
  timers st = [] \/ (exists id, timers st = [id] /\ hideTimer st = Some id) ->
  clearTimeout (hideTimer st) (timers st) = [].
Proof.
  intros [E|[id [E1 E2]]].
  - rewrite E. destruct (hideTimer st); reflexivity.
  - rewrite E1, E2. simpl. now rewrite Nat.eqb_refl.
Qed.

Lemma controller_inv_intro (st : state) :
  displayed st = is_some (owner st) ->
  (pinned st = true -> displayed st = true) ->
  (forall s, owner st = Some s ->
     has_listeners s = true /\ data_mlabbr s = Some (innerHTML st)) ->
  (timers st = [] \/ exists id, timers st = [id] /\ hideTimer st = Some id) ->
  controller_inv st.
Proof. intros H1 H2 H3 H4. unfold controller_inv. auto. Qed.

Lemma requestHide_inv st : controller_inv st -> controller_inv (requestHide st).
Proof.
  intros H. pose proof H as (H1 & H2 & H3 & H4). unfold requestHide.
  destruct (pinned st) eqn:Ep; [exact H|].
  rewrite (clearTimeout_pending st H4).
  apply controller_inv_intro; simpl.
  - exact H1.
  - intros E. discriminate E.
  - exact H3.
  - right. now exists (next_timer st).
Qed.

Lemma showFor_inv s lay st :
  has_listeners s = true ->
  timers st = [] \/ (exists id, timers st = [id] /\ hideTimer st = Some id) ->
  controller_inv (showFor s lay st).
Proof.
  intros Hs H4. unfold showFor, place. apply controller_inv_intro; simpl.
  - reflexivity.
  - reflexivity.
  - intros s0 E. inversion E; subst s0. split; [exact Hs|].
    unfold has_listeners in Hs. unfold attribute_or_empty.
    destruct (data_mlabbr s) as [[|c h]|]; try discriminate Hs. reflexivity.
  - exact H4.
Qed.

Lemma set_pinned_false_inv st : controller_inv st -> controller_inv (set_pinned false st).
Proof.
  intros (H1 & H2 & H3 & H4). unfold set_pinned. apply controller_inv_intro; simpl.
  - exact H1.
  - intros E. discriminate E.
  - exact H3.
  - exact H4.
Qed.

Lemma handle_inv st e : controller_inv st -> controller_inv (handle st e).
Proof.
  intros H. pose proof H as (H1 & H2 & H3 & H4).
  destruct e as [s lay|s lay|s|s lay| | |t|key|id]; cbn [handle].
  - destruct (has_listeners s) eqn:Hs; [|exact H]. unfold span_mouseenter.
    destruct (pinned st); [exact H|]. now apply showFor_inv.
  - destruct (has_listeners s) eqn:Hs; [|exact H]. unfold span_mousemove.
    destruct (negb (pinned st) && owner_is st s) eqn:E; [|exact H].
    unfold place. apply controller_inv_intro; simpl.
    + unfold owner_is in E. apply andb_prop in E. destruct E as [_ E].
      destruct (owner st); [reflexivity|discriminate E].
    + reflexivity.
    + exact H3.
    + exact H4.
  - destruct (has_listeners s); [|exact H]. now apply requestHide_inv.
  - destruct (has_listeners s) eqn:Hs; [|exact H]. unfold span_click.
    destruct (pinned st && owner_is st s) eqn:E.
    + now apply requestHide_inv, set_pinned_false_inv.
    + now apply showFor_inv.
  - unfold tip_mouseenter. rewrite (clearTimeout_pending st H4).
    apply controller_inv_intro; simpl; auto.
  - now apply requestHide_inv.
  - unfold document_click. destruct (negb (pinned st)) eqn:Ep; [exact H|].
    destruct (on_tip_or_owner st t); [exact H|].
    now apply requestHide_inv, set_pinned_false_inv.
  - unfold document_keydown. destruct (str_eqb key (lit "Escape")); [|exact H].
    now apply requestHide_inv, set_pinned_false_inv.
  - destruct (existsb (Nat.eqb id) (timers st)) eqn:E; [|exact H].
    assert (clearTimeout (Some id) (timers st) = []) as ->.
    { destruct H4 as [H4|[h [H4 _]]]; rewrite H4 in *; [discriminate E|].
      simpl in E. rewrite orb_false_r in E. apply Nat.eqb_eq in E. subst h.
      simpl. now rewrite Nat.eqb_refl. }
    unfold hide_callback. simpl. destruct (pinned st) eqn:Ep.
    + apply controller_inv_intro; simpl; auto.
    + apply controller_inv_intro; simpl; auto; intros; congruence.
Qed.

Lemma fold_handle_inv events : forall st,
  controller_inv st -> controller_inv (fold_left handle events st).
Proof.
  induction events as [|e events IH]; intros st H; [exact H|].
  simpl. apply IH. now apply handle_inv.
Qed.

Lemma run_inv_controller events : controller_inv (run events).
Proof.
  apply fold_handle_inv. apply controller_inv_intro; simpl; auto; intros; congruence.
Qed.

(** X17.  After any calls of the listeners and the timeouts, the tooltip
    is displayed exactly when it has an owner, a pinned tooltip is
    displayed, and the owner is a marker with a tooltip text, which is the
    content of the tooltip. *)
Theorem controller_consistent (events : list event) :
  displayed (run events) = is_some (owner (run events))
  /\ (pinned (run events) = true -> displayed (run events) = true)
  /\ (forall s, owner (run events) = Some s ->
        has_listeners s = true /\ data_mlabbr s = Some (innerHTML (run events))).
Proof.
  destruct (run_inv_controller events) as (H1 & H2 & H3 & _). auto.
Qed.

(** X18.  At most one timeout is pending at any time, and [hideTimer]
    holds its id. *)
Theorem one_timer_pending (events : list event) :
  timers (run events) = []
  \/ exists id, timers (run events) = [id] /\ hideTimer (run events) = Some id.
Proof.
  pose proof (run_inv_controller events) as H. unfold controller_inv in H.
  destruct H as (_ & _ & _ & [E|[id [E1 E2]]]).
  - left. exact E.
  - right. exists id. split; [exact E1|exact E2].
Qed.

End ControllerFacts.

Section ControllerSteps.
Import Tooltip.
Context {P : Page}.

Lemma same_view_refl (st : state) : same_view st st.
Proof. unfold same_view. repeat split. Qed.

Lemma passive_pinned_step st e :
  pinned st = true -> passive e = true -> same_view st (handle st e).
Proof.
  intros Hp He.
  destruct e as [s lay|s lay|s|s lay| | |t|key|id]; try discriminate He;
    cbn [handle].
  - destruct (has_listeners s); [|apply same_view_refl].
    unfold span_mouseenter. rewrite Hp. apply same_view_refl.
  - destruct (has_listeners s); [|apply same_view_refl].
    unfold span_mousemove. rewrite Hp. apply same_view_refl.
  - destruct (has_listeners s); [|apply same_view_refl].
    unfold requestHide. rewrite Hp. apply same_view_refl.
  - unfold tip_mouseenter, same_view. simpl. repeat split.
  - unfold requestHide. rewrite Hp. apply same_view_refl.
  - destruct (existsb (Nat.eqb id) (timers st)); [|apply same_view_refl].
    unfold hide_callback. cbn [pinned]. rewrite Hp. unfold same_view. simpl.
    repeat split; congruence.
Qed.

(** X19.  While the tooltip is pinned, the calls that come from the
    pointer moving and from the timeouts change nothing of what is shown:
    the tooltip stays pinned, with its owner, its content and its place. *)
Theorem pinned_ignores_pointer (st : state) (events : list event) :
  pinned st = true -> forallb passive events = true ->
  same_view st (fold_left handle events st).
Proof.
  revert st. induction events as [|e events IH]; intros st Hp He.
  - apply same_view_refl.
  - simpl in He. apply andb_prop in He. destruct He as [He Hes].
    pose proof (passive_pinned_step st e Hp He) as (S1 & S2 & S3 & S4 & S5 & S6).
    assert (pinned (handle st e) = true) as Hp' by congruence.
    pose proof (IH (handle st e) Hp' Hes) as (T1 & T2 & T3 & T4 & T5 & T6).
    simpl. unfold same_view. repeat split; congruence.
Qed.

(** X20.  A pinned tooltip is unpinned by a click on its owner, by a click
    that is neither on the tooltip element nor in the owner, and by the
    Escape key.  The tooltip is then still displayed, one timeout is
    pending, and the tooltip is hidden and has no owner when that timeout
    runs next. *)
Theorem dismissal (events : list event) (e : event) :
  pinned (run events) = true -> dismissing (run events) e = true ->
  pinned (handle (run events) e) = false
  /\ displayed (handle (run events) e) = true
  /\ exists id,
       timers (handle (run events) e) = [id]
       /\ displayed (handle (handle (run events) e) (TimerFires id)) = false
       /\ owner (handle (handle (run events) e) (TimerFires id)) = None.
Proof.
  intros Hp He. destruct (run_inv_controller events) as (H1 & H2 & H3 & H4).
  set (st := run events) in *.
  assert (handle st e = requestHide (set_pinned false st)) as ->.
  { destruct e as [s lay|s lay|s|s lay| | |t|key|id]; try discriminate He;
      cbn [handle dismissing] in *.
    - apply andb_prop in He. destruct He as [Hs Ho]. rewrite Hs.
      unfold span_click. now rewrite Hp, Ho.
    - unfold document_click. rewrite Hp. cbn [negb].
      apply negb_true_iff in He. now rewrite He.
    - unfold document_keydown. now rewrite He. }
  unfold requestHide, set_pinned. cbn [pinned hideTimer timers].
  rewrite (clearTimeout_pending st H4). cbn [pinned displayed timers].
  split; [reflexivity|]. split; [now apply H2|].
  exists (next_timer st). split; [reflexivity|].
  cbn [handle timers existsb]. rewrite Nat.eqb_refl. cbn [orb].
  unfold hide_callback. cbn [pinned displayed owner]. split; reflexivity.
Qed.

(** X21.  The timeout that starts when the pointer leaves a marker, with
    the tooltip not pinned, hides the tooltip when it runs, also when the
    pointer has entered another marker in the meantime, whose tooltip is
    then shown; it is cancelled when the pointer enters the tooltip. *)
Theorem grace_period (events : list event) (a : span) :
  pinned (run events) = false -> has_listeners a = true ->
  exists id,
    timers (handle (run events) (MouseLeave a)) = [id]
    /\ (forall b lay, has_listeners b = true ->
          let entered := handle (handle (run events) (MouseLeave a)) (MouseEnter b lay) in
          displayed entered = true /\ owner entered = Some b
          /\ displayed (handle entered (TimerFires id)) = false
          /\ owner (handle entered (TimerFires id)) = None)
    /\ (let over := handle (handle (run events) (MouseLeave a)) TipEnter in
        timers over = [] /\ same_view (run events) over
        /\ forall id', handle over (TimerFires id') = over).
Proof.
  intros Hp Ha. destruct (run_inv_controller events) as (H1 & H2 & H3 & H4).
  set (st := run events) in *.
  exists (next_timer st).
  cbn [handle]. rewrite Ha. unfold requestHide. rewrite Hp.
  rewrite (clearTimeout_pending st H4). cbn [timers].
  split; [reflexivity|]. split.
  - intros b lay Hb. cbn zeta. cbn [handle]. rewrite Hb.
    unfold span_mouseenter. cbn [pinned]. rewrite ?Hp.
    unfold showFor, place. cbn [pinned owner hideTimer timers next_timer innerHTML
                                displayed sized style_left style_top].
    split; [reflexivity|]. split; [reflexivity|].
    cbn [existsb]. rewrite Nat.eqb_refl. cbn [orb].
    unfold hide_callback. cbn [pinned]. rewrite ?Hp. split; reflexivity.
  - cbn zeta. unfold tip_mouseenter.
    cbn [pinned owner hideTimer timers next_timer innerHTML
         displayed sized style_left style_top clearTimeout filter].
    rewrite Nat.eqb_refl. cbn [negb].
    split; [reflexivity|]. split.
    + unfold same_view. simpl. repeat split; congruence.
    + intros id'. reflexivity.
Qed.

(** X22.  A click of the user on a marker with a tooltip text toggles the
    pin: on the owner of a pinned tooltip it unpins; otherwise it pins the
    tooltip on the marker and shows the marker's text.  The listener of the
    document, which the same click reaches, leaves that as it is. *)
Theorem click_toggles (st : state) (s : span) (lay : layout) :
  has_listeners s = true ->
  let st' := fold_left handle (user_click s lay) st in
  if pinned st && owner_is st s
  then pinned st' = false /\ owner st' = owner st /\ displayed st' = displayed st
  else pinned st' = true /\ owner st' = Some s /\ displayed st' = true
       /\ innerHTML st' = attribute_or_empty s.
Proof.
  intros Hs. unfold user_click. cbn [fold_left handle]. rewrite Hs.
  unfold span_click. destruct (pinned st && owner_is st s) eqn:E; cbn zeta.
  - unfold document_click, requestHide, set_pinned. cbn [pinned negb].
    cbn [owner displayed]. auto.
  - unfold document_click, showFor, place, set_pinned, on_tip_or_owner.
    cbn [pinned negb owner displayed innerHTML]. rewrite Nat.eqb_refl.
    cbn [pinned negb owner displayed innerHTML]. auto.
Qed.

End ControllerSteps.

Lemma controller_consistent_witness :
  @Tooltip.displayed two_markers (Tooltip.run [Tooltip.Click 0 layout0]) = true.
Proof.
  apply (proj1 (proj2 (@controller_consistent two_markers [Tooltip.Click 0 layout0]))).
  reflexivity.
Defined.

Lemma pinned_ignores_pointer_witness :
  @same_view two_markers
    (Tooltip.run [Tooltip.Click 0 layout0])
    (fold_left Tooltip.handle
       [Tooltip.MouseLeave 0; Tooltip.TimerFires 1; Tooltip.MouseEnter 0 layout0]
       (Tooltip.run [Tooltip.Click 0 layout0])).
Proof. apply pinned_ignores_pointer; reflexivity. Defined.

Lemma dismissal_witness :
  @Tooltip.pinned two_markers
    (Tooltip.handle (Tooltip.run [Tooltip.Click 0 layout0]) (Tooltip.KeyDown (lit "Escape")))
  = false.
Proof.
  apply (@dismissal two_markers [Tooltip.Click 0 layout0] (Tooltip.KeyDown (lit "Escape")));
    reflexivity.
Defined.

Lemma grace_period_witness :
  exists id,
    @Tooltip.timers two_markers
      (Tooltip.handle (Tooltip.run [Tooltip.MouseEnter 0 layout0]) (Tooltip.MouseLeave 0))
    = [id].
Proof.
  destruct (@grace_period two_markers [Tooltip.MouseEnter 0 layout0] 0 eq_refl eq_refl)
    as [id [H _]].
  exists id. exact H.
Defined.

Lemma click_toggles_witness :
  @Tooltip.pinned two_markers
    (fold_left Tooltip.handle (user_click 0 layout0) Tooltip.init) = true.
Proof.
  apply (@click_toggles two_markers Tooltip.init 0 layout0 eq_refl).
Defined.

(** ** The default level and the white space of a line *)

(** X24.  A line whose first character after the leading white space can
    start no rule (and a line of white space only) is at level 0. *)
Theorem detect_level_default (line : str) :
  hd_in level_starter (Py.lstrip line) = false -> detect_level line = 0.
Proof.
  intros H.
  assert (hd_in (N.eqb c_di) (Py.lstrip line) = false
          /\ hd_in cjk_numeral (Py.lstrip line) = false
          /\ hd_in (N.eqb c_lparen) (Py.lstrip line) = false
          /\ hd_in (N.eqb 40) (Py.lstrip line) = false
          /\ hd_in Py.isdecimal (Py.lstrip line) = false) as (H1 & H2 & H3 & H4 & H5).
  { destruct (Py.lstrip line) as [|c s]; [repeat split|].
    unfold level_starter in H. cbn [hd_in] in *.
    repeat (apply orb_false_elim in H; destruct H as [H ?]). auto. }
  unfold detect_level, LEVEL_RULES. cbv [detect_level_in].
  rewrite !(rule_fail (N.eqb c_di) (Re.Lit [c_di]));
    try solve [apply starts_in_lit | intros x; now apply eqb_not_space | exact H1].
  rewrite !(rule_fail cjk_numeral (Re.Plus cjk_numeral));
    try solve [apply starts_in_plus | apply cjk_numeral_not_space | exact H2].
  rewrite !(rule_fail (N.eqb c_lparen) (Re.Lit [c_lparen]));
    try solve [apply starts_in_lit | intros x; now apply eqb_not_space | exact H3].
  rewrite !(rule_fail (N.eqb 40) (Re.Lit (lit "(")));
    try solve [apply starts_in_lit | intros x; now apply eqb_not_space | exact H4].
  rewrite !(rule_fail Py.isdecimal digits);
    try solve [apply starts_in_plus | apply space_not_decimal | exact H5].
  reflexivity.
Qed.

Lemma detect_level_default_witness :
  detect_level (lit "  plain (a) 1" ++ [c_comma]) = 0.
Proof. apply detect_level_default. reflexivity. Defined.

Lemma rstrip_spaces u : forallb Py.isspace u = true -> Py.rstrip u = [].
Proof.
  induction u as [|c u IH]; [reflexivity|]. intros H.
  cbn [forallb] in H. apply andb_prop in H. destruct H as [Hc Hu].
  simpl. rewrite (IH Hu). now rewrite Hc.
Qed.

Lemma rstrip_app_spaces s u :
  forallb Py.isspace u = true -> Py.rstrip (s ++ u) = Py.rstrip s.
Proof.
  intros Hu. induction s as [|c s IH]; [now apply rstrip_spaces|].
  change ((c :: s) ++ u) with (c :: (s ++ u)).
  change (Py.rstrip (c :: s ++ u)) with
    (match Py.rstrip (s ++ u) with
     | [] => if Py.isspace c then [] else [c]
     | t => c :: t
     end).
  now rewrite IH.
Qed.

Lemma is_blank_spaces raw : is_blank raw = true -> forallb Py.isspace raw = true.
Proof.
  induction raw as [|c t IH]; [reflexivity|]. intros H.
  pose proof (is_blank_head c t H) as Hc. cbn [forallb]. rewrite Hc.
  apply IH. unfold is_blank, Py.strip, Py.lstrip in *. simpl in H.
  now rewrite Hc in H.
Qed.

(** X23.  White space at the end of a line does not reach the markup, and
    a blank line gives an empty container at level 0. *)
Theorem line_to_html_trailing_space (raw u : str) :
  (forallb Py.isspace u = true -> line_to_html (raw ++ u) = line_to_html raw)
  /\ (is_blank raw = true -> line_to_html raw = div_open 0 ++ lit "</div>").
Proof.
  split.
  - intros Hu. unfold line_to_html. now rewrite (rstrip_app_spaces raw u Hu).
  - intros Hb. rewrite line_to_html_div.
    rewrite (rstrip_spaces raw (is_blank_spaces raw Hb)). reflexivity.
Qed.

Lemma line_to_html_trailing_space_witness :
  line_to_html (lit "(1) x" ++ lit "   ") = line_to_html (lit "(1) x").
Proof.
  apply (proj1 (line_to_html_trailing_space (lit "(1) x") (lit "   "))).
  reflexivity.
Defined.
